(** * Tab tree engine of the desktop app: tab helpers and tab operations

    Shallow embedding of
    - [shared/types.ts]              (Tab, Worktree, Workspace, WorkspaceConfig),
    - the tab helpers                (findTab, findParentTab,
                                      recalculateTabPositions,
                                      removeTabRecursive, isValidParentTab),
    - the tab operations             (createTab, deleteTab, reorderTabs,
                                      moveTab, updateTabGridSizes,
                                      updateTerminalCwd),
    - the grid placement of [ScreenLayout], which draws what they leave.

    The TypeScript code mutates one object graph in place.  The graph that
    hangs below a worktree is a tree (it comes from a JSON document), so an
    in-place update of the object returned by [findTab] is written here as
    the replacement of the first node, in depth-first order, carrying the
    searched id.  An operation takes the workspace and the gateway and
    returns its result with both as it leaves them; the clock and the id
    generator are arguments.  The operations are [async] but never [await]:
    each runs to its [return] in one go.

    [moveTab] holds on to two arrays while it looks their owners up again by
    id; its embedding says what the code does when the ids of the forest
    are distinct, and the statements on it assume so.  Numbers are the
    integral doubles, written as integers, with the infinities and [NaN]
    where a division by a zero column count or an overflow produces them.

    The gateway ([configManager]) is not among the sources; it is modelled
    from the specification, with calls that may throw.  Every operation runs
    in one [try] block, so what the gateway throws comes back as a failure
    of the operation, after the workspace object was changed and stamped. *)

From Stdlib Require Import QArith.
From stdpp Require Import base option strings numbers list.

Local Open Scope Z_scope.
Local Set Warnings "-clear-no-such-hyp".

(** ** JavaScript numbers that occur in position fields

    Indices and column counts are integral.  [Math.floor(index / cols)] and
    [index % cols] leave the integers only when [cols] is [0];
    [row * cols + col] leaves them only by overflow. *)

Inductive number : Type :=
| Int (z : Z)
| Infinity
| NegInfinity
| NaN.

#[global] Instance number_eq_dec : EqDecision number.
Proof. solve_decision. Defined.

(** [Math.floor(index / cols)] for integral [index >= 0] and integral [cols]. *)
Definition floorDiv (index cols : Z) : number :=
  if decide (cols = 0)
  then (if decide (index = 0) then NaN else Infinity)
  else Int (index `div` cols).

(** [index % cols]: the sign of the result follows the dividend. *)
Definition jsRem (index cols : Z) : number :=
  if decide (cols = 0) then NaN else Int (index `rem` cols).

(** The double nearest to the integer [z], ties to the even significand:
    what an arithmetic operation on doubles returns when its exact result is
    [z].  Up to [2^53] in absolute value the integers are doubles. *)
Definition toDouble (z : Z) : number :=
  let a := Z.abs z in
  if decide (a < 2 ^ 53) then Int z
  else
    let e := Z.log2 a - 52 in
    let q := a `div` 2 ^ e in
    let r := a `mod` 2 ^ e in
    let half := 2 ^ (e - 1) in
    let q' := if decide (r < half) then q
              else if decide (half < r) then q + 1
              else if Z.even q then q else q + 1 in
    let m := q' * 2 ^ e in
    if decide (m < 2 ^ 1024) then Int (Z.sgn z * m)
    else if decide (0 < z) then Infinity else NegInfinity.

(** [row * cols + col] on integral doubles: the product is rounded, then the
    sum. *)
Definition timesPlus (row cols col : Z) : number :=
  match toDouble (row * cols) with
  | Int product => toDouble (product + col)
  | overflow => overflow
  end.

(** ** shared/types.ts *)

Inductive TabType : Type := terminal | editor | browser | preview | group.

#[global] Instance TabType_eq_dec : EqDecision TabType.
Proof. solve_decision. Defined.

(** The scalar properties of a [Tab].  An optional property is an [option];
    [command] may also be [null], its inner [option]. *)
Record TabData : Type := mkTabData {
  tab_id : string;
  tab_name : string;
  tab_type : TabType;
  command : option (option string);
  cwd : option string;
  rows : option Z;
  cols : option Z;
  rowSizes : option (list Q);
  colSizes : option (list Q);
  order : option number;
  row : option number;
  col : option number;
  rowSpan : option Z;
  colSpan : option Z;
  tab_createdAt : string
}.

(** A [Tab]: its scalar properties and the optional array [tabs].  The
    induction principle that fits the nesting is [forest_ind] below. *)
Local Unset Elimination Schemes.
Inductive Tab : Type :=
| mkTab (data : TabData) (tabs : option (list Tab)).
Local Set Elimination Schemes.

Definition data (t : Tab) : TabData := let 'mkTab d _ := t in d.
Definition tabs (t : Tab) : option (list Tab) := let 'mkTab _ ts := t in ts.

Record Worktree : Type := mkWorktree {
  wt_id : string;
  wt_branch : string;
  wt_path : string;
  wt_tabs : list Tab;
  wt_createdAt : string
}.

Record Workspace : Type := mkWorkspace {
  ws_id : string;
  ws_name : string;
  repoPath : string;
  ws_branch : string;
  worktrees : list Worktree;
  activeWorktreeId : option string;
  activeTabId : option string;
  ws_createdAt : string;
  updatedAt : string
}.

Record WorkspaceConfig : Type := mkWorkspaceConfig {
  workspaces : list Workspace;
  lastOpenedWorkspaceId : option string;
  activeWorkspaceId : option string
}.

Record CreateTabInput : Type := mkCreateTabInput {
  in_workspaceId : string;
  in_worktreeId : string;
  in_parentTabId : option string;
  in_name : string;
  in_type : option TabType;
  in_command : option (option string);
  in_rows : option Z;
  in_cols : option Z;
  in_row : option Z;
  in_col : option Z;
  in_rowSpan : option Z;
  in_colSpan : option Z
}.

(** ** JavaScript idioms used by the helpers *)

(** Truthiness of an optional string ([if (input.parentTabId)]): [undefined]
    and the empty string are falsy. *)
Definition truthyId (o : option string) : option string :=
  match o with
  | Some s => if decide (s = EmptyString) then None else Some s
  | None => None
  end.

(** Truthiness of an optional integral number ([if (tab.cols)],
    [parentTab.cols || 2]): [undefined] and [0] are falsy. *)
Definition truthyNum (o : option Z) : option Z :=
  match o with
  | Some z => if decide (z = 0) then None else Some z
  | None => None
  end.

(** [o || d] on optional integral numbers. *)
Definition orElse (o : option Z) (d : Z) : Z := default d (truthyNum o).

(** A [for (const x of l)] loop whose body may [return] a value. *)
Fixpoint firstSome {A B : Type} (body : A -> option B) (l : list A) : option B :=
  match l with
  | [] => None
  | x :: rest =>
      match body x with
      | Some b => Some b
      | None => firstSome body rest
      end
  end.

(** A [for (const x of l)] loop whose body may mutate [x] and [return true]:
    the list with the first element on which [body] fires replaced. *)
Fixpoint updateFirst {A : Type} (body : A -> option A) (l : list A) : option (list A) :=
  match l with
  | [] => None
  | x :: rest =>
      match body x with
      | Some x' => Some (x' :: rest)
      | None => cons x <$> updateFirst body rest
      end
  end.

(** [l.findIndex((t) => t.id === tabId)]; [None] stands for [-1]. *)
Fixpoint findIndex (l : list Tab) (tabId : string) : option nat :=
  match l with
  | [] => None
  | t :: rest =>
      if decide (tab_id (data t) = tabId) then Some 0%nat
      else S <$> findIndex rest tabId
  end.

(** [l.find((t) => t.id === tabId)]. *)
Definition findById (l : list Tab) (tabId : string) : option Tab :=
  i ← findIndex l tabId; l !! i.

(** The array a loop may descend into: [tab.type === "group" && tab.tabs]. *)
Definition groupTabs (t : Tab) : option (list Tab) :=
  if decide (tab_type (data t) = group) then tabs t else None.

(** ** The tab helpers *)

(** The body of the loop of [findTab], for one [tab]. *)
Fixpoint findTabIn (tabId : string) (tab : Tab) {struct tab} : option Tab :=
  match tab with
  | mkTab d ts =>
      if decide (tab_id d = tabId) then Some tab
      else if decide (tab_type d = group) then
        match ts with
        | Some sub => firstSome (findTabIn tabId) sub
        | None => None
        end
      else None
  end.

Definition findTab (tabs : list Tab) (tabId : string) : option Tab :=
  firstSome (findTabIn tabId) tabs.

(** [tab.tabs.some((t) => t.id === tabId)] *)
Definition someId (l : list Tab) (tabId : string) : bool :=
  bool_decide (is_Some (findIndex l tabId)).

(** The body of the loop of [findParentTab], for one [tab]. *)
Fixpoint findParentTabIn (tabId : string) (tab : Tab) {struct tab} : option Tab :=
  match tab with
  | mkTab d ts =>
      if decide (tab_type d = group) then
        match ts with
        | Some sub =>
            if someId sub tabId then Some tab
            else firstSome (findParentTabIn tabId) sub
        | None => None
        end
      else None
  end.

Definition findParentTab (tabs : list Tab) (tabId : string) : option Tab :=
  firstSome (findParentTabIn tabId) tabs.

(** [{ ...tab, order: index, row, col }] *)
Definition setPosition (o r c : option number) (t : Tab) : Tab :=
  let d := data t in
  mkTab
    {| tab_id := tab_id d; tab_name := tab_name d; tab_type := tab_type d;
       command := command d; cwd := cwd d; rows := rows d; cols := cols d;
       rowSizes := rowSizes d; colSizes := colSizes d;
       order := o; row := r; col := c;
       rowSpan := rowSpan d; colSpan := colSpan d;
       tab_createdAt := tab_createdAt d |}
    (tabs t).

Definition recalculateTabPositions (tabs : list Tab) (cols : Z) : list Tab :=
  imap (fun index tab =>
          setPosition (Some (Int (Z.of_nat index)))
                      (Some (floorDiv (Z.of_nat index) cols))
                      (Some (jsRem (Z.of_nat index) cols)) tab) tabs.

(** [if (tab.cols) { tab.tabs = recalculateTabPositions(tab.tabs, tab.cols) }] *)
Definition recalculateIfCols (c : option Z) (l : list Tab) : list Tab :=
  match truthyNum c with
  | Some n => recalculateTabPositions l n
  | None => l
  end.

(** [removeTabRecursive] returns [true] after changing the array and [false]
    without changing it: [Some l'] is [true] with the new contents, [None]
    is [false].  [removeTabIn] is the body of its loop, for one [tab]. *)
Fixpoint removeTabIn (tabId : string) (tab : Tab) {struct tab} : option Tab :=
  match tab with
  | mkTab d ts =>
      if decide (tab_type d = group) then
        match ts with
        | Some sub =>
            match
              match findIndex sub tabId with
              | Some tabIndex => Some (delete tabIndex sub)
              | None => updateFirst (removeTabIn tabId) sub
              end
            with
            | Some sub' => Some (mkTab d (Some (recalculateIfCols (cols d) sub')))
            | None => None
            end
        | None => None
        end
      else None
  end.

Definition removeTabRecursive (tabs : list Tab) (tabId : string) : option (list Tab) :=
  match findIndex tabs tabId with
  | Some tabIndex => Some (delete tabIndex tabs)
  | None => updateFirst (removeTabIn tabId) tabs
  end.

Definition isValidParentTab (tab : option Tab) : bool :=
  match tab with
  | Some t => bool_decide (tab_type (data t) = group)
  | None => false
  end.

(** ** The tab operations *)

(** The result object [{ success, tab?, error? }]. *)
Inductive Result (A : Type) : Type :=
| success (a : A)
| failure (error : string).
Arguments success {A} a.
Arguments failure {A} error.

Definition isSuccess {A : Type} (r : Result A) : bool :=
  match r with success _ => true | failure _ => false end.

(** A call that returns a value or throws; [e] is the message that the
    [catch] block of an operation makes of what was thrown
    ([error instanceof Error ? error.message : String(error)]). *)
Inductive Call (A : Type) : Type :=
| returns (a : A)
| throws (e : string).
Arguments returns {A} a.
Arguments throws {A} e.

(** Modelled from the spec: [configManager] (the Persistence Gateway) is not
    part of the sources at hand.  [read()] returns the stored configuration,
    [write(config)] replaces it, atomically; either call may throw instead
    (a gateway read or write error), and a [write] that throws has stored
    nothing.  [readError] and [writeError] say what the call throws, if it
    does; [writes] records every write that went through, oldest first. *)
Record Gateway : Type := mkGateway {
  stored : WorkspaceConfig;
  writes : list WorkspaceConfig;
  readError : option string;
  writeError : option string
}.

Definition gw_read (g : Gateway) : Call WorkspaceConfig :=
  match readError g with
  | Some e => throws e
  | None => returns (stored g)
  end.

Definition gw_write (config : WorkspaceConfig) (g : Gateway) : Call Gateway :=
  match writeError g with
  | Some e => throws e
  | None =>
      returns {| stored := config; writes := writes g ++ [config];
                 readError := readError g; writeError := writeError g |}
  end.

(** What the [catch] block of an operation returns for the message [e]:
    [{ success: false, error: e }], or [false] for [updateTerminalCwd]. *)
Class Caught (R : Type) : Type := caught : string -> R.
#[global] Instance caught_result {A : Type} : Caught (Result A) := failure.
#[global] Instance caught_bool : Caught bool := fun _ => false.

(** What an operation leaves behind: the returned value, the workspace object
    as mutated, and the gateway. *)
Record Outcome (R : Type) : Type := mkOutcome {
  result : R;
  workspace' : Workspace;
  gateway' : Gateway
}.
Arguments mkOutcome {R} _ _ _.
Arguments result {R} _.
Arguments workspace' {R} _.
Arguments gateway' {R} _.

(** [workspace.worktrees.find((wt) => wt.id === worktreeId)], as an index. *)
Fixpoint findWorktree (l : list Worktree) (worktreeId : string) : option nat :=
  match l with
  | [] => None
  | wt :: rest =>
      if decide (wt_id wt = worktreeId) then Some 0%nat
      else S <$> findWorktree rest worktreeId
  end.

(** [config.workspaces.findIndex((ws) => ws.id === workspaceId)] *)
Fixpoint findWorkspaceIndex (l : list Workspace) (workspaceId : string) : option nat :=
  match l with
  | [] => None
  | ws :: rest =>
      if decide (ws_id ws = workspaceId) then Some 0%nat
      else S <$> findWorkspaceIndex rest workspaceId
  end.

Definition setTabs (l : list Tab) (wt : Worktree) : Worktree :=
  {| wt_id := wt_id wt; wt_branch := wt_branch wt; wt_path := wt_path wt;
     wt_tabs := l; wt_createdAt := wt_createdAt wt |}.

(** [worktree.tabs = l] (or an in-place change of that array) for the
    worktree at index [wi] of [workspace.worktrees]. *)
Definition setWorktreeTabs (wi : nat) (l : list Tab) (ws : Workspace) : Workspace :=
  {| ws_id := ws_id ws; ws_name := ws_name ws; repoPath := repoPath ws;
     ws_branch := ws_branch ws;
     worktrees := alter (setTabs l) wi (worktrees ws);
     activeWorktreeId := activeWorktreeId ws; activeTabId := activeTabId ws;
     ws_createdAt := ws_createdAt ws; updatedAt := updatedAt ws |}.

(** [workspace.updatedAt = now] *)
Definition setUpdatedAt (now : string) (ws : Workspace) : Workspace :=
  {| ws_id := ws_id ws; ws_name := ws_name ws; repoPath := repoPath ws;
     ws_branch := ws_branch ws; worktrees := worktrees ws;
     activeWorktreeId := activeWorktreeId ws; activeTabId := activeTabId ws;
     ws_createdAt := ws_createdAt ws; updatedAt := now |}.

(** The block under the comment [// Save] of every operation: the gateway as
    the block leaves it, or what [read] or [write] threw. *)
Definition save (ws : Workspace) (g : Gateway) : Call Gateway :=
  match gw_read g with
  | throws e => throws e
  | returns config =>
      match findWorkspaceIndex (workspaces config) (ws_id ws) with
      | Some index =>
          gw_write {| workspaces := <[index := ws]> (workspaces config);
                      lastOpenedWorkspaceId := lastOpenedWorkspaceId config;
                      activeWorkspaceId := activeWorkspaceId config |} g
      | None => returns g
      end
  end.

(** The end of every operation whose checks passed: stamp, save, return [r].
    When the save block throws, the [catch] block returns instead: the
    workspace object was changed and stamped, the gateway is as it was. *)
Definition commit {R : Type} `{Caught R} (r : R) (now : string) (ws : Workspace) (g : Gateway)
  : Outcome R :=
  let ws' := setUpdatedAt now ws in
  let saved := save ws' g in
  {| result := match saved with returns _ => r | throws e => caught e end;
     workspace' := ws';
     gateway' := match saved with returns g' => g' | throws _ => g end |}.

(** An in-place change [f] of the object that [findTab tabs tabId] returns:
    the forest with the first match in depth-first order replaced, [None]
    when [findTab] returns [null]. *)
Fixpoint updateTabIn (tabId : string) (f : Tab -> Tab) (tab : Tab) {struct tab} : option Tab :=
  match tab with
  | mkTab d ts =>
      if decide (tab_id d = tabId) then Some (f tab)
      else if decide (tab_type d = group) then
        match ts with
        | Some sub => (fun sub' => mkTab d (Some sub')) <$> updateFirst (updateTabIn tabId f) sub
        | None => None
        end
      else None
  end.

Definition updateTab (tabs : list Tab) (tabId : string) (f : Tab -> Tab) : option (list Tab) :=
  updateFirst (updateTabIn tabId f) tabs.

(** [p.tabs = l] *)
Definition withTabs (l : list Tab) (p : Tab) : Tab := mkTab (data p) (Some l).

(** [p.tabs || []] *)
Definition tabsOrEmpty (p : Tab) : list Tab := default [] (tabs p).

(** A mutation through a reference held since an earlier [findTab]: nothing
    in the forest changes when the object is no longer part of it. *)
Definition mutateTab (tabs : list Tab) (tabId : string) (f : Tab -> Tab) : list Tab :=
  default tabs (updateTab tabs tabId f).

Definition setData (d : TabData) (t : Tab) : Tab := mkTab d (tabs t).

(** *** createTab *)

(** The object literal and the type-specific properties. *)
Definition newTab (uuid createdNow : string) (input : CreateTabInput) : Tab :=
  let type := default terminal (in_type input) in
  mkTab
    {| tab_id := uuid; tab_name := in_name input; tab_type := type;
       command := if decide (type = terminal) then in_command input else None;
       cwd := None;
       rows := if decide (type = group) then Some (orElse (in_rows input) 2) else None;
       cols := if decide (type = group) then Some (orElse (in_cols input) 2) else None;
       rowSizes := None; colSizes := None;
       order := None; row := None; col := None;
       rowSpan := None; colSpan := None;
       tab_createdAt := createdNow |}
    (if decide (type = group) then Some [] else None).

(** The position properties given to a tab created inside [parentTab]. *)
Definition placeIn (input : CreateTabInput) (parentTab : Tab) (tab : Tab) : Tab :=
  let d := data tab in
  let explicit :=
    match in_row input, in_col input, truthyNum (cols (data parentTab)) with
    | Some r, Some c, Some pcols => Some (r, c, pcols)
    | _, _, _ => None
    end in
  setData
    {| tab_id := tab_id d; tab_name := tab_name d; tab_type := tab_type d;
       command := command d; cwd := cwd d; rows := rows d; cols := cols d;
       rowSizes := rowSizes d; colSizes := colSizes d;
       order := match explicit with Some (r, c, pcols) => Some (timesPlus r pcols c) | None => order d end;
       row := match explicit with Some (r, _, _) => Some (Int r) | None => row d end;
       col := match explicit with Some (_, c, _) => Some (Int c) | None => col d end;
       rowSpan := in_rowSpan input; colSpan := in_colSpan input;
       tab_createdAt := tab_createdAt d |}
    tab.

(** [uuid] is what [randomUUID()] returns, [createdNow] and [now] what the two
    [new Date().toISOString()] return. *)
Definition createTab (uuid createdNow now : string)
    (workspace : Workspace) (input : CreateTabInput) (g : Gateway) : Outcome (Result Tab) :=
  match findWorktree (worktrees workspace) (in_worktreeId input) with
  | None => mkOutcome (failure "Worktree not found") workspace g
  | Some wi =>
      let wtabs := default [] (wt_tabs <$> worktrees workspace !! wi) in
      let tab := newTab uuid createdNow input in
      match truthyId (in_parentTabId input) with
      | Some parentTabId =>
          let parentTab := findTab wtabs parentTabId in
          match parentTab with
          | Some p =>
              if isValidParentTab parentTab then
                let tab := placeIn input p tab in
                let wtabs' := mutateTab wtabs parentTabId
                                (fun p => withTabs (tabsOrEmpty p ++ [tab]) p) in
                commit (success tab) now (setWorktreeTabs wi wtabs' workspace) g
              else mkOutcome (failure "Parent tab not found or not a group") workspace g
          | None => mkOutcome (failure "Parent tab not found or not a group") workspace g
          end
      | None =>
          commit (success tab) now (setWorktreeTabs wi (wtabs ++ [tab]) workspace) g
      end
  end.

(** *** deleteTab *)

Definition deleteTab (now : string) (workspace : Workspace)
    (worktreeId tabId : string) (g : Gateway) : Outcome (Result unit) :=
  match findWorktree (worktrees workspace) worktreeId with
  | None => mkOutcome (failure "Worktree not found") workspace g
  | Some wi =>
      let wtabs := default [] (wt_tabs <$> worktrees workspace !! wi) in
      match removeTabRecursive wtabs tabId with
      | None => mkOutcome (failure "Tab not found") workspace g
      | Some wtabs' => commit (success ()) now (setWorktreeTabs wi wtabs' workspace) g
      end
  end.

(** *** reorderTabs *)

(** The list a [parentTabId] option designates: the worktree's own list when
    it is falsy, the list of a group otherwise. *)
Inductive Container : Type :=
| TopLevel
| InGroup (parentTabId : string).

#[global] Instance Container_eq_dec : EqDecision Container.
Proof. solve_decision. Defined.

Definition container (parentTabId : option string) : Container :=
  match truthyId parentTabId with
  | Some p => InGroup p
  | None => TopLevel
  end.

(** The [if (input.parentTabId) { ... } else { ... }] that yields the sibling
    array and its column count; [None] when [isValidParentTab] is false. *)
Definition locate (wtabs : list Tab) (c : Container) : option (list Tab * Z) :=
  match c with
  | InGroup p =>
      let parentTab := findTab wtabs p in
      if isValidParentTab parentTab
      then (fun t => (tabsOrEmpty t, orElse (cols (data t)) 2)) <$> parentTab
      else None
  | TopLevel => Some (wtabs, 2)
  end.

Definition reorderTabs (now : string) (workspace : Workspace)
    (worktreeId : string) (parentTabId : option string) (tabIds : list string)
    (g : Gateway) : Outcome (Result unit) :=
  match findWorktree (worktrees workspace) worktreeId with
  | None => mkOutcome (failure "Worktree not found") workspace g
  | Some wi =>
      let wtabs := default [] (wt_tabs <$> worktrees workspace !! wi) in
      match locate wtabs (container parentTabId) with
      | None => mkOutcome (failure "Parent tab not found or not a group") workspace g
      | Some (tabs, cols) =>
          let reorderedTabs := omap (findById tabs) tabIds in
          if decide (length reorderedTabs ≠ length tabs) then
            mkOutcome (failure "Tab count mismatch during reorder") workspace g
          else
            let updatedTabs := recalculateTabPositions reorderedTabs cols in
            let wtabs' :=
              match container parentTabId with
              | InGroup p => mutateTab wtabs p (withTabs updatedTabs)
              | TopLevel => updatedTabs
              end in
            commit (success ()) now (setWorktreeTabs wi wtabs' workspace) g
      end
  end.

(** *** moveTab *)

(** Where [array.splice(start, 0, x)] inserts in an array of length [len]:
    a negative [start] counts from the end. *)
Definition spliceStart (len : nat) (start : Z) : nat :=
  if decide (start < 0)
  then Z.to_nat (Z.max (Z.of_nat len + start) 0)
  else Z.to_nat (Z.min start (Z.of_nat len)).

(** [l.splice(start, 0, x)] *)
Definition spliceIn (l : list Tab) (start : Z) (x : Tab) : list Tab :=
  let k := spliceStart (length l) start in
  take k l ++ x :: drop k l.

(** The message of the [TypeError] raised by [null.tabs = ...]. *)
Definition nullTabsError : string :=
  "Cannot set properties of null (setting 'tabs')".

(** The worktree's forest at the end of the mutating part of [moveTab]:
    [moved] when the function ran to its last assignment, [thrown] when an
    assignment through a [null] parent raised and the [catch] took over. *)
Inductive Moved : Type :=
| moved (wtabs : list Tab)
| thrown (wtabs : list Tab).

(** The part of [moveTab] from [sourceTabs.splice(tabIndex, 1)] to the last
    recalculation.  [src] and [tgt] designate the two arrays, [tab] is
    [sourceTabs[tabIndex]].  Written for forests whose ids are distinct, where
    an id names one object. *)
Definition moveInForest (wtabs : list Tab) (src tgt : Container)
    (tabIndex : nat) (tab : Tab) (targetIndex : Z) (sourceCols targetCols : Z) : Moved :=
  (* const [tab] = sourceTabs.splice(tabIndex, 1) *)
  let w1 :=
    match src with
    | TopLevel => delete tabIndex wtabs
    | InGroup s => mutateTab wtabs s (fun p => withTabs (delete tabIndex (tabsOrEmpty p)) p)
    end in
  (* targetTabs.splice(input.targetIndex, 0, tab); a group without [tabs]
     had a fresh array made for it, which no object refers to yet *)
  let w2 :=
    match tgt with
    | TopLevel => spliceIn w1 targetIndex tab
    | InGroup t =>
        mutateTab w1 t (fun p =>
          match tabs p with
          | Some l => withTabs (spliceIn l targetIndex tab) p
          | None => p
          end)
    end in
  (* recalculate the source *)
  let w3 :=
    match src with
    | TopLevel => Some (recalculateTabPositions w2 sourceCols)
    | InGroup s =>
        updateTab w2 s (fun p => withTabs (recalculateTabPositions (tabsOrEmpty p) sourceCols) p)
    end in
  match w3 with
  | None => thrown w2
  | Some w3 =>
      (* recalculate the target; when both are one array, [targetTabs] still
         is the array that the source recalculation read *)
      match tgt with
      | TopLevel =>
          moved (recalculateTabPositions
                   (if decide (src = tgt) then w2 else w3) targetCols)
      | InGroup t =>
          let contents (p : Tab) :=
            if decide (src = tgt)
            then default [] (tabsOrEmpty <$> findTab w2 t)
            else match tabs p with Some l => l | None => [tab] end in
          match updateTab w3 t (fun p => withTabs (recalculateTabPositions (contents p) targetCols) p) with
          | Some w4 => moved w4
          | None => thrown w3
          end
      end
  end.

Definition moveTab (now : string) (workspace : Workspace)
    (worktreeId tabId : string) (sourceParentTabId targetParentTabId : option string)
    (targetIndex : Z) (g : Gateway) : Outcome (Result unit) :=
  match findWorktree (worktrees workspace) worktreeId with
  | None => mkOutcome (failure "Worktree not found") workspace g
  | Some wi =>
      let wtabs := default [] (wt_tabs <$> worktrees workspace !! wi) in
      let src := container sourceParentTabId in
      let tgt := container targetParentTabId in
      match locate wtabs src with
      | None => mkOutcome (failure "Source parent tab not found") workspace g
      | Some (sourceTabs, sourceCols) =>
          match locate wtabs tgt with
          | None => mkOutcome (failure "Target parent tab not found") workspace g
          | Some (targetTabs, targetCols) =>
              match findIndex sourceTabs tabId, findById sourceTabs tabId with
              | Some tabIndex, Some tab =>
                  match moveInForest wtabs src tgt tabIndex tab targetIndex sourceCols targetCols with
                  | moved wtabs' =>
                      commit (success ()) now (setWorktreeTabs wi wtabs' workspace) g
                  | thrown wtabs' =>
                      mkOutcome (failure nullTabsError) (setWorktreeTabs wi wtabs' workspace) g
                  end
              | _, _ => mkOutcome (failure "Tab not found in source") workspace g
              end
          end
      end
  end.

(** *** updateTabGridSizes *)

Definition setSizes (rs cs : option (list Q)) (t : Tab) : Tab :=
  let d := data t in
  setData
    {| tab_id := tab_id d; tab_name := tab_name d; tab_type := tab_type d;
       command := command d; cwd := cwd d; rows := rows d; cols := cols d;
       rowSizes := match rs with Some _ => rs | None => rowSizes d end;
       colSizes := match cs with Some _ => cs | None => colSizes d end;
       order := order d; row := row d; col := col d;
       rowSpan := rowSpan d; colSpan := colSpan d;
       tab_createdAt := tab_createdAt d |}
    t.

Definition updateTabGridSizes (now : string) (workspace : Workspace)
    (worktreeId tabId : string) (rowSizes colSizes : option (list Q))
    (g : Gateway) : Outcome (Result unit) :=
  match findWorktree (worktrees workspace) worktreeId with
  | None => mkOutcome (failure "Worktree not found") workspace g
  | Some wi =>
      let wtabs := default [] (wt_tabs <$> worktrees workspace !! wi) in
      match findTab wtabs tabId with
      | None => mkOutcome (failure "Tab not found") workspace g
      | Some tab =>
          if decide (tab_type (data tab) ≠ group) then
            mkOutcome (failure "Tab is not a group") workspace g
          else
            let wtabs' := mutateTab wtabs tabId (setSizes rowSizes colSizes) in
            commit (success ()) now (setWorktreeTabs wi wtabs' workspace) g
      end
  end.

(** *** updateTerminalCwd *)

Definition setCwd (c : string) (t : Tab) : Tab :=
  let d := data t in
  setData
    {| tab_id := tab_id d; tab_name := tab_name d; tab_type := tab_type d;
       command := command d; cwd := Some c; rows := rows d; cols := cols d;
       rowSizes := rowSizes d; colSizes := colSizes d;
       order := order d; row := row d; col := col d;
       rowSpan := rowSpan d; colSpan := colSpan d;
       tab_createdAt := tab_createdAt d |}
    t.

Definition updateTerminalCwd (now : string) (workspace : Workspace)
    (worktreeId tabId cwd : string) (g : Gateway) : Outcome bool :=
  match findWorktree (worktrees workspace) worktreeId with
  | None => mkOutcome false workspace g
  | Some wi =>
      let wtabs := default [] (wt_tabs <$> worktrees workspace !! wi) in
      match findTab wtabs tabId with
      | None => mkOutcome false workspace g
      | Some tab =>
          if decide (tab_type (data tab) ≠ terminal) then mkOutcome false workspace g
          else
            let wtabs' := mutateTab wtabs tabId (setCwd cwd) in
            commit true now (setWorktreeTabs wi wtabs' workspace) g
      end
  end.

(** ** The five operations as one call *)

Inductive Operation : Type :=
| CreateTab (uuid createdNow : string) (input : CreateTabInput)
| DeleteTab (worktreeId tabId : string)
| ReorderTabs (worktreeId : string) (parentTabId : option string) (tabIds : list string)
| MoveTab (worktreeId tabId : string) (sourceParentTabId targetParentTabId : option string)
          (targetIndex : Z)
| UpdateTabGridSizes (worktreeId tabId : string) (rowSizes colSizes : option (list Q)).

Definition flagged {A : Type} (o : Outcome (Result A)) : Outcome bool :=
  mkOutcome (isSuccess (result o)) (workspace' o) (gateway' o).

(** The [success] flag an operation returns, with what it leaves behind. *)
Definition runOperation (now : string) (ws : Workspace) (op : Operation) (g : Gateway)
  : Outcome bool :=
  match op with
  | CreateTab uuid createdNow input => flagged (createTab uuid createdNow now ws input g)
  | DeleteTab wt tab => flagged (deleteTab now ws wt tab g)
  | ReorderTabs wt parent tabIds => flagged (reorderTabs now ws wt parent tabIds g)
  | MoveTab wt tab src tgt targetIndex => flagged (moveTab now ws wt tab src tgt targetIndex g)
  | UpdateTabGridSizes wt tab rs cs => flagged (updateTabGridSizes now ws wt tab rs cs g)
  end.

Definition Committed (now : string) (ws : Workspace) (g : Gateway) (o : Outcome bool) : Prop :=
  exists ws1, ws_id ws1 = ws_id ws /\ o = commit true now ws1 g.

(** ** Vocabulary of the statements *)

(** Every property but the position, and the array [tabs] by reference. *)
Definition erasePosition (t : Tab) : Tab := setPosition None None None t.

(** [t] as [recalculateTabPositions] leaves it at index [i] under [ncols]. *)
Definition placedAt (i : nat) (ncols : Z) (t : Tab) : Tab :=
  setPosition (Some (Int (Z.of_nat i))) (Some (floorDiv (Z.of_nat i) ncols))
              (Some (jsRem (Z.of_nat i) ncols)) t.

(** Two optional tabs that agree up to [order], [row] and [col]. *)
Definition SamePayloadO (o o' : option Tab) : Prop :=
  match o, o' with
  | Some q, Some q' => erasePosition q' = erasePosition q
  | None, None => True
  | _, _ => False
  end.

(** *** The ids of a forest *)

(** The children that the searches descend into. *)
Definition kids (t : Tab) : list Tab := default [] (groupTabs t).

(** The ids of the tabs that a search can reach, in the order in which
    [findTab] visits them. *)
Fixpoint idsIn (t : Tab) {struct t} : list string :=
  match t with
  | mkTab d ts =>
      tab_id d ::
      (if decide (tab_type d = group) then
         match ts with
         | Some sub => flat_map idsIn sub
         | None => []
         end
       else [])
  end.

Definition ids (l : list Tab) : list string := flat_map idsIn l.

(** *** Order values *)

(** Every tab of the list carries its index as [order]. *)
Definition IndexOrdered (l : list Tab) : Prop :=
  forall i t, l !! i = Some t -> order (data t) = Some (Int (Z.of_nat i)).

(** The [order] values of the list are [0], ..., [length l - 1], each once. *)
Definition ContiguousOrders (l : list Tab) : Prop :=
  (order ∘ data) <$> l ≡ₚ (fun i : nat => Some (Int (Z.of_nat i))) <$> seq 0 (length l).

(** *** Replacing one tab of a forest *)

(** [Replaced x p p' l l']: the forest [l'] is [l] with [p], the first tab
    with id [x] that [findTab] meets, replaced by [p']. *)
Inductive Replaced (x : string) (p p' : Tab) : list Tab -> list Tab -> Prop :=
| replaced_here rest :
    tab_id (data p) = x -> Replaced x p p' (p :: rest) (p' :: rest)
| replaced_later c l l' :
    findTabIn x c = None -> Replaced x p p' l l' -> Replaced x p p' (c :: l) (c :: l')
| replaced_below g sub sub' rest :
    tab_id (data g) <> x -> groupTabs g = Some sub -> Replaced x p p' sub sub' ->
    Replaced x p p' (g :: rest) (withTabs sub' g :: rest).

(** [Tracks x q q']: [q'] is what a tab [q] has become after the tab with id
    [x], another one, was replaced in the forest by a tab with the same
    scalar properties: [q] itself may have been repositioned, and its children
    are the same, or the same but for the replacement somewhere below. *)
Definition Tracks (x : string) (q q' : Tab) : Prop :=
  data (erasePosition q') = data (erasePosition q)
  /\ (tabs q' = tabs q
      \/ exists p p' sub sub',
           data p' = data p /\ tabs q = Some sub /\ tabs q' = Some sub'
           /\ Replaced x p p' sub sub').

Definition TracksO (x : string) (o o' : option Tab) : Prop :=
  match o, o' with
  | Some q, Some q' => Tracks x q q'
  | None, None => True
  | _, _ => False
  end.

(** *** The sibling lists after a move, the groups around a deletion *)

(** What the statements below say about the two sibling lists after a move
    that went through.  [sourceTabs] and [targetTabs] are the lists before,
    [k] the index of the moved tab [X] in [sourceTabs]. *)
Definition MovedTo (w4 : list Tab) (src tgt : Container)
    (sourceTabs targetTabs : list Tab) (sc tc : Z) (k : nat) (X : Tab) (idx : Z) : Prop :=
  if decide (src = tgt) then
    locate w4 tgt
    = Some (recalculateTabPositions (spliceIn (delete k sourceTabs) idx X) tc, tc)
  else
    exists src' tgt',
      locate w4 src = Some (src', sc)
      /\ locate w4 tgt = Some (tgt', tc)
      /\ data <$> src' = data <$> recalculateTabPositions (delete k sourceTabs) sc
      /\ data <$> tgt' = data <$> recalculateTabPositions (spliceIn targetTabs idx X) tc
      /\ tgt' !! spliceStart (length targetTabs) idx
         = Some (placedAt (spliceStart (length targetTabs) idx) tc X).

(** [SameButBelow x l l']: the list [l'] holds the tabs of [l] in their
    places, each the tab it was, but for a tab that has [x] below it, which
    kept its own properties. *)
Definition SameButBelow (x : string) (l l' : list Tab) : Prop :=
  length l' = length l
  /\ forall j c, l !! j = Some c ->
       exists c', l' !! j = Some c' /\ data c' = data c /\ (x ∉ idsIn c -> c' = c).

(** [Recalculated x G G']: the group [G], which encloses the tab with id [x],
    has become [G'] whose children went through [recalculateIfCols]: the
    siblings that remain when [G] was the immediate parent, else the children
    it had, in their places, the one that encloses [x] changed below. *)
Definition Recalculated (x : string) (G G' : Tab) : Prop :=
  data (erasePosition G') = data (erasePosition G)
  /\ recalculateIfCols (cols (data G)) (kids G') = kids G'
  /\ (forall i, findIndex (kids G) x = Some i ->
        kids G' = recalculateIfCols (cols (data G)) (delete i (kids G)))
  /\ (findIndex (kids G) x = None ->
      exists K, kids G' = recalculateIfCols (cols (data G)) K /\ SameButBelow x (kids G) K).

(** ** Small forests to run the operations on *)

Definition blankData (id : string) (type : TabType) : TabData :=
  {| tab_id := id; tab_name := id; tab_type := type;
     command := None; cwd := None; rows := None; cols := None;
     rowSizes := None; colSizes := None;
     order := None; row := None; col := None;
     rowSpan := None; colSpan := None; tab_createdAt := "2025-01-01T00:00:00.000Z" |}.

(** A terminal tab without position properties. *)
Definition leafTab (id : string) : Tab := mkTab (blankData id terminal) None.

(** A group tab with a [rows] x [ncols] grid and the given children. *)
Definition groupTab (id : string) (ncols : Z) (children : list Tab) : Tab :=
  let d := blankData id group in
  mkTab
    {| tab_id := tab_id d; tab_name := tab_name d; tab_type := tab_type d;
       command := command d; cwd := cwd d; rows := Some 2; cols := Some ncols;
       rowSizes := rowSizes d; colSizes := colSizes d;
       order := order d; row := row d; col := col d;
       rowSpan := rowSpan d; colSpan := colSpan d;
       tab_createdAt := tab_createdAt d |}
    (Some children).

Definition oneWorktree (wtabs : list Tab) : Workspace :=
  {| ws_id := "ws"; ws_name := "ws"; repoPath := "/repo"; ws_branch := "main";
     worktrees := [ {| wt_id := "wt"; wt_branch := "main"; wt_path := "/repo";
                       wt_tabs := wtabs; wt_createdAt := "2025-01-01T00:00:00.000Z" |} ];
     activeWorktreeId := None; activeTabId := None;
     ws_createdAt := "2025-01-01T00:00:00.000Z";
     updatedAt := "2025-01-01T00:00:00.000Z" |}.

(** A gateway whose stored configuration holds [ws] and that saw no write. *)
Definition gatewayWith (ws : Workspace) : Gateway :=
  {| stored := {| workspaces := [ws]; lastOpenedWorkspaceId := None;
                  activeWorkspaceId := None |};
     writes := []; readError := None; writeError := None |}.

(** The same gateway with a [write] that throws [e]. *)
Definition readOnlyGateway (ws : Workspace) (e : string) : Gateway :=
  {| stored := {| workspaces := [ws]; lastOpenedWorkspaceId := None;
                  activeWorkspaceId := None |};
     writes := []; readError := None; writeError := Some e |}.

(** The forest of the only worktree of a workspace built by [oneWorktree]. *)
Definition forestOf (ws : Workspace) : list Tab :=
  default [] (wt_tabs <$> worktrees ws !! 0%nat).

(** A gateway whose stored configuration has no entry for any workspace. *)
Definition emptyGateway : Gateway :=
  {| stored := {| workspaces := []; lastOpenedWorkspaceId := None;
                  activeWorkspaceId := None |};
     writes := []; readError := None; writeError := None |}.

Definition plainInput (name : string) : CreateTabInput :=
  {| in_workspaceId := "ws"; in_worktreeId := "wt"; in_parentTabId := None;
     in_name := name; in_type := None; in_command := None;
     in_rows := None; in_cols := None; in_row := None; in_col := None;
     in_rowSpan := None; in_colSpan := None |}.

(** The input of a [createTab] that places a terminal at a given cell of
    the group [parent]. *)
Definition placedInput (parent name : string) (r c : Z) : CreateTabInput :=
  {| in_workspaceId := "ws"; in_worktreeId := "wt"; in_parentTabId := Some parent;
     in_name := name; in_type := None; in_command := None;
     in_rows := None; in_cols := None; in_row := Some r; in_col := Some c;
     in_rowSpan := None; in_colSpan := None |}.

(** ** ScreenLayout: where a child of a group is drawn *)

(** [value || 0] on an optional position: [undefined], [0] and [NaN] are
    falsy. *)
Definition orZero (o : option number) : number :=
  match o with
  | Some (Int z) => Int z
  | Some Infinity => Infinity
  | Some NegInfinity => NegInfinity
  | Some NaN => Int 0
  | None => Int 0
  end.

(** [value + 1] *)
Definition plusOne (n : number) : number :=
  match n with
  | Int z => Int (z + 1)
  | Infinity => Infinity
  | NegInfinity => NegInfinity
  | NaN => NaN
  end.

(** The two numbers of [`${start} / span ${span}`]. *)
Record GridLine : Type := mkGridLine {
  lineStart : number;
  lineSpan : Z
}.

(** [gridRow: `${(tab.row || 0) + 1} / span ${tab.rowSpan || 1}`] *)
Definition gridRow (tab : Tab) : GridLine :=
  mkGridLine (plusOne (orZero (row (data tab)))) (orElse (rowSpan (data tab)) 1).

(** [gridColumn: `${(tab.col || 0) + 1} / span ${tab.colSpan || 1}`] *)
Definition gridColumn (tab : Tab) : GridLine :=
  mkGridLine (plusOne (orZero (col (data tab)))) (orElse (colSpan (data tab)) 1).

(** What [ScreenLayout] hands to [ResizableGrid] for a group tab: the row
    count [groupTab.rows || 2], the column count [groupTab.cols || 2] and the
    grid lines of each child in array order; [None] is the message
    "Invalid group tab structure" of the safety check. *)
Definition screenLayout (groupTab : Tab) : option (Z * Z * list (GridLine * GridLine)) :=
  match groupTabs groupTab with
  | Some children =>
      Some (orElse (rows (data groupTab)) 2, orElse (cols (data groupTab)) 2,
            (fun tab => (gridRow tab, gridColumn tab)) <$> children)
  | None => None
  end.

(** ** More vocabulary of the statements *)

(** The ids that lie below some tab of the list. *)
Definition nestedIds (l : list Tab) : list string :=
  flat_map (fun t => ids (kids t)) l.

(** Two optional tabs with the same properties, position included; their
    children may differ. *)
Definition SameDataO (o o' : option Tab) : Prop :=
  match o, o' with
  | Some q, Some q' => data q' = data q
  | None, None => True
  | _, _ => False
  end.

(** The [worktreeId] of an operation's input. *)
Definition operationWorktree (op : Operation) : string :=
  match op with
  | CreateTab _ _ input => in_worktreeId input
  | DeleteTab wt _ => wt
  | ReorderTabs wt _ _ => wt
  | MoveTab wt _ _ _ _ => wt
  | UpdateTabGridSizes wt _ _ _ => wt
  end.

(** The worktree [wt'] is [wt] but, when its id is [worktreeId], for its
    tabs. *)
Definition SameWorktreeBut (worktreeId : string) (wt wt' : Worktree) : Prop :=
  wt_id wt' = wt_id wt /\ wt_branch wt' = wt_branch wt /\ wt_path wt' = wt_path wt
  /\ wt_createdAt wt' = wt_createdAt wt
  /\ (wt_id wt <> worktreeId -> wt' = wt).

(** The workspace [ws'] is [ws] but for [updatedAt] and the tabs of the
    worktrees with id [worktreeId]. *)
Definition SameWorkspaceBut (worktreeId : string) (ws ws' : Workspace) : Prop :=
  ws_id ws' = ws_id ws /\ ws_name ws' = ws_name ws /\ repoPath ws' = repoPath ws
  /\ ws_branch ws' = ws_branch ws
  /\ activeWorktreeId ws' = activeWorktreeId ws /\ activeTabId ws' = activeTabId ws
  /\ ws_createdAt ws' = ws_createdAt ws
  /\ Forall2 (SameWorktreeBut worktreeId) (worktrees ws) (worktrees ws').

(** The gateway [g'] is [g] after one write that put [ws'] in the place of the
    first stored workspace with its id and kept the rest of the stored
    configuration. *)
Definition WroteEntry (ws' : Workspace) (g g' : Gateway) : Prop :=
  exists index,
    findWorkspaceIndex (workspaces (stored g)) (ws_id ws') = Some index
    /\ writes g' = writes g ++ [stored g']
    /\ lastOpenedWorkspaceId (stored g') = lastOpenedWorkspaceId (stored g)
    /\ activeWorkspaceId (stored g') = activeWorkspaceId (stored g)
    /\ length (workspaces (stored g')) = length (workspaces (stored g))
    /\ workspaces (stored g') !! index = Some ws'
    /\ (forall j, j <> index ->
          workspaces (stored g') !! j = workspaces (stored g) !! j).

(** [Number.isSafeInteger]: an integer that a double holds and tells from its
    neighbours. *)
Definition safeInteger (z : Z) : Prop := Z.abs z < 2 ^ 53.

(** [row * cols + col] is exact on doubles: the operands, the product and the
    sum are safe integers. *)
Definition exactOrder (row cols col : Z) : Prop :=
  safeInteger row /\ safeInteger cols /\ safeInteger col
  /\ safeInteger (row * cols) /\ safeInteger (row * cols + col).

(** A gateway neither call of which throws. *)
Definition Working (g : Gateway) : Prop :=
  readError g = None /\ writeError g = None.

(** The gateway as the save block leaves it. *)
Definition saved (ws : Workspace) (g : Gateway) : Gateway :=
  match save ws g with
  | returns g' => g'
  | throws _ => g
  end.

(** * Properties *)

(** ** Induction on forests *)

Lemma tab_children_ind (P : list Tab -> Prop) :
  P [] ->
  (forall t rest, (forall sub, tabs t = Some sub -> P sub) -> P rest -> P (t :: rest)) ->
  forall t, match tabs t with Some sub => P sub | None => True end.
Proof.
  intros Hnil Hcons. fix IHt 1. intros [d [sub|]]; simpl; [|exact I].
  induction sub as [|x r IHr]; [exact Hnil|].
  apply Hcons; [|exact IHr].
  intros s Hs. specialize (IHt x). rewrite Hs in IHt. exact IHt.
Qed.

Lemma forest_ind (P : list Tab -> Prop) :
  P [] ->
  (forall t rest, (forall sub, tabs t = Some sub -> P sub) -> P rest -> P (t :: rest)) ->
  forall l, P l.
Proof.
  intros Hnil Hcons l. induction l as [|t rest IH]; [exact Hnil|].
  apply Hcons; [|exact IH].
  intros sub Hs. pose proof (tab_children_ind P Hnil Hcons t) as H.
  rewrite Hs in H. exact H.
Qed.

(** ** recalculateTabPositions *)

Lemma setPosition_setPosition o r c o' r' c' t :
  setPosition o r c (setPosition o' r' c' t) = setPosition o r c t.
Proof. by destruct t as [[] ?]. Qed.

Lemma tabs_setPosition o r c t : tabs (setPosition o r c t) = tabs t.
Proof. by destruct t. Qed.

Lemma tab_id_setPosition o r c t : tab_id (data (setPosition o r c t)) = tab_id (data t).
Proof. by destruct t. Qed.

Lemma groupTabs_setPosition o r c t : groupTabs (setPosition o r c t) = groupTabs t.
Proof. by destruct t. Qed.

Lemma lookup_recalculate (l : list Tab) (ncols : Z) (i : nat) :
  recalculateTabPositions l ncols !! i = placedAt i ncols <$> l !! i.
Proof. unfold recalculateTabPositions. by rewrite list_lookup_imap. Qed.

Lemma length_recalculate (l : list Tab) (ncols : Z) :
  length (recalculateTabPositions l ncols) = length l.
Proof. apply length_imap. Qed.

Lemma recalculate_idempotent (l : list Tab) (ncols : Z) :
  recalculateTabPositions (recalculateTabPositions l ncols) ncols
  = recalculateTabPositions l ncols.
Proof.
  apply list_eq; intros i. rewrite !lookup_recalculate.
  destruct (l !! i) as [t|]; simpl; [|done].
  unfold placedAt. by rewrite setPosition_setPosition.
Qed.

Lemma erasePosition_recalculate (l : list Tab) (ncols : Z) :
  erasePosition <$> recalculateTabPositions l ncols = erasePosition <$> l.
Proof.
  apply list_eq; intros i. rewrite !list_lookup_fmap, lookup_recalculate.
  destruct (l !! i) as [t|]; simpl; [|done].
  unfold erasePosition, placedAt. by rewrite setPosition_setPosition.
Qed.

Lemma floorDiv_pos (i ncols : Z) : 0 < ncols -> floorDiv i ncols = Int (i `div` ncols).
Proof. intros H. unfold floorDiv. destruct (decide (ncols = 0)); [lia|done]. Qed.

Lemma jsRem_pos (i ncols : Z) : 0 <= i -> 0 < ncols -> jsRem i ncols = Int (i `mod` ncols).
Proof.
  intros Hi H. unfold jsRem. destruct (decide (ncols = 0)); [lia|].
  by rewrite Z.rem_mod_nonneg by lia.
Qed.

(** C8.  For every list of tabs and every column count, the tab at index
    [i] of [recalculateTabPositions tabs cols] is the tab at index [i] of
    [tabs] with [order = i], [row = Math.floor(i / cols)] and [col = i % cols]
    (for a positive count these are [i div cols] and [i mod cols]); no other
    property changes, the list keeps its length and the order of its tabs,
    and recalculating twice gives what recalculating once gives. *)
Theorem recalculateTabPositions_spec (tabs : list Tab) (ncols : Z) :
  (forall i tab, tabs !! i = Some tab ->
     exists tab', recalculateTabPositions tabs ncols !! i = Some tab'
       /\ order (data tab') = Some (Int (Z.of_nat i))
       /\ row (data tab') = Some (floorDiv (Z.of_nat i) ncols)
       /\ col (data tab') = Some (jsRem (Z.of_nat i) ncols)
       /\ (0 < ncols ->
             row (data tab') = Some (Int (Z.of_nat i `div` ncols))
             /\ col (data tab') = Some (Int (Z.of_nat i `mod` ncols)))
       /\ erasePosition tab' = erasePosition tab)
  /\ length (recalculateTabPositions tabs ncols) = length tabs
  /\ erasePosition <$> recalculateTabPositions tabs ncols = erasePosition <$> tabs
  /\ recalculateTabPositions (recalculateTabPositions tabs ncols) ncols
     = recalculateTabPositions tabs ncols.
Proof.
  split; [|split; [apply length_recalculate
                  |split; [apply erasePosition_recalculate|apply recalculate_idempotent]]].
  intros i tab Hi. exists (placedAt i ncols tab).
  rewrite lookup_recalculate, Hi. destruct tab as [[] ?]; simpl.
  repeat split; try done.
  - by rewrite floorDiv_pos.
  - by rewrite jsRem_pos by lia.
Qed.

Lemma recalculateTabPositions_spec_witness :
  let l := [leafTab "a"; leafTab "b"; leafTab "c"] in
  l !! 2%nat = Some (leafTab "c") /\ 0 < 2
  /\ exists tab', recalculateTabPositions l 2 !! 2%nat = Some tab'
       /\ row (data tab') = Some (Int 1) /\ col (data tab') = Some (Int 0).
Proof.
  intros l. split; [reflexivity|]. split; [lia|].
  destruct (recalculateTabPositions_spec l 2) as [H _].
  destruct (H 2%nat (leafTab "c") eq_refl) as (tab' & Hl & _ & _ & _ & Hpos & _).
  exists tab'. split; [exact Hl|]. apply Hpos. lia.
Defined.

(** ** Searching and replacing in a forest *)

Lemma findTabIn_unfold (x : string) (t : Tab) :
  findTabIn x t =
  if decide (tab_id (data t) = x) then Some t
  else match groupTabs t with Some sub => findTab sub x | None => None end.
Proof.
  destruct t as [d ts]; unfold groupTabs, findTab; simpl.
  destruct (decide (tab_id d = x)); [done|].
  by destruct (decide (tab_type d = group)), ts.
Qed.

Lemma findTab_cons (x : string) (t : Tab) (rest : list Tab) :
  findTab (t :: rest) x =
  match findTabIn x t with Some r => Some r | None => findTab rest x end.
Proof. done. Qed.

Lemma updateTabIn_unfold (x : string) (f : Tab -> Tab) (t : Tab) :
  updateTabIn x f t =
  if decide (tab_id (data t) = x) then Some (f t)
  else match groupTabs t with
       | Some sub => (fun sub' => withTabs sub' t) <$> updateTab sub x f
       | None => None
       end.
Proof.
  destruct t as [d ts]; unfold groupTabs, updateTab, withTabs; simpl.
  destruct (decide (tab_id d = x)); [done|].
  by destruct (decide (tab_type d = group)), ts.
Qed.

Lemma updateTab_cons (x : string) (f : Tab -> Tab) (t : Tab) (rest : list Tab) :
  updateTab (t :: rest) x f =
  match updateTabIn x f t with
  | Some t' => Some (t' :: rest)
  | None => cons t <$> updateTab rest x f
  end.
Proof. done. Qed.

Lemma findTab_id (l : list Tab) (x : string) (p : Tab) :
  findTab l x = Some p -> tab_id (data p) = x.
Proof.
  revert p. induction l as [|t rest IHsub IHrest] using forest_ind; intros p; [done|].
  rewrite findTab_cons, findTabIn_unfold.
  destruct (decide (tab_id (data t) = x)); [by intros [= <-]|].
  destruct (groupTabs t) as [sub|] eqn:Hg; [|by apply IHrest].
  assert (Hsub : tabs t = Some sub).
  { unfold groupTabs in Hg. by destruct (decide _). }
  destruct (findTab sub x) eqn:Hf; [intros [= <-]; eauto|by apply IHrest].
Qed.

Lemma groupTabs_tabs (t : Tab) (sub : list Tab) : groupTabs t = Some sub -> tabs t = Some sub.
Proof. unfold groupTabs. by destruct (decide _). Qed.

Lemma updateTab_None (l : list Tab) (x : string) (f : Tab -> Tab) :
  updateTab l x f = None <-> findTab l x = None.
Proof.
  induction l as [|t rest IHsub IHrest] using forest_ind; [done|].
  rewrite updateTab_cons, findTab_cons, updateTabIn_unfold, findTabIn_unfold.
  destruct (decide (tab_id (data t) = x)); [done|].
  destruct (groupTabs t) as [sub|] eqn:Hg.
  - apply groupTabs_tabs, IHsub in Hg.
    destruct (findTab sub x) as [q|].
    + destruct (updateTab sub x f); simpl; [done|].
      destruct Hg as [Hg _]. by specialize (Hg eq_refl).
    + rewrite (proj2 Hg eq_refl); simpl.
      rewrite <- IHrest. by destruct (updateTab rest x f).
  - rewrite <- IHrest. by destruct (updateTab rest x f).
Qed.

Lemma updateTab_Some (l : list Tab) (x : string) (f : Tab -> Tab) (l' : list Tab) :
  updateTab l x f = Some l' ->
  exists p, findTab l x = Some p /\ Replaced x p (f p) l l'.
Proof.
  revert l'. induction l as [|t rest IHsub IHrest] using forest_ind; intros l'; [done|].
  rewrite updateTab_cons, findTab_cons, updateTabIn_unfold, findTabIn_unfold.
  destruct (decide (tab_id (data t) = x)) as [Hid|Hid].
  { intros [= <-]. exists t. split; [done|]. by constructor. }
  destruct (groupTabs t) as [sub|] eqn:Hg.
  - pose proof (groupTabs_tabs _ _ Hg) as Hts.
    destruct (updateTab sub x f) as [sub'|] eqn:Hu; simpl.
    + intros [= <-]. destruct (IHsub sub Hts sub' Hu) as (p & Hp & Hr).
      exists p. rewrite Hp. split; [done|]. by apply replaced_below with sub.
    + apply updateTab_None in Hu. rewrite Hu.
      destruct (updateTab rest x f) as [rest'|] eqn:Hr; simpl; [|done].
      intros [= <-]. destruct (IHrest rest' eq_refl) as (p & Hp & Hrep).
      exists p. split; [done|]. apply replaced_later; [|done].
      rewrite findTabIn_unfold, Hg, Hu. by destruct (decide _).
  - destruct (updateTab rest x f) as [rest'|] eqn:Hr; simpl; [|done].
    intros [= <-]. destruct (IHrest rest' eq_refl) as (p & Hp & Hrep).
    exists p. split; [done|]. apply replaced_later; [|done].
    rewrite findTabIn_unfold, Hg. by destruct (decide _).
Qed.

Lemma findTab_updateTab (l : list Tab) (x : string) (f : Tab -> Tab) (p : Tab) :
  findTab l x = Some p ->
  exists l', updateTab l x f = Some l' /\ Replaced x p (f p) l l'.
Proof.
  intros Hp. destruct (updateTab l x f) as [l'|] eqn:Hu.
  - exists l'. split; [done|]. apply updateTab_Some in Hu as (q & Hq & Hr). congruence.
  - apply updateTab_None in Hu. congruence.
Qed.

Lemma mutateTab_found (l : list Tab) (x : string) (f : Tab -> Tab) (p : Tab) :
  findTab l x = Some p -> Replaced x p (f p) l (mutateTab l x f).
Proof.
  intros Hp. destruct (findTab_updateTab l x f p Hp) as (l' & Hu & Hr).
  unfold mutateTab. by rewrite Hu.
Qed.

(** ** Worktrees and the gateway *)

Lemma findWorktree_Some (l : list Worktree) (x : string) (wi : nat) :
  findWorktree l x = Some wi -> exists wt, l !! wi = Some wt /\ wt_id wt = x.
Proof.
  revert wi. induction l as [|wt rest IH]; intros wi; simpl; [done|].
  destruct (decide (wt_id wt = x)); [intros [= <-]; eauto|].
  destruct (findWorktree rest x) as [j|]; simpl; [|done].
  intros [= <-]. by apply IH.
Qed.

Lemma findWorkspaceIndex_Some (l : list Workspace) (x : string) (i : nat) :
  findWorkspaceIndex l x = Some i -> exists ws, l !! i = Some ws /\ ws_id ws = x.
Proof.
  revert i. induction l as [|ws rest IH]; intros i; simpl; [done|].
  destruct (decide (ws_id ws = x)); [intros [= <-]; eauto|].
  destruct (findWorkspaceIndex rest x) as [j|]; simpl; [|done].
  intros [= <-]. by apply IH.
Qed.

(** ** The save block and the end of an operation *)

Lemma commit_cases {R : Type} `{Caught R} (r : R) (now : string) (ws : Workspace) (g : Gateway) :
  (exists g', save (setUpdatedAt now ws) g = returns g'
              /\ commit r now ws g = mkOutcome r (setUpdatedAt now ws) g')
  \/ (exists e, save (setUpdatedAt now ws) g = throws e
                /\ commit r now ws g = mkOutcome (caught e) (setUpdatedAt now ws) g).
Proof.
  unfold commit. simpl. destruct (save (setUpdatedAt now ws) g) as [g'|e]; [left|right]; by eauto.
Qed.

Lemma save_Working (ws : Workspace) (g : Gateway) :
  Working g -> save ws g = returns (saved ws g).
Proof.
  intros [Hr Hw]. unfold saved, save, gw_read, gw_write. rewrite Hr, Hw.
  by destruct (findWorkspaceIndex _ _).
Qed.

Lemma commit_Working {R : Type} `{Caught R} (r : R) (now : string) (ws : Workspace)
    (g : Gateway) :
  Working g ->
  commit r now ws g = mkOutcome r (setUpdatedAt now ws) (saved (setUpdatedAt now ws) g).
Proof. intros Hg. unfold commit. simpl. by rewrite (save_Working _ _ Hg). Qed.

(** A [Result] is a success exactly when the save block did not throw. *)
Lemma commit_success {A : Type} (a b : A) (now : string) (ws : Workspace) (g : Gateway) :
  result (commit (success a) now ws g) = success b ->
  a = b /\ save (setUpdatedAt now ws) g = returns (gateway' (commit (success a) now ws g)).
Proof.
  unfold commit. simpl. destruct (save (setUpdatedAt now ws) g); [|done]. by intros [= ->].
Qed.

Lemma commit_true (now : string) (ws : Workspace) (g : Gateway) :
  result (commit true now ws g) = true ->
  save (setUpdatedAt now ws) g = returns (gateway' (commit true now ws g)).
Proof. unfold commit. simpl. by destruct (save (setUpdatedAt now ws) g). Qed.

Lemma Working_gatewayWith (ws : Workspace) : Working (gatewayWith ws).
Proof. done. Qed.

Lemma Working_saved (ws : Workspace) (g : Gateway) : Working g -> Working (saved ws g).
Proof.
  intros [Hr Hw]. unfold saved, save, gw_read, gw_write. rewrite Hr, Hw.
  by destruct (findWorkspaceIndex _ _).
Qed.

Lemma gateway'_commit_Working {R : Type} `{Caught R} (r : R) (now : string) (ws : Workspace)
    (g : Gateway) :
  Working g -> Working (gateway' (commit r now ws g)).
Proof. intros Hg. rewrite (commit_Working _ _ _ _ Hg). by apply Working_saved. Qed.

(** ** updateTerminalCwd *)

(** C10.  [updateTerminalCwd] returns [false] and leaves the workspace and the
    gateway as they were when the worktree id is absent, when the tab id is not
    found in the worktree's forest, and when the tab found is not a terminal.
    When it returns [true], the workspace differs by [updatedAt] and by the
    forest of the worktree addressed, where the one tab that [findTab] returns
    is replaced by itself with [cwd] set, and the save block went through.
    The only other way to [false] is a gateway that throws in the save block,
    after [cwd] and [updatedAt] were set. *)
Theorem updateTerminalCwd_spec (now : string) (ws : Workspace)
    (worktreeId tabId c : string) (g : Gateway) :
  let o := updateTerminalCwd now ws worktreeId tabId c g in
  (findWorktree (worktrees ws) worktreeId = None -> o = mkOutcome false ws g)
  /\ (forall wi wt, findWorktree (worktrees ws) worktreeId = Some wi ->
        worktrees ws !! wi = Some wt -> findTab (wt_tabs wt) tabId = None ->
        o = mkOutcome false ws g)
  /\ (forall wi wt tab, findWorktree (worktrees ws) worktreeId = Some wi ->
        worktrees ws !! wi = Some wt -> findTab (wt_tabs wt) tabId = Some tab ->
        tab_type (data tab) <> terminal ->
        o = mkOutcome false ws g)
  /\ (result o = true ->
        exists wi wt tab wtabs',
          findWorktree (worktrees ws) worktreeId = Some wi
          /\ worktrees ws !! wi = Some wt
          /\ findTab (wt_tabs wt) tabId = Some tab
          /\ tab_type (data tab) = terminal
          /\ Replaced tabId tab (setCwd c tab) (wt_tabs wt) wtabs'
          /\ workspace' o = setUpdatedAt now (setWorktreeTabs wi wtabs' ws)
          /\ save (workspace' o) g = returns (gateway' o))
  /\ (result o = false ->
        o = mkOutcome false ws g
        \/ exists e wi wt tab wtabs',
             findWorktree (worktrees ws) worktreeId = Some wi
             /\ worktrees ws !! wi = Some wt
             /\ findTab (wt_tabs wt) tabId = Some tab
             /\ tab_type (data tab) = terminal
             /\ Replaced tabId tab (setCwd c tab) (wt_tabs wt) wtabs'
             /\ workspace' o = setUpdatedAt now (setWorktreeTabs wi wtabs' ws)
             /\ save (workspace' o) g = throws e
             /\ gateway' o = g).
Proof.
  unfold updateTerminalCwd.
  destruct (findWorktree (worktrees ws) worktreeId) as [wi|] eqn:Hwt.
  2: { repeat split; try done. by left. }
  destruct (findWorktree_Some _ _ _ Hwt) as (wt & Hwi & _).
  rewrite Hwi; simpl.
  destruct (findTab (wt_tabs wt) tabId) as [tab|] eqn:Hf.
  2: { repeat split; try done. by left. }
  destruct (decide (tab_type (data tab) <> terminal)) as [Hty|Hty].
  { repeat split; try done. by left. }
  apply dec_stable in Hty.
  split; [done|]. split.
  { intros wi' wt' [= <-] Hw. rewrite Hwi in Hw. injection Hw as <-. congruence. }
  split.
  { intros wi' wt' tab' [= <-] Hw. rewrite Hwi in Hw. injection Hw as <-.
    rewrite Hf. intros [= <-]. done. }
  pose proof (mutateTab_found _ _ (setCwd c) _ Hf) as Hrep.
  split.
  - intros Hres.
    exists wi, wt, tab, (mutateTab (wt_tabs wt) tabId (setCwd c)).
    repeat (split; [done|]). by apply commit_true.
  - intros Hres. right.
    destruct (commit_cases true now
                (setWorktreeTabs wi (mutateTab (wt_tabs wt) tabId (setCwd c)) ws) g)
      as [(g' & _ & Ho)|(e & Hsave & Ho)]; rewrite Ho in Hres |- *; [done|].
    exists e, wi, wt, tab, (mutateTab (wt_tabs wt) tabId (setCwd c)).
    by repeat (split; [done|]).
Qed.

Lemma updateTerminalCwd_spec_witness :
  let ws := oneWorktree [groupTab "g" 2 [leafTab "t"]] in
  let o := updateTerminalCwd "now" ws "wt" "t" "/tmp" (gatewayWith ws) in
  result o = true
  /\ forestOf (workspace' o) = [groupTab "g" 2 [setCwd "/tmp" (leafTab "t")]]
  /\ updatedAt (workspace' o) = "now"
  /\ (result (updateTerminalCwd "now" ws "wt" "g" "/tmp" (gatewayWith ws)) = false
      /\ workspace' (updateTerminalCwd "now" ws "wt" "g" "/tmp" (gatewayWith ws)) = ws).
Proof.
  intros ws o.
  destruct (updateTerminalCwd_spec "now" ws "wt" "t" "/tmp" (gatewayWith ws))
    as (_ & _ & _ & Htrue & _).
  destruct (updateTerminalCwd_spec "now" ws "wt" "g" "/tmp" (gatewayWith ws))
    as (_ & _ & Hgroup & _).
  specialize (Htrue eq_refl) as (wi & wt & tab & wtabs' & _ & _ & _ & _ & _ & Hws & _).
  split; [reflexivity|]. split; [reflexivity|]. split; [reflexivity|].
  rewrite (Hgroup 0%nat _ (groupTab "g" 2 [leafTab "t"]) eq_refl eq_refl eq_refl
             ltac:(discriminate)).
  split; reflexivity.
Defined.

(** ** Success, [updatedAt] and the gateway *)

Lemma flagged_commit {A : Type} (a : A) now ws g :
  flagged (commit (success a) now ws g) = commit true now ws g.
Proof. unfold flagged, commit. simpl. by destruct (save (setUpdatedAt now ws) g). Qed.

Lemma committed_intro {A : Type} (a : A) now ws wi l g :
  Committed now ws g (flagged (commit (success a) now (setWorktreeTabs wi l ws) g)).
Proof. exists (setWorktreeTabs wi l ws). split; [done|]. apply flagged_commit. Qed.

Lemma runOperation_success (now : string) (ws : Workspace) (op : Operation) (g : Gateway) :
  result (runOperation now ws op g) = true -> Committed now ws g (runOperation now ws op g).
Proof.
  destruct op; simpl.
  - unfold createTab.
    destruct (findWorktree _ _); [|done].
    destruct (truthyId _); [|intros _; apply committed_intro].
    destruct (findTab _ _); [|done].
    destruct (isValidParentTab _); [|done]. intros _; apply committed_intro.
  - unfold deleteTab.
    destruct (findWorktree _ _); [|done].
    destruct (removeTabRecursive _ _); [|done]. intros _; apply committed_intro.
  - unfold reorderTabs.
    destruct (findWorktree _ _); [|done].
    destruct (locate _ _) as [[? ?]|]; [|done].
    destruct (decide _); [done|]. intros _; apply committed_intro.
  - unfold moveTab.
    destruct (findWorktree _ _); [|done].
    destruct (locate _ _) as [[? ?]|]; [|done].
    destruct (locate _ _) as [[? ?]|]; [|done].
    destruct (findIndex _ _); [|done].
    destruct (findById _ _); [|done].
    destruct (moveInForest _ _ _ _ _ _ _ _); [|done]. intros _; apply committed_intro.
  - unfold updateTabGridSizes.
    destruct (findWorktree _ _); [|done].
    destruct (findTab _ _); [|done].
    destruct (decide _); [done|]. intros _; apply committed_intro.
Qed.

(** C9, as amended.  Every operation that returns success has set
    [updatedAt] to the current time; it has written the stored configuration
    with this workspace's entry replaced by the mutated workspace when the
    stored configuration has an entry with the workspace's id, and has
    written nothing when it has none. *)
Theorem success_stamps_and_saves (now : string) (ws : Workspace) (op : Operation) (g : Gateway) :
  let o := runOperation now ws op g in
  result o = true ->
  updatedAt (workspace' o) = now
  /\ match findWorkspaceIndex (workspaces (stored g)) (ws_id ws) with
     | Some index =>
         exists config,
           writes (gateway' o) = writes g ++ [config]
           /\ stored (gateway' o) = config
           /\ workspaces config = <[index := workspace' o]> (workspaces (stored g))
           /\ workspaces config !! index = Some (workspace' o)
     | None => gateway' o = g
     end.
Proof.
  intros o Hok. destruct (runOperation_success now ws op g Hok) as (ws1 & Hid & Ho).
  fold o in Ho, Hok. rewrite Ho in Hok |- *. apply commit_true in Hok.
  change (workspace' (commit true now ws1 g)) with (setUpdatedAt now ws1).
  split; [done|]. revert Hok. generalize (gateway' (commit true now ws1 g)). intros g1.
  unfold save, gw_read; simpl. rewrite Hid.
  destruct (readError g); [done|].
  destruct (findWorkspaceIndex _ _) as [index|] eqn:Hix; [|by intros [= <-]].
  unfold gw_write. destruct (writeError g); [done|]. intros [= <-].
  eexists. simpl. repeat split.
  destruct (findWorkspaceIndex_Some _ _ _ Hix) as (w & Hw & _).
  apply list_lookup_insert_eq. by eapply lookup_lt_Some.
Qed.

Lemma success_stamps_and_saves_witness :
  let ws := oneWorktree [leafTab "a"; leafTab "b"] in
  let o := runOperation "now" ws (DeleteTab "wt" "a") (gatewayWith ws) in
  result o = true
  /\ updatedAt (workspace' o) = "now"
  /\ writes (gateway' o)
     = [ {| workspaces := [workspace' o]; lastOpenedWorkspaceId := None;
            activeWorkspaceId := None |} ].
Proof.
  intros ws o. split; [reflexivity|].
  destruct (success_stamps_and_saves "now" ws (DeleteTab "wt" "a") (gatewayWith ws) eq_refl)
    as [Hnow _].
  split; [exact Hnow|reflexivity].
Defined.

(** C9 as stated fails: [createTab] returns success without a write when the
    stored configuration has no workspace with the workspace's id. *)
Lemma success_without_write :
  ~ (forall now ws op g,
       result (runOperation now ws op g) = true ->
       exists config,
         writes (gateway' (runOperation now ws op g)) = writes g ++ [config]
         /\ workspace' (runOperation now ws op g) ∈ workspaces config).
Proof.
  intros H.
  destruct (H "now" (oneWorktree []) (CreateTab "id1" "now" (plainInput "t")) emptyGateway eq_refl)
    as (config & Hw & _).
  simpl in Hw. discriminate Hw.
Qed.

(** ** Failures and mutation *)

(** An operation that reached its save block and failed: the gateway threw,
    after the forest of the worktree was changed and the workspace stamped. *)
Lemma commit_failed {A : Type} (a : A) (now : string) (ws : Workspace) (wi : nat)
    (l : list Tab) (g : Gateway) (P : Prop) :
  let o := flagged (commit (success a) now (setWorktreeTabs wi l ws) g) in
  result o = false ->
  (Working g -> P)
  /\ exists e, save (workspace' o) g = throws e
               /\ workspace' o = setUpdatedAt now (setWorktreeTabs wi l ws)
               /\ gateway' o = g.
Proof.
  unfold flagged, commit. simpl.
  destruct (save _ g) as [g'|e] eqn:Hs; [done|]. intros _. split; [|by eauto].
  intros Hg. by rewrite (save_Working _ _ Hg) in Hs.
Qed.

(** X27.  When [createTab], [deleteTab], [reorderTabs] or
    [updateTabGridSizes] returns a failure, either a check failed and neither
    the workspace nor the gateway has changed, or the gateway threw in the
    save block: then the forest of the worktree was changed and the workspace
    stamped before, and the gateway is as it was.  With a gateway that does
    not throw, a failure has changed nothing. *)
Lemma failure_without_mutation (now : string) (ws : Workspace) (op : Operation) (g : Gateway) :
  (forall wt tab src tgt targetIndex, op <> MoveTab wt tab src tgt targetIndex) ->
  let o := runOperation now ws op g in
  result o = false ->
  (Working g -> workspace' o = ws /\ gateway' o = g)
  /\ ((workspace' o = ws /\ gateway' o = g)
      \/ exists e wi l,
           findWorktree (worktrees ws) (operationWorktree op) = Some wi
           /\ save (workspace' o) g = throws e
           /\ workspace' o = setUpdatedAt now (setWorktreeTabs wi l ws)
           /\ gateway' o = g).
Proof.
  assert (Hleaf : forall (A : Type) (a : A) wi l,
            let o := commit (success a) now (setWorktreeTabs wi l ws) g in
            isSuccess (result o) = false ->
            (Working g -> workspace' o = ws /\ gateway' o = g)
            /\ ((workspace' o = ws /\ gateway' o = g)
                \/ exists e wi0 l0,
                     Some wi = Some wi0
                     /\ save (workspace' o) g = throws e
                     /\ workspace' o = setUpdatedAt now (setWorktreeTabs wi0 l0 ws)
                     /\ gateway' o = g)).
  { intros A a wi l o Hf.
    destruct (commit_failed a now ws wi l g (workspace' o = ws /\ gateway' o = g) Hf)
      as [Hw (e & He)].
    split; [done|]. right. by exists e, wi, l. }
  intros Hop. destruct op; simpl.
  - unfold createTab.
    destruct (findWorktree _ _) eqn:Hwt; [|by intros; split; [|left]].
    destruct (truthyId _); [|by apply Hleaf].
    destruct (findTab _ _); [|by intros; split; [|left]].
    destruct (isValidParentTab _); [by apply Hleaf|by intros; split; [|left]].
  - unfold deleteTab.
    destruct (findWorktree _ _) eqn:Hwt; [|by intros; split; [|left]].
    destruct (removeTabRecursive _ _); [by apply Hleaf|by intros; split; [|left]].
  - unfold reorderTabs.
    destruct (findWorktree _ _) eqn:Hwt; [|by intros; split; [|left]].
    destruct (locate _ _) as [[? ?]|]; [|by intros; split; [|left]].
    destruct (decide _); [by intros; split; [|left]|by apply Hleaf].
  - by destruct (Hop worktreeId tabId sourceParentTabId targetParentTabId targetIndex).
  - unfold updateTabGridSizes.
    destruct (findWorktree _ _) eqn:Hwt; [|by intros; split; [|left]].
    destruct (findTab _ _); [|by intros; split; [|left]].
    destruct (decide _); [by intros; split; [|left]|by apply Hleaf].
Qed.

(** C2 fails on the code.  Moving the group [G] of the top-level list
    [[G; T]] into itself returns a failure after [G] was spliced out of the
    worktree and the rest recalculated: the workspace has lost [G], while
    [updatedAt] is unchanged and nothing was written. *)
Theorem moveTab_into_itself_fails_after_mutation :
  let ws := oneWorktree [groupTab "G" 2 []; leafTab "T"] in
  let o := moveTab "now" ws "wt" "G" None (Some "G"%string) 0 (gatewayWith ws) in
  result o = failure nullTabsError
  /\ forestOf ws = [groupTab "G" 2 []; leafTab "T"]
  /\ forestOf (workspace' o) = [placedAt 0 2 (leafTab "T")]
  /\ workspace' o <> ws
  /\ updatedAt (workspace' o) = updatedAt ws
  /\ writes (gateway' o) = [].
Proof. repeat split; try reflexivity. discriminate. Qed.

(** ** reorderTabs *)

(** C3 fails on the code.  With siblings [[A; B]], the list of ids
    [["A"; "A"]] drops [B] and names [A] twice; it resolves to two tabs, the
    count agrees, and [reorderTabs] returns success with [B] gone and [A]
    twice in the list. *)
Theorem reorderTabs_accepts_duplicate_for_dropped :
  let ws := oneWorktree [leafTab "A"; leafTab "B"] in
  let o := reorderTabs "now" ws "wt" None ["A"; "A"]%string (gatewayWith ws) in
  result o = success ()
  /\ forestOf (workspace' o) = [placedAt 0 2 (leafTab "A"); placedAt 1 2 (leafTab "A")]
  /\ length (writes (gateway' o)) = 1%nat.
Proof. repeat split; reflexivity. Qed.

(** What the count check does ensure: [reorderTabs] succeeds only when the
    container is valid and as many ids resolve to siblings as there are
    siblings, and then it does succeed unless the gateway throws. *)
Lemma reorderTabs_success_iff (now : string) (ws : Workspace) (worktreeId : string)
    (parentTabId : option string) (tabIds : list string) (g : Gateway) :
  let checked :=
    exists wi siblings ncols,
      findWorktree (worktrees ws) worktreeId = Some wi
      /\ locate (default [] (wt_tabs <$> worktrees ws !! wi)) (container parentTabId)
         = Some (siblings, ncols)
      /\ length (omap (findById siblings) tabIds) = length siblings in
  (isSuccess (result (reorderTabs now ws worktreeId parentTabId tabIds g)) = true -> checked)
  /\ (Working g -> checked ->
      isSuccess (result (reorderTabs now ws worktreeId parentTabId tabIds g)) = true).
Proof.
  unfold reorderTabs.
  destruct (findWorktree _ _) as [wi|]; [|split; [done|by intros _ (? & ? & ? & ? & _)]].
  destruct (locate _ _) as [[siblings ncols]|] eqn:Hloc.
  2: { split; [done|]. intros _ (? & ? & ? & [= <-] & Hl & _). congruence. }
  destruct (decide _) as [Hne|Heq]; simpl.
  - split; [done|]. intros _ (? & ? & ? & [= <-] & Hl & Hlen).
    rewrite Hloc in Hl. injection Hl as <- <-. done.
  - apply dec_stable in Heq. split; [intros _; by exists wi, siblings, ncols|].
    intros Hg _. by rewrite (save_Working _ _ Hg).
Qed.

(** ** The ids of a forest *)

Lemma idsIn_unfold (t : Tab) : idsIn t = tab_id (data t) :: ids (kids t).
Proof.
  destruct t as [d ts]; unfold kids, groupTabs, ids; simpl.
  by destruct (decide (tab_type d = group)), ts.
Qed.

Lemma ids_cons (t : Tab) (rest : list Tab) :
  ids (t :: rest) = (tab_id (data t) :: ids (kids t)) ++ ids rest.
Proof. unfold ids at 1; simpl. by rewrite idsIn_unfold. Qed.

Lemma ids_app (l1 l2 : list Tab) : ids (l1 ++ l2) = (ids l1 ++ ids l2)%list.
Proof. unfold ids. apply flat_map_app. Qed.

Lemma kids_groupTabs (t : Tab) (sub : list Tab) : groupTabs t = Some sub -> kids t = sub.
Proof. unfold kids. by intros ->. Qed.

Lemma kids_None (t : Tab) : groupTabs t = None -> kids t = [].
Proof. unfold kids. by intros ->. Qed.

Lemma findTabIn_kids (x : string) (t : Tab) :
  findTabIn x t =
  if decide (tab_id (data t) = x) then Some t else findTab (kids t) x.
Proof.
  rewrite findTabIn_unfold. destruct (decide _); [done|].
  unfold kids. by destruct (groupTabs t).
Qed.

Lemma findTab_None (l : list Tab) (x : string) : findTab l x = None <-> x ∉ ids l.
Proof.
  induction l as [|t rest IHsub IHrest] using forest_ind.
  { split; [intros _; apply not_elem_of_nil|done]. }
  rewrite findTab_cons, findTabIn_unfold, ids_cons.
  rewrite not_elem_of_app, not_elem_of_cons, <- IHrest.
  destruct (decide (tab_id (data t) = x)) as [Hid|Hid]; [naive_solver|].
  destruct (groupTabs t) as [sub|] eqn:Hg.
  - rewrite (kids_groupTabs _ _ Hg), <- (IHsub sub (groupTabs_tabs _ _ Hg)).
    destruct (findTab sub x); naive_solver.
  - rewrite (kids_None _ Hg). split; [|naive_solver].
    intros H. split; [|done]. split; [done|apply not_elem_of_nil].
Qed.

Lemma findTab_is_Some (l : list Tab) (x : string) : is_Some (findTab l x) <-> x ∈ ids l.
Proof.
  rewrite <- not_eq_None_Some, findTab_None.
  split; [apply dec_stable|naive_solver].
Qed.

Lemma findTab_app (l1 l2 : list Tab) (x : string) :
  findTab (l1 ++ l2) x =
  match findTab l1 x with Some r => Some r | None => findTab l2 x end.
Proof.
  induction l1 as [|t l1 IH]; [done|].
  rewrite <- app_comm_cons, !findTab_cons, IH. by destruct (findTabIn x t).
Qed.

Lemma idsIn_setPosition o r c t : idsIn (setPosition o r c t) = idsIn t.
Proof. by destruct t. Qed.

Lemma ids_imap (f : nat -> Tab -> Tab) (l : list Tab) :
  (forall i t, idsIn (f i t) = idsIn t) -> ids (imap f l) = ids l.
Proof.
  revert f. induction l as [|t l IH]; intros f Hf; [done|].
  rewrite imap_cons. unfold ids; simpl. rewrite Hf. f_equal.
  apply IH. intros i u. apply Hf.
Qed.

Lemma ids_recalculate (l : list Tab) (ncols : Z) : ids (recalculateTabPositions l ncols) = ids l.
Proof. apply ids_imap. intros i t. apply idsIn_setPosition. Qed.

Lemma ids_recalculateIfCols (c : option Z) (l : list Tab) : ids (recalculateIfCols c l) = ids l.
Proof. unfold recalculateIfCols. destruct (truthyNum c); [apply ids_recalculate|done]. Qed.

Lemma idsIn_withTabs (t : Tab) (sub sub' : list Tab) :
  groupTabs t = Some sub -> idsIn (withTabs sub' t) = tab_id (data t) :: ids sub'.
Proof.
  destruct t as [d ts]; unfold groupTabs, withTabs, ids; simpl.
  by destruct (decide (tab_type d = group)).
Qed.

Lemma groupTabs_withTabs (t : Tab) (sub sub' : list Tab) :
  groupTabs t = Some sub -> groupTabs (withTabs sub' t) = Some sub'.
Proof.
  destruct t as [d ts]; unfold groupTabs, withTabs; simpl.
  by destruct (decide (tab_type d = group)).
Qed.

(** ** findIndex *)

Lemma findIndex_Some (l : list Tab) (x : string) (i : nat) :
  findIndex l x = Some i ->
  exists t, l !! i = Some t /\ tab_id (data t) = x
            /\ l = take i l ++ t :: drop (S i) l.
Proof.
  revert i. induction l as [|t rest IH]; intros i; simpl; [done|].
  destruct (decide (tab_id (data t) = x)) as [Hid|Hid].
  - intros [= <-]. exists t. by rewrite drop_0.
  - destruct (findIndex rest x) as [j|]; simpl; [|done].
    intros [= <-]. destruct (IH j eq_refl) as (u & Hu & Hx & Hl).
    exists u. simpl. by rewrite <- Hl.
Qed.

Lemma findIndex_None (l : list Tab) (x : string) :
  findIndex l x = None <-> Forall (fun t => tab_id (data t) <> x) l.
Proof.
  induction l as [|t rest IH]; simpl; [by split; [constructor|]|].
  destruct (decide (tab_id (data t) = x)) as [Hid|Hid].
  - split; [done|]. intros H. by apply Forall_cons_1 in H as [? _].
  - destruct (findIndex rest x); simpl.
    + split; [done|]. intros H. apply Forall_cons_1 in H as [_ H]. by apply IH in H.
    + split; [|done]. intros _. constructor; [done|]. by apply IH.
Qed.

Lemma findById_Some (l : list Tab) (x : string) (i : nat) :
  findIndex l x = Some i -> findById l x = l !! i.
Proof. unfold findById. by intros ->. Qed.

(** ** removeTabRecursive *)

Lemma removeTabIn_unfold (x : string) (t : Tab) :
  removeTabIn x t =
  match groupTabs t with
  | Some sub =>
      (fun sub' => withTabs (recalculateIfCols (cols (data t)) sub') t)
        <$> removeTabRecursive sub x
  | None => None
  end.
Proof.
  destruct t as [d ts]; unfold groupTabs, removeTabRecursive, withTabs; simpl.
  destruct (decide (tab_type d = group)); [|done].
  destruct ts as [sub|]; [|done].
  by destruct (findIndex sub x); [|destruct (updateFirst _ _)].
Qed.

Lemma removeTabRecursive_cons (x : string) (t : Tab) (rest : list Tab) :
  removeTabRecursive (t :: rest) x =
  if decide (tab_id (data t) = x) then Some rest
  else match findIndex rest x with
       | Some i => Some (t :: delete i rest)
       | None =>
           match removeTabIn x t with
           | Some t' => Some (t' :: rest)
           | None => cons t <$> removeTabRecursive rest x
           end
       end.
Proof.
  unfold removeTabRecursive; simpl.
  destruct (decide (tab_id (data t) = x)); [done|].
  by destruct (findIndex rest x).
Qed.

Lemma findIndex_ids (l : list Tab) (x : string) (i : nat) :
  findIndex l x = Some i -> x ∈ ids l.
Proof.
  intros (t & _ & Hid & Hl)%findIndex_Some. rewrite Hl, ids_app, ids_cons.
  apply elem_of_app; right. rewrite <- Hid. apply list_elem_of_here.
Qed.

Lemma removeTabRecursive_None (l : list Tab) (x : string) :
  removeTabRecursive l x = None <-> x ∉ ids l.
Proof.
  induction l as [|t rest IHsub IHrest] using forest_ind.
  { split; [intros _; apply not_elem_of_nil|done]. }
  rewrite removeTabRecursive_cons, removeTabIn_unfold, ids_cons.
  rewrite not_elem_of_app, not_elem_of_cons, <- IHrest.
  destruct (decide (tab_id (data t) = x)) as [Hid|Hid]; [naive_solver|].
  destruct (findIndex rest x) as [i|] eqn:Hi.
  { apply findIndex_ids in Hi. split; [done|]. intros [_ H]. by apply IHrest in H. }
  destruct (groupTabs t) as [sub|] eqn:Hg.
  - rewrite (kids_groupTabs _ _ Hg), <- (IHsub sub (groupTabs_tabs _ _ Hg)).
    destruct (removeTabRecursive sub x); simpl; [naive_solver|].
    destruct (removeTabRecursive rest x); naive_solver.
  - rewrite (kids_None _ Hg).
    destruct (removeTabRecursive rest x); simpl; [naive_solver|].
    split; [|done]. intros _. split; [|done]. split; [done|apply not_elem_of_nil].
Qed.

Lemma lookup_findTab (l : list Tab) (i : nat) (t : Tab) :
  NoDup (ids l) -> l !! i = Some t -> findTab l (tab_id (data t)) = Some t.
Proof.
  revert i. induction l as [|u rest IH]; intros i Hnd Hi; [done|].
  rewrite findTab_cons, findTabIn_kids. rewrite ids_cons in Hnd.
  destruct i as [|i]; simpl in Hi.
  - injection Hi as ->. by destruct (decide _).
  - apply NoDup_app in Hnd as (_ & Hdisj & Hnd).
    assert (Hin : tab_id (data t) ∈ ids rest).
    { apply take_drop_middle in Hi. rewrite <- Hi, ids_app, ids_cons.
      apply elem_of_app; right. apply list_elem_of_here. }
    destruct (decide (tab_id (data u) = tab_id (data t))) as [Heq|Hne].
    { exfalso. apply (Hdisj (tab_id (data t))); [|done]. rewrite Heq. apply list_elem_of_here. }
    assert (Hk : findTab (kids u) (tab_id (data t)) = None).
    { apply findTab_None. intros Hk. apply (Hdisj (tab_id (data t))); [|done].
      by apply list_elem_of_further. }
    rewrite Hk. by apply IH with i.
Qed.

Lemma perm_pull {A : Type} (a b c : list A) : a ++ b ++ c ≡ₚ b ++ a ++ c.
Proof. by rewrite !app_assoc, (Permutation_app_comm a b). Qed.

(** The ids of a forest are those of the tab removed followed by those
    that remain, up to order. *)
Lemma removeTabRecursive_ids (l l' : list Tab) (x : string) (X : Tab) :
  NoDup (ids l) -> findTab l x = Some X -> removeTabRecursive l x = Some l' ->
  ids l ≡ₚ idsIn X ++ ids l'.
Proof.
  revert l'. induction l as [|t rest IHsub IHrest] using forest_ind; intros l' Hnd; [done|].
  rewrite findTab_cons, removeTabRecursive_cons, findTabIn_kids, removeTabIn_unfold.
  pose proof Hnd as Hnd0. rewrite ids_cons in Hnd.
  apply NoDup_app in Hnd as (Hndt & Hdisj & Hndr).
  destruct (decide (tab_id (data t) = x)) as [Hid|Hid].
  { intros [= <-] [= <-]. by rewrite ids_cons, idsIn_unfold. }
  destruct (findIndex rest x) as [i|] eqn:Hi.
  { destruct (findIndex_Some _ _ _ Hi) as (R & HR & HidR & Hsplit).
    assert (Hin : x ∈ ids rest) by by eapply findIndex_ids.
    assert (Hk : findTab (kids t) x = None).
    { apply findTab_None. intros Hk. apply (Hdisj x); [|done]. by apply list_elem_of_further. }
    rewrite Hk. intros Hf [= <-].
    rewrite <- HidR, (lookup_findTab rest i R Hndr HR) in Hf. injection Hf as <-.
    rewrite !ids_cons, delete_take_drop. rewrite Hsplit at 1.
    rewrite !ids_app, ids_cons, idsIn_unfold.
    rewrite (perm_pull (ids (take i rest))). apply perm_pull. }
  destruct (groupTabs t) as [sub|] eqn:Hg.
  2: { rewrite (kids_None _ Hg). simpl.
       destruct (removeTabRecursive rest x) as [rest'|] eqn:Hr; simpl; [|done].
       intros Hf [= <-]. change (ids (t :: rest)) with (idsIn t ++ ids rest).
       change (ids (t :: rest')) with (idsIn t ++ ids rest').
       rewrite (IHrest rest' Hndr Hf eq_refl). apply perm_pull. }
  rewrite (kids_groupTabs _ _ Hg). rewrite (kids_groupTabs _ _ Hg) in Hndt, Hdisj.
  pose proof (groupTabs_tabs _ _ Hg) as Hts.
  apply NoDup_cons in Hndt as [Hnt Hnds].
  destruct (removeTabRecursive sub x) as [sub'|] eqn:Hs; simpl.
  - assert (Hin : is_Some (findTab sub x)).
    { apply findTab_is_Some. apply dec_stable. intros Hn.
      apply removeTabRecursive_None in Hn. congruence. }
    destruct Hin as [Y HY]. rewrite HY. intros [= <-] [= <-].
    change (ids (t :: rest)) with (idsIn t ++ ids rest).
    change (ids (?u :: rest)) with (idsIn u ++ ids rest).
    rewrite (idsIn_withTabs _ _ _ Hg), idsIn_unfold, (kids_groupTabs _ _ Hg).
    rewrite ids_recalculateIfCols, (IHsub sub Hts sub' Hnds HY Hs).
    rewrite !app_comm_cons, <- app_assoc. apply (perm_pull [_]).
  - apply removeTabRecursive_None, findTab_None in Hs. rewrite Hs.
    destruct (removeTabRecursive rest x) as [rest'|] eqn:Hr; simpl; [|done].
    intros Hf [= <-]. change (ids (t :: rest)) with (idsIn t ++ ids rest).
    change (ids (t :: rest')) with (idsIn t ++ ids rest').
    rewrite (IHrest rest' Hndr Hf eq_refl). apply perm_pull.
Qed.

Lemma lookup_setWorktreeTabs (ws : Workspace) (wi : nat) (wt : Worktree) (l : list Tab) :
  worktrees ws !! wi = Some wt ->
  worktrees (setWorktreeTabs wi l ws) !! wi = Some (setTabs l wt).
Proof. intros H. simpl. by rewrite list_lookup_alter_eq, H. Qed.

(** ** deleteTab *)

(** C6.  In a worktree whose tab ids are distinct, [deleteTab] of a tab that
    [findTab] finds succeeds unless the gateway throws, and afterwards
    [findTab] on the worktree's forest returns nothing for the id of the
    deleted tab and for the id of every tab that was in its subtree. *)
Theorem deleteTab_cascades (now : string) (ws : Workspace) (worktreeId tabId : string)
    (g : Gateway) (wi : nat) (wt : Worktree) (X : Tab) :
  findWorktree (worktrees ws) worktreeId = Some wi ->
  worktrees ws !! wi = Some wt ->
  NoDup (ids (wt_tabs wt)) ->
  findTab (wt_tabs wt) tabId = Some X ->
  let o := deleteTab now ws worktreeId tabId g in
  (Working g -> result o = success ())
  /\ exists wt',
       worktrees (workspace' o) !! wi = Some wt'
       /\ forall y, y ∈ idsIn X -> findTab (wt_tabs wt') y = None.
Proof.
  intros Hwt Hwi Hnd Hf. unfold deleteTab. rewrite Hwt, Hwi; simpl.
  destruct (removeTabRecursive (wt_tabs wt) tabId) as [l'|] eqn:Hr.
  2: { apply removeTabRecursive_None, findTab_None in Hr. congruence. }
  simpl. split; [intros Hg; by rewrite (save_Working _ _ Hg)|].
  exists (setTabs l' wt). split; [by rewrite list_lookup_alter_eq, Hwi|].
  intros y Hy. simpl. apply findTab_None.
  pose proof (removeTabRecursive_ids _ _ _ _ Hnd Hf Hr) as Hperm.
  rewrite Hperm in Hnd. apply NoDup_app in Hnd as (_ & Hdisj & _). by apply Hdisj.
Qed.

Lemma deleteTab_cascades_witness :
  let inner := groupTab "h" 2 [leafTab "c"] in
  let G := groupTab "g" 2 [leafTab "a"; inner; leafTab "b"] in
  let ws := oneWorktree [leafTab "t"; G] in
  let o := deleteTab "now" ws "wt" "g" (gatewayWith ws) in
  result o = success ()
  /\ exists wt', worktrees (workspace' o) !! 0%nat = Some wt'
       /\ findTab (wt_tabs wt') "g" = None
       /\ findTab (wt_tabs wt') "c" = None.
Proof.
  intros inner G ws o.
  assert (Hnd : NoDup (ids [leafTab "t"; G])).
  { compute_done. }
  destruct (deleteTab_cascades "now" ws "wt" "g" (gatewayWith ws) 0%nat
              {| wt_id := "wt"; wt_branch := "main"; wt_path := "/repo";
                 wt_tabs := [leafTab "t"; G];
                 wt_createdAt := "2025-01-01T00:00:00.000Z" |} G
              eq_refl eq_refl Hnd eq_refl) as (Hok & wt' & Hwt' & Hgone).
  split; [exact (Hok (Working_gatewayWith ws))|]. exists wt'. split; [exact Hwt'|].
  split; apply Hgone; compute_done.
Defined.

(** ** Replacing one tab: what the rest of the forest keeps *)

Lemma Replaced_findTab (x : string) (p p' : Tab) (l l' : list Tab) :
  Replaced x p p' l l' -> findTab l x = Some p.
Proof.
  induction 1 as [rest Hid|c l l' Hc _ IH|g sub sub' rest Hid Hg _ IH].
  - rewrite findTab_cons, findTabIn_kids. by destruct (decide _).
  - by rewrite findTab_cons, Hc.
  - rewrite findTab_cons, findTabIn_kids, (kids_groupTabs _ _ Hg), IH.
    by destruct (decide _).
Qed.

Lemma data_withTabs (sub : list Tab) (t : Tab) : data (withTabs sub t) = data t.
Proof. done. Qed.

Lemma tabs_withTabs (sub : list Tab) (t : Tab) : tabs (withTabs sub t) = Some sub.
Proof. done. Qed.

Lemma kids_withTabs (t : Tab) (sub sub' : list Tab) :
  groupTabs t = Some sub -> kids (withTabs sub' t) = sub'.
Proof. intros H. unfold kids. by rewrite (groupTabs_withTabs _ _ _ H). Qed.

Lemma Replaced_findTab_new (x : string) (p p' : Tab) (l l' : list Tab) :
  Replaced x p p' l l' -> tab_id (data p') = x -> findTab l' x = Some p'.
Proof.
  intros H Hid'. induction H as [rest Hid|c l l' Hc _ IH|g sub sub' rest Hid Hg _ IH].
  - rewrite findTab_cons, findTabIn_kids. by destruct (decide _).
  - by rewrite findTab_cons, Hc.
  - rewrite findTab_cons, findTabIn_kids, data_withTabs, (kids_withTabs _ _ _ Hg), IH.
    by destruct (decide _).
Qed.

Lemma Replaced_ids (x : string) (p p' : Tab) (l l' : list Tab) :
  Replaced x p p' l l' ->
  exists pre post, ids l = pre ++ idsIn p ++ post /\ ids l' = pre ++ idsIn p' ++ post.
Proof.
  induction 1 as [rest Hid|c l l' Hc _ IH|g sub sub' rest Hid Hg _ IH].
  - by exists [], (ids rest).
  - destruct IH as (pre & post & H1 & H2).
    exists (idsIn c ++ pre), post.
    change (ids (c :: l)) with (idsIn c ++ ids l).
    change (ids (c :: l')) with (idsIn c ++ ids l').
    by rewrite H1, H2, <- !app_assoc.
  - destruct IH as (pre & post & H1 & H2).
    exists (tab_id (data g) :: pre), (post ++ ids rest).
    change (ids (g :: rest)) with (idsIn g ++ ids rest).
    change (ids (?u :: rest)) with (idsIn u ++ ids rest).
    rewrite (idsIn_withTabs _ _ _ Hg), idsIn_unfold, (kids_groupTabs _ _ Hg), H1, H2.
    by rewrite <- !app_comm_cons, <- !app_assoc.
Qed.

Lemma idsIn_head (t : Tab) : tab_id (data t) ∈ idsIn t.
Proof. rewrite idsIn_unfold. apply list_elem_of_here. Qed.

Lemma Replaced_id_in (x : string) (p p' : Tab) (l l' : list Tab) :
  Replaced x p p' l l' -> tab_id (data p) = x /\ x ∈ ids l.
Proof.
  intros H. assert (Hid : tab_id (data p) = x).
  { apply Replaced_findTab in H. by apply findTab_id in H. }
  split; [done|]. apply findTab_is_Some. rewrite (Replaced_findTab _ _ _ _ _ H). eauto.
Qed.

Lemma Replaced_map_data (x : string) (p p' : Tab) (l l' : list Tab) :
  Replaced x p p' l l' -> data p' = data p -> data <$> l' = data <$> l.
Proof.
  intros H Hd. induction H as [rest Hid|c l l' Hc _ IH|g sub sub' rest Hid Hg _ IH].
  - by rewrite !fmap_cons, Hd.
  - by rewrite !fmap_cons, IH.
  - by rewrite !fmap_cons.
Qed.

Lemma Replaced_length (x : string) (p p' : Tab) (l l' : list Tab) :
  Replaced x p p' l l' -> length l' = length l.
Proof.
  induction 1 as [rest Hid|c l l' Hc _ IH|g sub sub' rest Hid Hg _ IH]; simpl; congruence.
Qed.

Lemma Replaced_lookup_same (x : string) (p p' : Tab) (l l' : list Tab) (i : nat) (c : Tab) :
  Replaced x p p' l l' -> l !! i = Some c -> x ∉ idsIn c -> l' !! i = Some c.
Proof.
  intros H. revert i.
  induction H as [rest Hid|u l l' Hu _ IH|g sub sub' rest Hid Hg Hsub IH]; intros [|i]; simpl;
    try done.
  - intros [= <-] Hx. destruct Hx. rewrite <- Hid. apply idsIn_head.
  - apply IH.
  - intros [= <-] Hx. destruct Hx.
    rewrite idsIn_unfold, (kids_groupTabs _ _ Hg).
    apply list_elem_of_further. by apply Replaced_id_in in Hsub as [_ ?].
Qed.

Lemma findTabIn_None (y : string) (c : Tab) : findTabIn y c = None <-> y ∉ idsIn c.
Proof.
  rewrite findTabIn_kids, idsIn_unfold, not_elem_of_cons, <- findTab_None.
  destruct (decide (tab_id (data c) = y)); naive_solver.
Qed.

Lemma Tracks_refl (x : string) (q : Tab) : Tracks x q q.
Proof. split; [done|by left]. Qed.

Lemma TracksO_refl (x : string) (o : option Tab) : TracksO x o o.
Proof. destruct o; simpl; [apply Tracks_refl|done]. Qed.

Lemma Tracks_erasePosition (x : string) (q q' : Tab) :
  erasePosition q' = erasePosition q -> Tracks x q q'.
Proof.
  intros H. split; [by rewrite H|]. left.
  apply (f_equal tabs) in H. unfold erasePosition in H. by rewrite !tabs_setPosition in H.
Qed.

Lemma Replaced_inside (x y : string) (p p' : Tab) (l l' : list Tab) :
  Replaced x p p' l l' -> NoDup (ids l) -> tab_id (data p') = x -> y <> x ->
  y ∈ idsIn p ->
  findTab l y = findTab (kids p) y /\ findTab l' y = findTab (kids p') y.
Proof.
  intros H Hnd Hid' Hne Hin.
  induction H as [rest Hid|c l l' Hc Hrep IH|g sub sub' rest Hid Hg Hrep IH].
  - change (ids (p :: rest)) with (idsIn p ++ ids rest) in Hnd.
    apply NoDup_app in Hnd as (_ & Hdisj & _).
    assert (Hr : findTab rest y = None) by (apply findTab_None; auto).
    rewrite !findTab_cons, !findTabIn_kids, Hr, Hid, Hid'.
    destruct (decide (x = y)); [congruence|].
    by destruct (findTab (kids p) y), (findTab (kids p') y).
  - change (ids (c :: l)) with (idsIn c ++ ids l) in Hnd.
    apply NoDup_app in Hnd as (_ & Hdisj & Hnd).
    assert (Hy : y ∈ ids l).
    { destruct (Replaced_ids _ _ _ _ _ Hrep) as (pre & post & -> & _).
      rewrite !elem_of_app; auto. }
    assert (Hcy : findTabIn y c = None).
    { apply findTabIn_None. intros Hcy. by apply (Hdisj y). }
    rewrite !findTab_cons, Hcy. by apply IH.
  - change (ids (g :: rest)) with (idsIn g ++ ids rest) in Hnd.
    rewrite idsIn_unfold, (kids_groupTabs _ _ Hg) in Hnd.
    apply NoDup_app in Hnd as (Hndg & Hdisj & _).
    apply NoDup_cons in Hndg as (Hg1 & Hnds).
    assert (Hy : y ∈ ids sub).
    { destruct (Replaced_ids _ _ _ _ _ Hrep) as (pre & post & -> & _).
      rewrite !elem_of_app; auto. }
    assert (Hr : findTab rest y = None).
    { apply findTab_None. apply Hdisj. by apply list_elem_of_further. }
    destruct (IH Hnds) as [IH1 IH2].
    rewrite !findTab_cons, !findTabIn_kids, data_withTabs, (kids_groupTabs _ _ Hg),
      (kids_withTabs _ _ _ Hg), Hr, IH1, IH2.
    destruct (decide (tab_id (data g) = y)) as [Heq|_].
    { destruct Hg1. by rewrite Heq. }
    by destruct (findTab (kids p) y), (findTab (kids p') y).
Qed.

Lemma Replaced_outside (x y : string) (p p' : Tab) (l l' : list Tab) :
  Replaced x p p' l l' -> data p' = data p -> y ∉ idsIn p -> y ∉ idsIn p' ->
  TracksO x (findTab l y) (findTab l' y).
Proof.
  intros H Hd Hp Hp'.
  induction H as [rest Hid|c l l' Hc Hrep IH|g sub sub' rest Hid Hg Hrep IH].
  - apply findTabIn_None in Hp, Hp'. rewrite !findTab_cons, Hp, Hp'. apply TracksO_refl.
  - rewrite !findTab_cons. destruct (findTabIn y c); [apply Tracks_refl|apply IH].
  - rewrite !findTab_cons, !findTabIn_kids, data_withTabs, (kids_groupTabs _ _ Hg),
      (kids_withTabs _ _ _ Hg).
    destruct (decide (tab_id (data g) = y)) as [Heq|Hne].
    + split; [by destruct g as [[] ?]|]. right.
      exists p, p', sub, sub'. repeat split; try done. by apply groupTabs_tabs.
    + destruct (findTab sub y), (findTab sub' y); simpl in *; try done.
      apply TracksO_refl.
Qed.

Lemma Replaced_tracks (x y : string) (p p' : Tab) (l l' : list Tab) :
  Replaced x p p' l l' -> NoDup (ids l) -> data p' = data p -> y <> x ->
  (y ∈ idsIn p -> TracksO x (findTab (kids p) y) (findTab (kids p') y)) ->
  (y ∉ idsIn p -> y ∉ idsIn p') ->
  TracksO x (findTab l y) (findTab l' y).
Proof.
  intros H Hnd Hd Hne Hin Hout.
  assert (Hid' : tab_id (data p') = x).
  { rewrite Hd. by destruct (Replaced_id_in _ _ _ _ _ H). }
  destruct (decide (y ∈ idsIn p)) as [Hy|Hy].
  - destruct (Replaced_inside x y p p' l l' H Hnd Hid' Hne Hy) as [-> ->]. auto.
  - apply (Replaced_outside x y p p'); auto.
Qed.

(** *** What [Tracks] keeps *)

Lemma Tracks_fields (x : string) (q q' : Tab) :
  Tracks x q q' ->
  tab_id (data q') = tab_id (data q)
  /\ tab_type (data q') = tab_type (data q)
  /\ cols (data q') = cols (data q).
Proof.
  intros [H _]. destruct q as [[] ?], q' as [[] ?]; simpl in H.
  by injection H as -> -> -> -> -> -> -> -> -> -> -> ->.
Qed.

Lemma Tracks_map_data (x : string) (q q' : Tab) :
  Tracks x q q' -> fmap (M:=list) data <$> tabs q' = fmap (M:=list) data <$> tabs q.
Proof.
  intros [_ [->|(p & p' & sub & sub' & Hd & -> & -> & Hr)]]; [done|].
  simpl. f_equal. by eapply Replaced_map_data.
Qed.

Lemma Tracks_tabs_None (x : string) (q q' : Tab) :
  Tracks x q q' -> tabs q = None -> tabs q' = None.
Proof.
  intros [_ [->|(p & p' & sub & sub' & Hd & Hs & _)]]; [done|congruence].
Qed.

Lemma Tracks_lookup (x : string) (q q' : Tab) (i : nat) (c : Tab) :
  Tracks x q q' -> tabsOrEmpty q !! i = Some c -> x ∉ idsIn c ->
  tabsOrEmpty q' !! i = Some c.
Proof.
  unfold tabsOrEmpty.
  intros [_ [->|(p & p' & sub & sub' & Hd & -> & -> & Hr)]]; [done|].
  simpl. by eapply Replaced_lookup_same.
Qed.

(** ** Searching after a splice or a recalculation *)

Lemma findTab_delete (l : list Tab) (k : nat) (X : Tab) (y : string) :
  l !! k = Some X -> y ∉ idsIn X -> findTab (delete k l) y = findTab l y.
Proof.
  intros Hk Hy. rewrite delete_take_drop.
  rewrite <- (take_drop_middle l k X Hk) at 3.
  rewrite !findTab_app, findTab_cons.
  apply findTabIn_None in Hy. by rewrite Hy.
Qed.

Lemma ids_delete (l : list Tab) (k : nat) (X : Tab) :
  l !! k = Some X -> ids l ≡ₚ idsIn X ++ ids (delete k l).
Proof.
  intros Hk. rewrite delete_take_drop.
  rewrite <- (take_drop_middle l k X Hk) at 1.
  rewrite !ids_app. change (ids (X :: ?r)) with (idsIn X ++ ids r). apply perm_pull.
Qed.

Lemma spliceStart_le (len : nat) (start : Z) : (spliceStart len start <= len)%nat.
Proof. unfold spliceStart. destruct (decide _); lia. Qed.

Lemma ids_spliceIn (l : list Tab) (idx : Z) (X : Tab) :
  ids (spliceIn l idx X) ≡ₚ idsIn X ++ ids l.
Proof.
  unfold spliceIn. set (k := spliceStart (length l) idx).
  rewrite <- (take_drop k l) at 3.
  rewrite !ids_app. change (ids (X :: ?r)) with (idsIn X ++ ids r). apply perm_pull.
Qed.

Lemma findTab_spliceIn (l : list Tab) (idx : Z) (X : Tab) (y : string) :
  y ∉ idsIn X -> findTab (spliceIn l idx X) y = findTab l y.
Proof.
  intros Hy. unfold spliceIn. set (k := spliceStart (length l) idx).
  rewrite <- (take_drop k l) at 3.
  rewrite !findTab_app, findTab_cons.
  apply findTabIn_None in Hy. by rewrite Hy.
Qed.

Lemma lookup_spliceIn (l : list Tab) (idx : Z) (X : Tab) :
  spliceIn l idx X !! spliceStart (length l) idx = Some X.
Proof.
  unfold spliceIn. apply list_lookup_middle.
  rewrite length_take. pose proof (spliceStart_le (length l) idx). lia.
Qed.

Lemma length_spliceIn (l : list Tab) (idx : Z) (X : Tab) :
  length (spliceIn l idx X) = S (length l).
Proof.
  unfold spliceIn. rewrite length_app. simpl. rewrite length_take, length_drop.
  pose proof (spliceStart_le (length l) idx). lia.
Qed.

Lemma fmap_data_length (l1 l2 : list Tab) :
  data <$> l1 = data <$> l2 -> length l1 = length l2.
Proof. intros H. apply (f_equal length) in H. by rewrite !length_fmap in H. Qed.

Lemma fmap_data_spliceIn (l1 l2 : list Tab) (idx : Z) (X : Tab) :
  data <$> l1 = data <$> l2 -> data <$> spliceIn l1 idx X = data <$> spliceIn l2 idx X.
Proof.
  intros H. unfold spliceIn. rewrite (fmap_data_length _ _ H).
  by rewrite !fmap_app, !fmap_cons, !fmap_take, !fmap_drop, H.
Qed.

Lemma data_placedAt (i : nat) (ncols : Z) (t u : Tab) :
  data t = data u -> data (placedAt i ncols t) = data (placedAt i ncols u).
Proof. intros H. unfold placedAt, setPosition. simpl. by rewrite H. Qed.

Lemma fmap_data_recalculate (l1 l2 : list Tab) (ncols : Z) :
  data <$> l1 = data <$> l2 ->
  data <$> recalculateTabPositions l1 ncols = data <$> recalculateTabPositions l2 ncols.
Proof.
  intros H. apply list_eq; intros i.
  rewrite !list_lookup_fmap, !lookup_recalculate.
  apply (f_equal (fun l => l !! i)) in H. rewrite !list_lookup_fmap in H.
  destruct (l1 !! i), (l2 !! i); simpl in *; try done.
  f_equal. apply data_placedAt. congruence.
Qed.

Lemma erasePosition_placedAt (i : nat) (ncols : Z) (t : Tab) :
  erasePosition (placedAt i ncols t) = erasePosition t.
Proof. unfold erasePosition, placedAt. apply setPosition_setPosition. Qed.

Lemma findTab_imap_payload (f : nat -> Tab -> Tab) (l : list Tab) (y : string) :
  (forall i t, erasePosition (f i t) = erasePosition t) ->
  SamePayloadO (findTab l y) (findTab (imap f l) y).
Proof.
  revert f. induction l as [|t l IH]; intros f Hf; [done|].
  rewrite imap_cons, !findTab_cons, !findTabIn_kids.
  pose proof (Hf 0%nat t) as Ht.
  assert (Hid : tab_id (data (f 0%nat t)) = tab_id (data t)).
  { apply (f_equal (fun u => tab_id (data u))) in Ht.
    unfold erasePosition in Ht. by rewrite !tab_id_setPosition in Ht. }
  assert (Hk : kids (f 0%nat t) = kids t).
  { apply (f_equal kids) in Ht. unfold erasePosition, kids in Ht.
    by rewrite !groupTabs_setPosition in Ht. }
  rewrite Hid, Hk.
  destruct (decide (tab_id (data t) = y)); [done|].
  destruct (findTab (kids t) y); [done|].
  apply IH. intros i u. apply Hf.
Qed.

Lemma findTab_recalculate (l : list Tab) (ncols : Z) (x y : string) :
  TracksO x (findTab l y) (findTab (recalculateTabPositions l ncols) y).
Proof.
  pose proof (findTab_imap_payload
                (fun i t => placedAt i ncols t) l y
                (fun i t => erasePosition_placedAt i ncols t)) as H.
  change (recalculateTabPositions l ncols) with (imap (fun i t => placedAt i ncols t) l).
  destruct (findTab l y), (findTab (imap _ l) y); simpl in *; try done.
  by apply Tracks_erasePosition.
Qed.

Lemma locate_InGroup (w : list Tab) (s : string) (L : list Tab) (c : Z) :
  locate w (InGroup s) = Some (L, c) <->
  exists S, findTab w s = Some S /\ tab_type (data S) = group
            /\ L = tabsOrEmpty S /\ c = orElse (cols (data S)) 2.
Proof.
  unfold locate, isValidParentTab.
  destruct (findTab w s) as [S|]; simpl.
  - destruct (bool_decide_reflect (tab_type (data S) = group)) as [Hg|Hg]; simpl.
    + split; [intros [= <- <-]; eauto|]. by intros (S' & [= <-] & _ & -> & ->).
    + split; [done|]. by intros (S' & [= <-] & ? & _).
  - split; [done|]. by intros (S' & ? & _).
Qed.

(** ** moveTab *)

Lemma findTab_mutateTab (l : list Tab) (x : string) (f : Tab -> Tab) (p : Tab) :
  findTab l x = Some p -> tab_id (data (f p)) = x ->
  findTab (mutateTab l x f) x = Some (f p).
Proof.
  intros Hp Hid. apply (Replaced_findTab_new x p (f p) l); [|done].
  by apply mutateTab_found.
Qed.

Lemma updateTab_found (l : list Tab) (x : string) (f : Tab -> Tab) (p : Tab) :
  findTab l x = Some p -> tab_id (data (f p)) = x ->
  exists l', updateTab l x f = Some l' /\ findTab l' x = Some (f p)
             /\ Replaced x p (f p) l l'.
Proof.
  intros Hp Hid. destruct (findTab_updateTab l x f p Hp) as (l' & Hu & Hr).
  exists l'. repeat split; try done. by apply (Replaced_findTab_new x p (f p) l).
Qed.

Lemma findTab_ids_split (l : list Tab) (x : string) (p : Tab) :
  findTab l x = Some p -> exists pre post, ids l = pre ++ idsIn p ++ post.
Proof.
  intros Hp. pose proof (mutateTab_found l x (fun t => t) p Hp) as Hr.
  destruct (Replaced_ids _ _ _ _ _ Hr) as (pre & post & H & _). eauto.
Qed.

Lemma findTab_NoDup (l : list Tab) (x : string) (p : Tab) :
  NoDup (ids l) -> findTab l x = Some p -> NoDup (idsIn p).
Proof.
  intros Hnd (pre & post & H)%findTab_ids_split. rewrite H in Hnd.
  apply NoDup_app in Hnd as (_ & _ & Hnd). by apply NoDup_app in Hnd as (Hnd & _).
Qed.

Lemma lookup_ids (l : list Tab) (k : nat) (X : Tab) (y : string) :
  l !! k = Some X -> y ∈ idsIn X -> y ∈ ids l.
Proof.
  intros Hk Hy. rewrite <- (take_drop_middle l k X Hk), ids_app.
  change (ids (X :: ?r)) with (idsIn X ++ ids r). rewrite !elem_of_app. auto.
Qed.

(** The source of a move that found its tab is a group with an array. *)
Lemma source_group (S : Tab) (x : string) (k : nat) :
  tab_type (data S) = group -> findIndex (tabsOrEmpty S) x = Some k ->
  tabs S = Some (tabsOrEmpty S) /\ groupTabs S = Some (tabsOrEmpty S).
Proof.
  intros Hg Hk. unfold groupTabs, tabsOrEmpty in *.
  destruct (tabs S) as [l|]; [|done]. simpl. by destruct (decide _).
Qed.

Lemma group_groupTabs (T : Tab) :
  tab_type (data T) = group -> groupTabs T = tabs T.
Proof. intros Hg. unfold groupTabs. by destruct (decide _). Qed.

Lemma group_kids (T : Tab) : tab_type (data T) = group -> kids T = tabsOrEmpty T.
Proof. intros Hg. unfold kids, tabsOrEmpty. by rewrite group_groupTabs. Qed.

Lemma moveInForest_top_top (w0 : list Tab) (k : nat) (X : Tab) (idx : Z) (w4 : list Tab) :
  moveInForest w0 TopLevel TopLevel k X idx 2 2 = moved w4 ->
  MovedTo w4 TopLevel TopLevel w0 w0 2 2 k X idx.
Proof.
  unfold moveInForest, MovedTo. simpl. by intros [= <-].
Qed.

Lemma moveInForest_same_group (w0 : list Tab) (s x : string) (S : Tab)
    (k : nat) (X : Tab) (idx : Z) (w4 : list Tab) :
  findTab w0 s = Some S -> tab_type (data S) = group ->
  findIndex (tabsOrEmpty S) x = Some k ->
  let c := orElse (cols (data S)) 2 in
  moveInForest w0 (InGroup s) (InGroup s) k X idx c c = moved w4 ->
  MovedTo w4 (InGroup s) (InGroup s) (tabsOrEmpty S) (tabsOrEmpty S) c c k X idx.
Proof.
  intros HS Hg Hk c. unfold moveInForest, MovedTo.
  destruct (decide (InGroup s = InGroup s)) as [_|]; [|done].
  pose proof (findTab_id _ _ _ HS) as Hid.
  destruct (source_group S x k Hg Hk) as [Hts _].
  set (f1 := fun p => withTabs (delete k (tabsOrEmpty p)) p).
  set (f2 := fun p => match tabs p with
                      | Some l => withTabs (spliceIn l idx X) p
                      | None => p end).
  set (f3 := fun p => withTabs (recalculateTabPositions (tabsOrEmpty p) c) p).
  pose proof (findTab_mutateTab w0 s f1 S HS Hid) as H1.
  set (w1 := mutateTab w0 s f1) in *.
  pose proof (findTab_mutateTab w1 s f2 (f1 S) H1 Hid) as H2.
  set (w2 := mutateTab w1 s f2) in *.
  destruct (updateTab_found w2 s f3 _ H2 Hid) as (w3 & Hu3 & H3 & _).
  rewrite Hu3, H2. simpl.
  set (f4 := fun p => withTabs _ p).
  destruct (updateTab_found w3 s f4 _ H3 Hid) as (w4' & Hu4 & H4 & _).
  rewrite Hu4. intros [= <-].
  apply locate_InGroup. eexists. split; [exact H4|]. by repeat split.
Qed.

Lemma Tracks_tabsOrEmpty_data (x : string) (q q' : Tab) :
  Tracks x q q' -> data <$> tabsOrEmpty q' = data <$> tabsOrEmpty q.
Proof.
  intros H%Tracks_map_data. unfold tabsOrEmpty.
  destruct (tabs q), (tabs q'); simpl in *; congruence.
Qed.

Lemma Tracks_locate (x s : string) (q q' : Tab) (w : list Tab) :
  Tracks x q q' -> tab_type (data q) = group -> findTab w s = Some q' ->
  locate w (InGroup s) = Some (tabsOrEmpty q', orElse (cols (data q)) 2).
Proof.
  intros (_ & Ht & Hc)%Tracks_fields Hg Hf. apply locate_InGroup.
  exists q'. repeat split; [done|congruence|by rewrite Hc].
Qed.

(** The tab moved lies below its source, whose id therefore is not in it. *)
Lemma source_not_in_moved (w0 : list Tab) (s : string) (S : Tab) (k : nat) (X : Tab) :
  NoDup (ids w0) -> findTab w0 s = Some S -> tab_type (data S) = group ->
  tabsOrEmpty S !! k = Some X ->
  (s ∉ idsIn X) /\ NoDup (ids (tabsOrEmpty S)).
Proof.
  intros Hnd HS Hg Hk. pose proof (findTab_NoDup _ _ _ Hnd HS) as HndS.
  rewrite idsIn_unfold, (group_kids _ Hg), (findTab_id _ _ _ HS) in HndS.
  apply NoDup_cons in HndS as [Hs HndK]. split; [|done].
  intros Hin. apply Hs. by apply (lookup_ids _ k X).
Qed.

(** The array that receives the moved tab, as the target recalculation
    reads it. *)
Lemma contents_after_insert (key : string) (T1 T3 X : Tab) (idx : Z) :
  Tracks key (match tabs T1 with
              | Some l => withTabs (spliceIn l idx X) T1
              | None => T1
              end) T3 ->
  key ∉ idsIn X ->
  let c := match tabs T3 with Some l => l | None => [X] end in
  data <$> c = data <$> spliceIn (tabsOrEmpty T1) idx X
  /\ c !! spliceStart (length (tabsOrEmpty T1)) idx = Some X.
Proof.
  intros Htr Hkey. unfold tabsOrEmpty at 1 2.
  destruct (tabs T1) as [l1|] eqn:Ht1; simpl.
  - pose proof (Tracks_tabsOrEmpty_data _ _ _ Htr) as Hd.
    pose proof (Tracks_lookup _ _ _ (spliceStart (length l1) idx) X Htr
                  (lookup_spliceIn l1 idx X) Hkey) as Hl.
    pose proof (Tracks_map_data _ _ _ Htr) as Hm. simpl in Hm.
    unfold tabsOrEmpty in Hd, Hl. destruct (tabs T3) as [l3|]; simpl in *; [done|].
    discriminate Hm.
  - rewrite (Tracks_tabs_None _ _ _ Htr Ht1).
    assert (E : spliceStart 0 idx = 0%nat) by (pose proof (spliceStart_le 0 idx); lia).
    unfold spliceIn. simpl. by rewrite E.
Qed.

Lemma moveInForest_group_top (w0 : list Tab) (s x : string) (S : Tab)
    (k : nat) (X : Tab) (idx : Z) (w4 : list Tab) :
  NoDup (ids w0) ->
  findTab w0 s = Some S -> tab_type (data S) = group ->
  findIndex (tabsOrEmpty S) x = Some k -> tabsOrEmpty S !! k = Some X ->
  let sc := orElse (cols (data S)) 2 in
  moveInForest w0 (InGroup s) TopLevel k X idx sc 2 = moved w4 ->
  MovedTo w4 (InGroup s) TopLevel (tabsOrEmpty S) w0 sc 2 k X idx.
Proof.
  intros Hnd HS Hg Hk HX sc. unfold moveInForest, MovedTo.
  destruct (decide (InGroup s = TopLevel)) as [|_]; [done|].
  pose proof (findTab_id _ _ _ HS) as Hid.
  destruct (source_not_in_moved w0 s S k X Hnd HS Hg HX) as [HsX _].
  set (f1 := fun p => withTabs (delete k (tabsOrEmpty p)) p).
  set (f3 := fun p => withTabs (recalculateTabPositions (tabsOrEmpty p) sc) p).
  pose proof (mutateTab_found w0 s f1 S HS) as R1.
  pose proof (findTab_mutateTab w0 s f1 S HS Hid) as H1.
  set (w1 := mutateTab w0 s f1) in *.
  assert (H2 : findTab (spliceIn w1 idx X) s = Some (f1 S)) by by rewrite findTab_spliceIn.
  set (w2 := spliceIn w1 idx X) in *.
  destruct (updateTab_found w2 s f3 _ H2 Hid) as (w3 & Hu3 & H3 & R3).
  rewrite Hu3. intros [= <-].
  pose proof (findTab_recalculate w3 2 s s) as Htr. rewrite H3 in Htr.
  destruct (findTab (recalculateTabPositions w3 2) s) as [S4|] eqn:H4; [|done].
  simpl in Htr.
  assert (Hlen : length w1 = length w0) by by eapply Replaced_length.
  exists (tabsOrEmpty S4), (recalculateTabPositions w3 2). split; [|split; [done|split; [|split]]].
  - by apply (Tracks_locate s s (f3 (f1 S)) S4).
  - by rewrite (Tracks_tabsOrEmpty_data _ _ _ Htr).
  - apply fmap_data_recalculate.
    rewrite (Replaced_map_data _ _ _ _ _ R3 eq_refl). apply fmap_data_spliceIn.
    by apply (Replaced_map_data _ _ _ _ _ R1).
  - rewrite lookup_recalculate, <- Hlen.
    by rewrite (Replaced_lookup_same _ _ _ _ _ _ X R3 (lookup_spliceIn w1 idx X) HsX).
Qed.

Lemma tabsOrEmpty_withTabs (l : list Tab) (p : Tab) : tabsOrEmpty (withTabs l p) = l.
Proof. done. Qed.

Lemma group_kids_withTabs (l : list Tab) (p : Tab) :
  tab_type (data p) = group -> kids (withTabs l p) = l.
Proof. intros Hg. unfold kids, groupTabs, withTabs; simpl. by destruct (decide _). Qed.

Lemma data_insert (idx : Z) (X p : Tab) :
  data (match tabs p with
        | Some l => withTabs (spliceIn l idx X) p
        | None => p
        end) = data p.
Proof. by destruct (tabs p). Qed.

Lemma mutateTab_absent (l : list Tab) (x : string) (f : Tab -> Tab) :
  findTab l x = None -> mutateTab l x f = l.
Proof. intros H. unfold mutateTab. by rewrite (proj2 (updateTab_None l x f) H). Qed.

Lemma moveInForest_top_group (w0 : list Tab) (t : string) (T : Tab)
    (k : nat) (X : Tab) (idx : Z) (w4 : list Tab) :
  NoDup (ids w0) ->
  w0 !! k = Some X ->
  findTab w0 t = Some T -> tab_type (data T) = group ->
  let tc := orElse (cols (data T)) 2 in
  moveInForest w0 TopLevel (InGroup t) k X idx 2 tc = moved w4 ->
  MovedTo w4 TopLevel (InGroup t) w0 (tabsOrEmpty T) 2 tc k X idx.
Proof.
  intros Hnd HX HT Hg tc. unfold moveInForest, MovedTo.
  destruct (decide (TopLevel = InGroup t)) as [|_]; [done|].
  pose proof (findTab_id _ _ _ HT) as Hid.
  pose proof (ids_delete w0 k X HX) as Hperm.
  rewrite Hperm in Hnd. apply NoDup_app in Hnd as (_ & Hdisj & Hnd1).
  set (w1 := delete k w0) in *.
  set (f2 := fun p => match tabs p with
                      | Some l => withTabs (spliceIn l idx X) p
                      | None => p end).
  destruct (decide (t ∈ idsIn X)) as [Hin|Hout].
  { assert (H1 : findTab w1 t = None) by (apply findTab_None; auto).
    rewrite (mutateTab_absent w1 t f2 H1).
    assert (H3 : findTab (recalculateTabPositions w1 2) t = None).
    { apply findTab_None. rewrite ids_recalculate. auto. }
    by rewrite (proj2 (updateTab_None _ t _) H3). }
  assert (H1 : findTab w1 t = Some T).
  { unfold w1. by rewrite (findTab_delete w0 k X t HX Hout). }
  assert (Hid2 : tab_id (data (f2 T)) = t) by by (unfold f2; rewrite data_insert).
  pose proof (mutateTab_found w1 t f2 T H1) as R2.
  pose proof (findTab_mutateTab w1 t f2 T H1 Hid2) as H2.
  set (w2 := mutateTab w1 t f2) in *.
  pose proof (findTab_recalculate w2 2 t t) as Htr. rewrite H2 in Htr.
  destruct (findTab (recalculateTabPositions w2 2) t) as [T3|] eqn:H3; [|done].
  simpl in Htr.
  destruct (Tracks_fields _ _ _ Htr) as (Hid3 & Hty3 & Hc3).
  unfold f2 in Hid3, Hty3, Hc3. rewrite data_insert in Hid3, Hty3, Hc3.
  set (f4 := fun p => withTabs _ p).
  destruct (updateTab_found _ t f4 T3 H3) as (w4' & Hu4 & H4 & R4); [by rewrite <- Hid3 in Hid|].
  rewrite Hu4. intros [= <-].
  destruct (contents_after_insert t T T3 X idx Htr Hout) as [Hcd Hcl].
  exists w4', (tabsOrEmpty (f4 T3)). split; [done|]. split; [|split; [|split]].
  - apply locate_InGroup. exists (f4 T3). repeat split; [done|by rewrite <- Hty3 in Hg|].
    unfold tc. by rewrite <- Hc3.
  - rewrite (Replaced_map_data _ _ _ _ _ R4 eq_refl). apply fmap_data_recalculate.
    apply (Replaced_map_data _ _ _ _ _ R2). apply data_insert.
  - by apply fmap_data_recalculate.
  - unfold f4. by rewrite tabsOrEmpty_withTabs, lookup_recalculate, Hcl.
Qed.

Lemma ids_delete_elem (l : list Tab) (k : nat) (y : string) :
  y ∈ ids (delete k l) -> y ∈ ids l.
Proof.
  destruct (l !! k) as [X|] eqn:Hk.
  - rewrite (ids_delete l k X Hk), elem_of_app. auto.
  - rewrite delete_take_drop.
    apply lookup_ge_None in Hk.
    rewrite take_ge, drop_ge, app_nil_r by lia. done.
Qed.

(** The ids after the tab [X] was spliced out of the group [S]. *)
Lemma ids_spliced_out (w0 w1 : list Tab) (s : string) (S : Tab) (k : nat) (X : Tab) :
  Replaced s S (withTabs (delete k (tabsOrEmpty S)) S) w0 w1 ->
  groupTabs S = Some (tabsOrEmpty S) -> tabsOrEmpty S !! k = Some X ->
  ids w0 ≡ₚ idsIn X ++ ids w1.
Proof.
  intros R Hg HX. destruct (Replaced_ids _ _ _ _ _ R) as (pre & post & -> & ->).
  rewrite (idsIn_withTabs _ _ _ Hg), (idsIn_unfold S), (kids_groupTabs _ _ Hg).
  rewrite (ids_delete _ k X HX). solve_Permutation.
Qed.

(** The ids after the tab [X] was spliced into the group [T1]. *)
Lemma NoDup_spliced_in (w1 w2 : list Tab) (t : string) (T1 X : Tab) (idx : Z) :
  Replaced t T1 (match tabs T1 with
                 | Some l => withTabs (spliceIn l idx X) T1
                 | None => T1
                 end) w1 w2 ->
  tab_type (data T1) = group ->
  NoDup (idsIn X ++ ids w1) -> NoDup (ids w2).
Proof.
  intros R Hg Hnd. destruct (Replaced_ids _ _ _ _ _ R) as (pre & post & H1 & H2).
  rewrite H2. rewrite H1 in Hnd.
  pose proof (group_groupTabs _ Hg) as Hgt.
  destruct (tabs T1) as [l1|] eqn:Ht.
  - rewrite (idsIn_withTabs _ _ _ Hgt).
    rewrite (idsIn_unfold T1), (kids_groupTabs _ _ Hgt) in Hnd.
    rewrite ids_spliceIn. revert Hnd. apply NoDup_Permutation_proper. solve_Permutation.
  - by apply NoDup_app in Hnd as (_ & _ & Hnd).
Qed.

Lemma moveInForest_group_group (w0 : list Tab) (s t x : string) (S T : Tab)
    (k : nat) (X : Tab) (idx : Z) (w4 : list Tab) :
  NoDup (ids w0) -> s <> t ->
  findTab w0 s = Some S -> tab_type (data S) = group ->
  findTab w0 t = Some T -> tab_type (data T) = group ->
  findIndex (tabsOrEmpty S) x = Some k -> tabsOrEmpty S !! k = Some X ->
  let sc := orElse (cols (data S)) 2 in
  let tc := orElse (cols (data T)) 2 in
  moveInForest w0 (InGroup s) (InGroup t) k X idx sc tc = moved w4 ->
  MovedTo w4 (InGroup s) (InGroup t) (tabsOrEmpty S) (tabsOrEmpty T) sc tc k X idx.
Proof.
  intros Hnd Hst HS HgS HT HgT Hk HX sc tc. unfold moveInForest, MovedTo.
  destruct (decide (InGroup s = InGroup t)) as [[= ?]|_]; [done|].
  pose proof (findTab_id _ _ _ HS) as HidS.
  pose proof (findTab_id _ _ _ HT) as HidT.
  destruct (source_not_in_moved w0 s S k X Hnd HS HgS HX) as [HsX _].
  destruct (source_group S x k HgS Hk) as [HtsS HgtS].
  set (f1 := fun p => withTabs (delete k (tabsOrEmpty p)) p).
  set (f2 := fun p => match tabs p with
                      | Some l => withTabs (spliceIn l idx X) p
                      | None => p end).
  set (f3 := fun p => withTabs (recalculateTabPositions (tabsOrEmpty p) sc) p).
  (* the splice out of the source *)
  pose proof (mutateTab_found w0 s f1 S HS) as R1.
  pose proof (findTab_mutateTab w0 s f1 S HS HidS) as H1s.
  set (w1 := mutateTab w0 s f1) in *.
  pose proof (ids_spliced_out w0 w1 s S k X R1 HgtS HX) as Hperm1.
  pose proof Hnd as Hnd0. rewrite Hperm1 in Hnd.
  pose proof Hnd as HndX1. apply NoDup_app in Hnd as (_ & Hdisj & Hnd1).
  destruct (decide (t ∈ idsIn X)) as [Hin|Hout].
  { (* the target lies in the moved tab: the last assignment raises *)
    assert (H1 : findTab w1 t = None) by (apply findTab_None; auto).
    rewrite (mutateTab_absent w1 t f2 H1).
    destruct (updateTab_found w1 s f3 _ H1s HidS) as (w3 & Hu3 & H3 & R3).
    rewrite Hu3.
    assert (H3t : findTab w3 t = None).
    { apply findTab_None. destruct (Replaced_ids _ _ _ _ _ R3) as (pre & post & E1 & E3).
      rewrite E3. unfold f3, f1. rewrite (idsIn_withTabs _ _ _ (groupTabs_withTabs _ _ _ HgtS)).
      rewrite ids_recalculate, tabsOrEmpty_withTabs.
      rewrite <- (idsIn_withTabs _ _ _ HgtS). fold (f1 S). rewrite <- E1. auto. }
    by rewrite (proj2 (updateTab_None _ t _) H3t). }
  (* the target, after the splice out *)
  assert (Htr1 : TracksO s (findTab w0 t) (findTab w1 t)).
  { apply (Replaced_tracks s t S (f1 S)); auto.
    - intros _. rewrite (kids_groupTabs _ _ HgtS). unfold f1.
      rewrite (kids_withTabs _ _ _ HgtS), (findTab_delete _ k X t HX Hout).
      apply TracksO_refl.
    - intros Hn. unfold f1. rewrite (idsIn_withTabs _ _ _ HgtS).
      rewrite idsIn_unfold, (kids_groupTabs _ _ HgtS) in Hn.
      rewrite not_elem_of_cons in Hn |- *. destruct Hn as [Hn1 Hn2].
      split; [done|]. intros Hd. apply Hn2. by apply ids_delete_elem in Hd. }
  rewrite HT in Htr1. destruct (findTab w1 t) as [T1|] eqn:H1t; [|done]. simpl in Htr1.
  destruct (Tracks_fields _ _ _ Htr1) as (HidT1 & HtyT1 & HcT1).
  assert (HgT1 : tab_type (data T1) = group) by congruence.
  assert (Hid1 : tab_id (data T1) = t) by congruence.
  (* the splice into the target *)
  assert (Hid2 : tab_id (data (f2 T1)) = t) by by (unfold f2; rewrite data_insert).
  pose proof (mutateTab_found w1 t f2 T1 H1t) as R2.
  pose proof (findTab_mutateTab w1 t f2 T1 H1t Hid2) as H2t.
  set (w2 := mutateTab w1 t f2) in *.
  pose proof (NoDup_spliced_in w1 w2 t T1 X idx R2 HgT1 HndX1) as Hnd2.
  assert (Htr2 : TracksO t (findTab w1 s) (findTab w2 s)).
  { apply (Replaced_tracks t s T1 (f2 T1)); auto.
    - unfold f2. apply data_insert.
    - intros _. unfold f2. pose proof (group_groupTabs _ HgT1) as Hgt.
      destruct (tabs T1) as [l1|] eqn:Ht1; [|apply TracksO_refl].
      rewrite (kids_groupTabs _ _ Hgt), (kids_withTabs _ _ _ Hgt), findTab_spliceIn by done.
      apply TracksO_refl.
    - intros Hn. unfold f2. pose proof (group_groupTabs _ HgT1) as Hgt.
      destruct (tabs T1) as [l1|] eqn:Ht1; [|done].
      rewrite (idsIn_withTabs _ _ _ Hgt).
      rewrite idsIn_unfold, (kids_groupTabs _ _ Hgt) in Hn.
      rewrite not_elem_of_cons in Hn |- *. destruct Hn as [Hn1 Hn2].
      split; [done|]. rewrite ids_spliceIn, not_elem_of_app. auto. }
  rewrite H1s in Htr2. destruct (findTab w2 s) as [S2|] eqn:H2s; [|done]. simpl in Htr2.
  destruct (Tracks_fields _ _ _ Htr2) as (HidS2 & HtyS2 & HcS2).
  assert (HgS2 : tab_type (data S2) = group) by (rewrite HtyS2; exact HgS).
  assert (HidS2' : tab_id (data S2) = s) by (rewrite HidS2; exact HidS).
  (* the recalculation of the source *)
  destruct (updateTab_found w2 s f3 S2 H2s HidS2') as (w3 & Hu3 & H3s & R3).
  rewrite Hu3.
  assert (Hids3 : idsIn (f3 S2) = idsIn S2).
  { unfold f3. rewrite !idsIn_unfold, data_withTabs. f_equal.
    by rewrite (group_kids_withTabs _ _ HgS2), ids_recalculate, (group_kids S2 HgS2). }
  assert (Hnd3 : NoDup (ids w3)).
  { destruct (Replaced_ids _ _ _ _ _ R3) as (pre & post & E2 & E3).
    by rewrite E3, Hids3, <- E2. }
  assert (Htr3 : TracksO s (findTab w2 t) (findTab w3 t)).
  { apply (Replaced_tracks s t S2 (f3 S2)); auto.
    - intros _. unfold f3.
      rewrite (group_kids_withTabs _ _ HgS2), (group_kids S2 HgS2).
      apply findTab_recalculate.
    - by rewrite Hids3. }
  rewrite H2t in Htr3. destruct (findTab w3 t) as [T3|] eqn:H3t; [|done]. simpl in Htr3.
  destruct (Tracks_fields _ _ _ Htr3) as (HidT3 & HtyT3 & HcT3).
  unfold f2 in HidT3, HtyT3, HcT3. rewrite data_insert in HidT3, HtyT3, HcT3.
  assert (HgT3 : tab_type (data T3) = group) by congruence.
  assert (HidT3' : tab_id (data T3) = t) by congruence.
  (* the recalculation of the target *)
  set (f4 := fun p => withTabs _ p).
  destruct (updateTab_found w3 t f4 T3 H3t HidT3') as (w4' & Hu4 & H4t & R4).
  rewrite Hu4. intros [= <-].
  destruct (contents_after_insert s T1 T3 X idx Htr3 HsX) as [Hcd Hcl].
  assert (Htr4 : TracksO t (findTab w3 s) (findTab w4' s)).
  { apply (Replaced_tracks t s T3 (f4 T3)); auto.
    - intros Hin. unfold f4. rewrite (group_kids_withTabs _ _ HgT3), (group_kids T3 HgT3).
      unfold tabsOrEmpty. destruct (tabs T3) as [l3|] eqn:Et3; simpl.
      + apply findTab_recalculate.
      + exfalso. rewrite idsIn_unfold, (group_kids T3 HgT3) in Hin.
        unfold tabsOrEmpty in Hin. rewrite Et3 in Hin. simpl in Hin.
        apply elem_of_cons in Hin as [?|Hin]; [congruence|]. by apply elem_of_nil in Hin.
    - intros Hn. unfold f4.
      rewrite idsIn_unfold in Hn |- *.
      rewrite data_withTabs, (group_kids_withTabs _ _ HgT3), ids_recalculate.
      rewrite (group_kids T3 HgT3) in Hn.
      rewrite not_elem_of_cons in Hn |- *. destruct Hn as [Hn1 Hn2].
      split; [done|]. unfold tabsOrEmpty in Hn2.
      destruct (tabs T3) as [l3|]; [done|].
      change (ids [X]) with (idsIn X ++ []). by rewrite app_nil_r. }
  rewrite H3s in Htr4. destruct (findTab w4' s) as [S4|] eqn:H4s; [|done]. simpl in Htr4.
  exists (tabsOrEmpty S4), (tabsOrEmpty (f4 T3)). split; [|split; [|split; [|split]]].
  - replace sc with (orElse (cols (data (f3 S2))) 2)
      by (unfold sc, f3; rewrite data_withTabs, HcS2; done).
    by apply (Tracks_locate t s (f3 S2) S4 w4' Htr4).
  - apply locate_InGroup. exists (f4 T3). repeat split; [done|done|].
    unfold tc. unfold f4. rewrite data_withTabs. congruence.
  - rewrite (Tracks_tabsOrEmpty_data _ _ _ Htr4). unfold f3. rewrite tabsOrEmpty_withTabs.
    apply fmap_data_recalculate. by rewrite (Tracks_tabsOrEmpty_data _ _ _ Htr2).
  - unfold f4. rewrite tabsOrEmpty_withTabs. apply fmap_data_recalculate.
    rewrite Hcd. apply fmap_data_spliceIn. apply (Tracks_tabsOrEmpty_data _ _ _ Htr1).
  - unfold f4. rewrite tabsOrEmpty_withTabs, lookup_recalculate.
    rewrite <- (fmap_data_length _ _ (Tracks_tabsOrEmpty_data _ _ _ Htr1)).
    by rewrite Hcl.
Qed.

(** In a forest with distinct ids, a move that ran to its end has rebuilt
    the two sibling lists as [MovedTo] says. *)
Lemma moveInForest_moved (w0 : list Tab) (src tgt : Container)
    (sourceTabs targetTabs : list Tab) (sc tc : Z) (x : string)
    (k : nat) (X : Tab) (idx : Z) (w4 : list Tab) :
  NoDup (ids w0) ->
  locate w0 src = Some (sourceTabs, sc) ->
  locate w0 tgt = Some (targetTabs, tc) ->
  findIndex sourceTabs x = Some k -> sourceTabs !! k = Some X ->
  moveInForest w0 src tgt k X idx sc tc = moved w4 ->
  MovedTo w4 src tgt sourceTabs targetTabs sc tc k X idx.
Proof.
  intros Hnd Hs Ht Hk HX Hm. destruct src as [|s], tgt as [|t].
  - injection Hs as <- <-. injection Ht as <- <-. by apply moveInForest_top_top.
  - injection Hs as <- <-.
    apply locate_InGroup in Ht as (T & HT & HgT & -> & ->).
    by apply moveInForest_top_group.
  - injection Ht as <- <-.
    apply locate_InGroup in Hs as (S & HS & HgS & -> & ->).
    by apply (moveInForest_group_top w0 s x).
  - apply locate_InGroup in Hs as (S & HS & HgS & -> & ->).
    apply locate_InGroup in Ht as (T & HT & HgT & -> & ->).
    destruct (decide (s = t)) as [<-|Hst].
    + assert (T = S) as -> by congruence. by apply (moveInForest_same_group w0 s x).
    + by apply (moveInForest_group_group w0 s t x).
Qed.

(** What a successful [moveTab] went through. *)
Lemma moveTab_success (now : string) (ws : Workspace) (worktreeId x : string)
    (srcP tgtP : option string) (idx : Z) (g : Gateway) (wi : nat) (wt : Worktree) :
  findWorktree (worktrees ws) worktreeId = Some wi ->
  worktrees ws !! wi = Some wt ->
  NoDup (ids (wt_tabs wt)) ->
  let o := moveTab now ws worktreeId x srcP tgtP idx g in
  result o = success () ->
  exists sourceTabs targetTabs sc tc k X w4,
    locate (wt_tabs wt) (container srcP) = Some (sourceTabs, sc)
    /\ locate (wt_tabs wt) (container tgtP) = Some (targetTabs, tc)
    /\ findIndex sourceTabs x = Some k /\ sourceTabs !! k = Some X
    /\ worktrees (workspace' o) !! wi = Some (setTabs w4 wt)
    /\ MovedTo w4 (container srcP) (container tgtP) sourceTabs targetTabs sc tc k X idx.
Proof.
  intros Hwt Hwi Hnd. unfold moveTab. rewrite Hwt, Hwi. simpl.
  destruct (locate (wt_tabs wt) (container srcP)) as [[sourceTabs sc]|] eqn:Hs; [|done].
  destruct (locate (wt_tabs wt) (container tgtP)) as [[targetTabs tc]|] eqn:Ht; [|done].
  destruct (findIndex sourceTabs x) as [k|] eqn:Hk; [|done].
  rewrite (findById_Some _ _ _ Hk).
  destruct (sourceTabs !! k) as [X|] eqn:HX; [|done].
  destruct (moveInForest _ _ _ _ _ _ _ _) as [w4|w] eqn:Hm; [|done].
  intros _. exists sourceTabs, targetTabs, sc, tc, k, X, w4.
  repeat split; try done.
  - simpl. by rewrite list_lookup_alter_eq, Hwi.
  - by apply (moveInForest_moved (wt_tabs wt) _ _ _ _ _ _ x).
Qed.

Lemma spliceIn_eq (l : list Tab) (idx : Z) (X : Tab) :
  let len := Z.of_nat (length l) in
  let pos := Z.to_nat (if decide (idx < 0) then Z.max (len + idx) 0 else Z.min idx len) in
  spliceIn l idx X = take pos l ++ X :: drop pos l.
Proof. unfold spliceIn, spliceStart. by destruct (decide (idx < 0)). Qed.

(** C4, as amended.  In a worktree whose tab ids are distinct, a successful
    [moveTab] takes the tab out of the source sibling list and puts it into
    the target sibling list at the position that [splice] gives for
    [targetIndex]: [targetIndex] itself from [0] to the length, the length
    beyond it, and [max (length + targetIndex) 0] for a negative index, which
    counts from the end.  Afterwards the scalar properties of the tabs of
    both lists are those of the recalculated final lists; when source and
    target are one list, that list is the recalculated final list. *)
Theorem moveTab_splices (now : string) (ws : Workspace) (worktreeId x : string)
    (srcP tgtP : option string) (idx : Z) (g : Gateway) (wi : nat) (wt : Worktree) :
  findWorktree (worktrees ws) worktreeId = Some wi ->
  worktrees ws !! wi = Some wt ->
  NoDup (ids (wt_tabs wt)) ->
  let o := moveTab now ws worktreeId x srcP tgtP idx g in
  result o = success () ->
  exists sourceTabs targetTabs sc tc k X forest',
    locate (wt_tabs wt) (container srcP) = Some (sourceTabs, sc)
    /\ locate (wt_tabs wt) (container tgtP) = Some (targetTabs, tc)
    /\ findIndex sourceTabs x = Some k /\ sourceTabs !! k = Some X
    /\ worktrees (workspace' o) !! wi = Some (setTabs forest' wt)
    /\ let base := if decide (container srcP = container tgtP)
                   then delete k sourceTabs else targetTabs in
       let len := Z.of_nat (length base) in
       let pos := Z.to_nat (if decide (idx < 0) then Z.max (len + idx) 0 else Z.min idx len) in
       exists tgt',
         locate forest' (container tgtP) = Some (tgt', tc)
         /\ data <$> tgt'
            = data <$> recalculateTabPositions (take pos base ++ X :: drop pos base) tc
         /\ (container srcP = container tgtP ->
               tgt' = recalculateTabPositions (take pos base ++ X :: drop pos base) tc)
         /\ (container srcP <> container tgtP ->
               exists src',
                 locate forest' (container srcP) = Some (src', sc)
                 /\ data <$> src' = data <$> recalculateTabPositions (delete k sourceTabs) sc).
Proof.
  intros Hwt Hwi Hnd o Hok.
  destruct (moveTab_success now ws worktreeId x srcP tgtP idx g wi wt Hwt Hwi Hnd Hok)
    as (sourceTabs & targetTabs & sc & tc & k & X & w4 & Hs & Ht & Hk & HX & Hw & Hm).
  exists sourceTabs, targetTabs, sc, tc, k, X, w4. repeat (split; [done|]).
  unfold MovedTo in Hm. cbv zeta.
  destruct (decide (container srcP = container tgtP)) as [Heq|Hne].
  - rewrite <- spliceIn_eq. eexists. split; [exact Hm|]. by repeat split.
  - rewrite <- spliceIn_eq.
    destruct Hm as (src' & tgt' & Hs' & Ht' & Hds & Hdt & _).
    exists tgt'. repeat split; try done. exists src'. by split.
Qed.

Lemma moveTab_splices_witness :
  let A := groupTab "A" 2 [leafTab "X"; leafTab "Y"] in
  let B := groupTab "B" 2 [leafTab "Z"; leafTab "W"] in
  let ws := oneWorktree [A; B] in
  let o := moveTab "now" ws "wt" "X" (Some "A"%string) (Some "B"%string) (-1) (gatewayWith ws) in
  result o = success ()
  /\ exists forest' tgt' src',
       worktrees (workspace' o) !! 0%nat
       = Some (setTabs forest' {| wt_id := "wt"; wt_branch := "main"; wt_path := "/repo";
                                  wt_tabs := [A; B];
                                  wt_createdAt := "2025-01-01T00:00:00.000Z" |})
       /\ locate forest' (InGroup "B") = Some (tgt', 2)
       /\ data <$> tgt'
          = data <$> recalculateTabPositions [leafTab "Z"; leafTab "X"; leafTab "W"] 2
       /\ locate forest' (InGroup "A") = Some (src', 2)
       /\ data <$> src' = data <$> recalculateTabPositions [leafTab "Y"] 2.
Proof.
  intros A B ws o. split; [reflexivity|].
  assert (Hnd : NoDup (ids [A; B])) by compute_done.
  destruct (moveTab_splices "now" ws "wt" "X" (Some "A"%string) (Some "B"%string) (-1)
              (gatewayWith ws) 0%nat
              {| wt_id := "wt"; wt_branch := "main"; wt_path := "/repo";
                 wt_tabs := [A; B]; wt_createdAt := "2025-01-01T00:00:00.000Z" |}
              eq_refl eq_refl Hnd eq_refl)
    as (sourceTabs & targetTabs & sc & tc & k & X & forest' & Hs & Ht & Hk & HX & Hw & Hrest).
  injection Hs as <- <-. injection Ht as <- <-. injection Hk as <-. injection HX as <-.
  destruct Hrest as (tgt' & Ht' & Hdt & _ & Hsrc).
  destruct Hsrc as (src' & Hs' & Hds); [discriminate|].
  exists forest', tgt', src'. repeat split; assumption.
Defined.

(** C4 as stated fails: a [targetIndex] of [-1] does not insert at the front.
    Moving [X] into the group [B] that holds [[Z; W]] leaves [Z] first. *)
Lemma moveTab_negative_index_not_front :
  ~ (forall now ws worktreeId x srcP tgtP idx g wt' tgt' ncols,
       idx <= 0 ->
       result (moveTab now ws worktreeId x srcP tgtP idx g) = success () ->
       wt' ∈ worktrees (workspace' (moveTab now ws worktreeId x srcP tgtP idx g)) ->
       locate (wt_tabs wt') (container tgtP) = Some (tgt', ncols) ->
       tab_id ∘ data <$> tgt' !! 0%nat = Some x).
Proof.
  intros H.
  pose (ws := oneWorktree [leafTab "X"; groupTab "B" 2 [leafTab "Z"; leafTab "W"]]).
  pose (o := moveTab "now" ws "wt" "X" None (Some "B"%string) (-1) (gatewayWith ws)).
  assert (Hin : exists wt', worktrees (workspace' o) = [wt']) by (eexists; reflexivity).
  destruct Hin as [wt' Hwt'].
  specialize (H "now"%string ws "wt"%string "X"%string None (Some "B"%string) (-1)
                (gatewayWith ws) wt'
                [placedAt 0 2 (leafTab "Z"); placedAt 1 2 (leafTab "X"); placedAt 2 2 (leafTab "W")]
                2).
  fold o in H. rewrite Hwt' in H. injection Hwt' as <-.
  specialize (H ltac:(lia) eq_refl ltac:(apply list_elem_of_here) eq_refl).
  discriminate H.
Qed.

(** C7.  In a worktree whose tab ids are distinct, a successful [moveTab]
    between two different sibling lists leaves the source one tab shorter and
    the target one tab longer, so the sum of the two counts is unchanged, and
    the moved tab sits in the target with every property but [order], [row]
    and [col] as before, its [tabs] included. *)
Theorem moveTab_preserves_count_and_payload (now : string) (ws : Workspace)
    (worktreeId x : string) (srcP tgtP : option string) (idx : Z) (g : Gateway)
    (wi : nat) (wt : Worktree) :
  findWorktree (worktrees ws) worktreeId = Some wi ->
  worktrees ws !! wi = Some wt ->
  NoDup (ids (wt_tabs wt)) ->
  container srcP <> container tgtP ->
  let o := moveTab now ws worktreeId x srcP tgtP idx g in
  result o = success () ->
  exists sourceTabs targetTabs sc tc X forest' src' tgt' pos X',
    locate (wt_tabs wt) (container srcP) = Some (sourceTabs, sc)
    /\ locate (wt_tabs wt) (container tgtP) = Some (targetTabs, tc)
    /\ findById sourceTabs x = Some X
    /\ worktrees (workspace' o) !! wi = Some (setTabs forest' wt)
    /\ locate forest' (container srcP) = Some (src', sc)
    /\ locate forest' (container tgtP) = Some (tgt', tc)
    /\ (length src' + length tgt' = length sourceTabs + length targetTabs)%nat
    /\ S (length src') = length sourceTabs
    /\ length tgt' = S (length targetTabs)
    /\ tgt' !! pos = Some X'
    /\ erasePosition X' = erasePosition X.
Proof.
  intros Hwt Hwi Hnd Hne o Hok.
  destruct (moveTab_success now ws worktreeId x srcP tgtP idx g wi wt Hwt Hwi Hnd Hok)
    as (sourceTabs & targetTabs & sc & tc & k & X & w4 & Hs & Ht & Hk & HX & Hw & Hm).
  unfold MovedTo in Hm. destruct (decide _) as [|_]; [done|].
  destruct Hm as (src' & tgt' & Hs' & Ht' & Hds & Hdt & HX').
  apply fmap_data_length in Hds, Hdt.
  rewrite length_recalculate in Hds, Hdt.
  rewrite length_spliceIn in Hdt. rewrite length_delete in Hds by eauto.
  pose proof (lookup_lt_Some _ _ _ HX) as Hlt.
  exists sourceTabs, targetTabs, sc, tc, X, w4, src', tgt',
    (spliceStart (length targetTabs) idx),
    (placedAt (spliceStart (length targetTabs) idx) tc X).
  rewrite <- (findById_Some _ _ _ Hk) in HX.
  repeat split; try done; lia.
Qed.

Lemma moveTab_preserves_count_and_payload_witness :
  let inner := groupTab "X" 3 [leafTab "x1"; leafTab "x2"] in
  let A := groupTab "A" 2 [inner; leafTab "Y"] in
  let B := groupTab "B" 2 [leafTab "Z"] in
  let ws := oneWorktree [A; B] in
  let o := moveTab "now" ws "wt" "X" (Some "A"%string) (Some "B"%string) 0 (gatewayWith ws) in
  result o = success ()
  /\ exists forest' src' tgt' pos X',
       worktrees (workspace' o) !! 0%nat
       = Some (setTabs forest' {| wt_id := "wt"; wt_branch := "main"; wt_path := "/repo";
                                  wt_tabs := [A; B];
                                  wt_createdAt := "2025-01-01T00:00:00.000Z" |})
       /\ locate forest' (InGroup "A") = Some (src', 2)
       /\ locate forest' (InGroup "B") = Some (tgt', 2)
       /\ (length src' + length tgt' = 2 + 1)%nat
       /\ tgt' !! pos = Some X'
       /\ erasePosition X' = erasePosition inner.
Proof.
  intros inner A B ws o. split; [reflexivity|].
  assert (Hnd : NoDup (ids [A; B])) by compute_done.
  destruct (moveTab_preserves_count_and_payload "now" ws "wt" "X"
              (Some "A"%string) (Some "B"%string) 0 (gatewayWith ws) 0%nat
              {| wt_id := "wt"; wt_branch := "main"; wt_path := "/repo";
                 wt_tabs := [A; B]; wt_createdAt := "2025-01-01T00:00:00.000Z" |}
              eq_refl eq_refl Hnd ltac:(discriminate) eq_refl)
    as (sourceTabs & targetTabs & sc & tc & X & forest' & src' & tgt' & pos & X'
        & Hs & Ht & HX & Hw & Hs' & Ht' & Hsum & _ & _ & Hpos & Hpay).
  injection Hs as <- <-. injection Ht as <- <-. injection HX as <-.
  exists forest', src', tgt', pos, X'. repeat split; assumption.
Defined.

(** ** deleteTab: the groups around the deleted tab *)

Lemma findTab_recalculateIfCols (c : option Z) (l : list Tab) (y : string) :
  SamePayloadO (findTab l y) (findTab (recalculateIfCols c l) y).
Proof.
  unfold recalculateIfCols. destruct (truthyNum c) as [n|].
  - apply findTab_imap_payload. intros i t. apply (erasePosition_placedAt i n t).
  - by destruct (findTab l y).
Qed.

Lemma kids_erasePosition (q q' : Tab) :
  erasePosition q' = erasePosition q -> kids q' = kids q.
Proof.
  intros H. apply (f_equal kids) in H. unfold erasePosition, kids in H.
  by rewrite !groupTabs_setPosition in H.
Qed.

Lemma recalculateIfCols_idempotent (c : option Z) (l : list Tab) :
  recalculateIfCols c (recalculateIfCols c l) = recalculateIfCols c l.
Proof.
  unfold recalculateIfCols. destruct (truthyNum c); [apply recalculate_idempotent|done].
Qed.

Lemma length_recalculateIfCols (c : option Z) (l : list Tab) :
  length (recalculateIfCols c l) = length l.
Proof. unfold recalculateIfCols. destruct (truthyNum c); [apply length_recalculate|done]. Qed.

Lemma findTab_ids_incl (l : list Tab) (y z : string) (G : Tab) :
  findTab l y = Some G -> z ∈ idsIn G -> z ∈ ids l.
Proof.
  intros (pre & post & ->)%findTab_ids_split Hz. rewrite !elem_of_app. auto.
Qed.

Lemma findTabIn_ids_incl (t : Tab) (y z : string) (G : Tab) :
  findTabIn y t = Some G -> z ∈ idsIn G -> z ∈ idsIn t.
Proof.
  intros H Hz. assert (H' : findTab [t] y = Some G) by by rewrite findTab_cons, H.
  pose proof (findTab_ids_incl _ _ _ _ H' Hz) as Hin.
  change (ids [t]) with (idsIn t ++ []) in Hin. by rewrite app_nil_r in Hin.
Qed.

Lemma kids_ids_incl (G : Tab) (z : string) : z ∈ ids (kids G) -> z ∈ idsIn G.
Proof. intros H. rewrite idsIn_unfold. by apply list_elem_of_further. Qed.

(** A tab of the top level is enclosed by no group of the forest. *)
Lemma top_level_not_enclosed (l : list Tab) (x y : string) (i : nat) (G : Tab) :
  NoDup (ids l) -> findIndex l x = Some i -> findTab l y = Some G ->
  x ∉ ids (kids G).
Proof.
  revert i. induction l as [|u l IH]; intros i Hnd Hi HG Hx; [done|].
  change (ids (u :: l)) with (idsIn u ++ ids l) in Hnd.
  apply NoDup_app in Hnd as (Hndu & Hdisj & Hndl).
  rewrite findTab_cons in HG. simpl in Hi.
  destruct (decide (tab_id (data u) = x)) as [Hid|Hid].
  - destruct (findTabIn y u) as [G0|] eqn:Hu.
    + injection HG as ->. rewrite findTabIn_kids in Hu.
      rewrite idsIn_unfold, Hid in Hndu. apply NoDup_cons in Hndu as [Hxu _].
      destruct (decide _); [by injection Hu as <-|].
      apply Hxu. apply (findTab_ids_incl _ _ _ _ Hu). by apply kids_ids_incl.
    + apply (Hdisj x); [rewrite <- Hid; apply idsIn_head|].
      apply (findTab_ids_incl _ _ _ _ HG). by apply kids_ids_incl.
  - destruct (findIndex l x) as [j|] eqn:Hj; [|done].
    destruct (findTabIn y u) as [G0|] eqn:Hu.
    + injection HG as ->. apply (Hdisj x); [|by eapply findIndex_ids].
      apply (findTabIn_ids_incl _ _ _ _ Hu). by apply kids_ids_incl.
    + by apply (IH j).
Qed.

Lemma removeTabRecursive_nested_data (l l' : list Tab) (x : string) :
  removeTabRecursive l x = Some l' -> findIndex l x = None ->
  data <$> l' = data <$> l.
Proof.
  revert l'. induction l as [|t rest IH]; intros l'; [done|].
  rewrite removeTabRecursive_cons, removeTabIn_unfold. simpl.
  destruct (decide (tab_id (data t) = x)); [done|].
  destruct (findIndex rest x); [done|].
  destruct (groupTabs t) as [sub|].
  - destruct (removeTabRecursive sub x); simpl.
    + by intros [= <-] _.
    + destruct (removeTabRecursive rest x) as [rest'|]; simpl; [|done].
      intros [= <-] _. rewrite !fmap_cons. f_equal. by apply IH.
  - destruct (removeTabRecursive rest x) as [rest'|]; simpl; [|done].
    intros [= <-] _. rewrite !fmap_cons. f_equal. by apply IH.
Qed.

(** A removal below the tabs of a list leaves the list as it was but for the
    tab that had the removed one below it. *)
Lemma removeTabRecursive_same_but_below (l l' : list Tab) (x : string) :
  removeTabRecursive l x = Some l' -> findIndex l x = None -> SameButBelow x l l'.
Proof.
  assert (Hrefl : forall l0 : list Tab, SameButBelow x l0 l0).
  { intros l0. split; [done|]. intros j c Hc. by exists c. }
  revert l'. induction l as [|t rest IH]; intros l'; [done|].
  rewrite removeTabRecursive_cons, removeTabIn_unfold. simpl.
  destruct (decide (tab_id (data t) = x)); [done|].
  destruct (findIndex rest x) eqn:Hir; [done|].
  assert (Hcons : forall t' rest',
            data t' = data t -> (x ∉ idsIn t -> t' = t) -> SameButBelow x rest rest' ->
            SameButBelow x (t :: rest) (t' :: rest')).
  { intros t' rest' Hd Hsame [Hlen Hrest]. split; [simpl; by rewrite Hlen|].
    intros [|j] c Hc; simpl in Hc.
    - injection Hc as <-. by exists t'.
    - by apply Hrest. }
  destruct (groupTabs t) as [sub|] eqn:Hg.
  - destruct (removeTabRecursive sub x) as [sub'|] eqn:Hs; simpl.
    + intros [= <-] _. apply Hcons; [done| |apply Hrefl].
      intros Hx. exfalso. apply Hx.
      rewrite idsIn_unfold, (kids_groupTabs _ _ Hg). apply list_elem_of_further.
      apply dec_stable. intros Hn. apply removeTabRecursive_None in Hn. congruence.
    + destruct (removeTabRecursive rest x) as [rest'|]; simpl; [|done].
      intros [= <-] _. apply Hcons; [done|done|by apply IH].
  - destruct (removeTabRecursive rest x) as [rest'|]; simpl; [|done].
    intros [= <-] _. apply Hcons; [done|done|by apply IH].
Qed.

Lemma Recalculated_payload (x : string) (G G0 G' : Tab) :
  Recalculated x G G0 -> erasePosition G' = erasePosition G0 -> Recalculated x G G'.
Proof.
  intros (Hd & Hr & Hp & Hl) He. pose proof (kids_erasePosition _ _ He) as Hk.
  unfold Recalculated. rewrite Hk, He. done.
Qed.

(** In a forest with distinct ids, every group that encloses the deleted tab
    is found again after the deletion, with its children recalculated. *)
Lemma removeTabRecursive_enclosing (l : list Tab) (x : string) :
  forall l' y G,
    NoDup (ids l) -> removeTabRecursive l x = Some l' ->
    findTab l y = Some G -> x ∈ ids (kids G) ->
    exists G', findTab l' y = Some G' /\ Recalculated x G G'.
Proof.
  induction l as [|t rest IHsub IHrest] using forest_ind; intros l' y G Hnd Hrm HG Hx; [done|].
  destruct (findIndex (t :: rest) x) as [i|] eqn:Hi.
  { by destruct (top_level_not_enclosed _ _ _ _ _ Hnd Hi HG). }
  simpl in Hi. rewrite removeTabRecursive_cons in Hrm.
  destruct (decide (tab_id (data t) = x)) as [|Hid]; [done|].
  destruct (findIndex rest x) eqn:Hir; [done|]. clear Hi.
  change (ids (t :: rest)) with (idsIn t ++ ids rest) in Hnd.
  apply NoDup_app in Hnd as (Hndt & Hdisj & Hndr).
  rewrite findTab_cons in HG. rewrite removeTabIn_unfold in Hrm.
  destruct (groupTabs t) as [sub|] eqn:Hg.
  - destruct (removeTabRecursive sub x) as [sub'|] eqn:Hs; simpl in Hrm.
    + injection Hrm as <-.
      assert (Hxs : x ∈ ids sub).
      { apply dec_stable. intros Hn. apply removeTabRecursive_None in Hn. congruence. }
      rewrite findTab_cons, !findTabIn_kids, data_withTabs, (kids_withTabs _ _ _ Hg).
      rewrite findTabIn_kids, (kids_groupTabs _ _ Hg) in HG.
      destruct (decide (tab_id (data t) = y)) as [Hy|Hy].
      * injection HG as <-. eexists. split; [done|].
        unfold Recalculated.
        rewrite (kids_withTabs _ _ _ Hg), (kids_groupTabs _ _ Hg).
        split; [by destruct t as [[] ?]|]. split; [apply recalculateIfCols_idempotent|].
        split.
        -- intros i Hi. unfold removeTabRecursive in Hs. rewrite Hi in Hs. congruence.
        -- intros Hi. exists sub'. split; [done|].
           by apply removeTabRecursive_same_but_below.
      * rewrite idsIn_unfold, (kids_groupTabs _ _ Hg) in Hndt.
        apply NoDup_cons in Hndt as [_ Hnds].
        destruct (findTab sub y) as [G0|] eqn:HG0.
        -- injection HG as ->.
           destruct (IHsub sub (groupTabs_tabs _ _ Hg) sub' y G Hnds Hs HG0 Hx)
             as (G0' & HG0' & Hrec).
           pose proof (findTab_recalculateIfCols (cols (data t)) sub' y) as Hp.
           rewrite HG0' in Hp.
           destruct (findTab (recalculateIfCols (cols (data t)) sub') y) as [G'|]; [|done].
           simpl in Hp. exists G'. split; [done|]. by apply (Recalculated_payload x G G0').
        -- exfalso. apply (Hdisj x).
           ++ rewrite idsIn_unfold, (kids_groupTabs _ _ Hg). by apply list_elem_of_further.
           ++ apply (findTab_ids_incl _ _ _ _ HG). by apply kids_ids_incl.
    + apply removeTabRecursive_None in Hs.
      destruct (removeTabRecursive rest x) as [rest'|] eqn:Hr; simpl in Hrm; [|done].
      injection Hrm as <-. rewrite findTab_cons.
      destruct (findTabIn y t) as [G0|] eqn:Hu.
      * injection HG as ->. exfalso.
        apply kids_ids_incl in Hx. apply (findTabIn_ids_incl _ _ _ _ Hu) in Hx.
        rewrite idsIn_unfold, (kids_groupTabs _ _ Hg) in Hx.
        apply elem_of_cons in Hx as [?|?]; [congruence|done].
      * by apply IHrest.
  - destruct (removeTabRecursive rest x) as [rest'|] eqn:Hr; simpl in Hrm; [|done].
    injection Hrm as <-. rewrite findTab_cons.
    destruct (findTabIn y t) as [G0|] eqn:Hu.
    + injection HG as ->. exfalso.
      apply kids_ids_incl in Hx. apply (findTabIn_ids_incl _ _ _ _ Hu) in Hx.
      rewrite idsIn_unfold, (kids_None _ Hg) in Hx.
      apply elem_of_cons in Hx as [?|Hx]; [congruence|]. by apply elem_of_nil in Hx.
    + by apply IHrest.
Qed.

(** C5, as amended.  In a worktree whose tab ids are distinct, after a
    successful [deleteTab] of a tab that is not at the top level, every group
    that enclosed the tab, the immediate parent and each ancestor group above
    it alike, is found again with its own properties, [order], [row] and
    [col] apart, and with its children recalculated when its [cols] is set
    and not [0]: the children of the immediate parent are the remaining
    siblings, recalculated; those of an ancestor are the children it had, in
    the same sequence, recalculated, each with the properties it had but for
    [order], [row] and [col], and each that does not enclose the deleted tab
    with the subtree it had.  The top-level list of the worktree is not
    recalculated: it holds the tabs it held, in the same sequence, with
    their properties, positions included, and those that do not enclose the
    deleted tab are unchanged. *)
Theorem deleteTab_recalculates_enclosing_groups (now : string) (ws : Workspace)
    (worktreeId x : string) (g : Gateway) (wi : nat) (wt : Worktree) :
  findWorktree (worktrees ws) worktreeId = Some wi ->
  worktrees ws !! wi = Some wt ->
  NoDup (ids (wt_tabs wt)) ->
  findIndex (wt_tabs wt) x = None ->
  let o := deleteTab now ws worktreeId x g in
  result o = success () ->
  exists forest',
    worktrees (workspace' o) !! wi = Some (setTabs forest' wt)
    /\ data <$> forest' = data <$> wt_tabs wt
    /\ SameButBelow x (wt_tabs wt) forest'
    /\ forall y G, findTab (wt_tabs wt) y = Some G -> x ∈ ids (kids G) ->
         exists G', findTab forest' y = Some G' /\ Recalculated x G G'.
Proof.
  intros Hwt Hwi Hnd Hnested. unfold deleteTab. rewrite Hwt, Hwi. simpl.
  destruct (removeTabRecursive (wt_tabs wt) x) as [forest'|] eqn:Hrm; [|done].
  intros _. exists forest'. split; [simpl; by rewrite list_lookup_alter_eq, Hwi|].
  split; [by apply (removeTabRecursive_nested_data _ _ x)|].
  split; [by apply removeTabRecursive_same_but_below|].
  intros y G HG Hx. by apply (removeTabRecursive_enclosing (wt_tabs wt) x).
Qed.

Lemma deleteTab_recalculates_enclosing_groups_witness :
  let G1 := groupTab "g1" 2 [leafTab "l"] in
  let G0 := groupTab "g0" 2 [G1; leafTab "m"] in
  let ws := oneWorktree [G0] in
  let o := deleteTab "now" ws "wt" "l" (gatewayWith ws) in
  result o = success ()
  /\ exists forest' G0',
       worktrees (workspace' o) !! 0%nat
       = Some (setTabs forest' {| wt_id := "wt"; wt_branch := "main"; wt_path := "/repo";
                                  wt_tabs := [G0];
                                  wt_createdAt := "2025-01-01T00:00:00.000Z" |})
       /\ findTab forest' "g0" = Some G0'
       /\ recalculateIfCols (Some 2) (kids G0') = kids G0'
       /\ exists K, kids G0' = recalculateIfCols (Some 2) K
                    /\ SameButBelow "l" [G1; leafTab "m"] K.
Proof.
  intros G1 G0 ws o. split; [reflexivity|].
  assert (Hnd : NoDup (ids [G0])) by compute_done.
  destruct (deleteTab_recalculates_enclosing_groups "now" ws "wt" "l" (gatewayWith ws) 0%nat
              {| wt_id := "wt"; wt_branch := "main"; wt_path := "/repo";
                 wt_tabs := [G0]; wt_createdAt := "2025-01-01T00:00:00.000Z" |}
              eq_refl eq_refl Hnd eq_refl eq_refl)
    as (forest' & Hw & _ & _ & Henc).
  destruct (Henc "g0"%string G0 eq_refl ltac:(compute_done)) as (G0' & HG0' & _ & Hrec & _ & Hsame).
  exists forest', G0'.
  split; [exact Hw|]. split; [exact HG0'|]. split; [exact Hrec|]. exact (Hsame eq_refl).
Defined.

(** C5 as stated fails: the deletion of [l] from the group [g1] inside the
    group [g0] also recalculates the children of [g0], the ancestor above the
    immediate parent, whose [order], [row] and [col] were unset before. *)
Lemma deleteTab_changes_ancestor :
  ~ (forall now ws worktreeId x g wt wt' P A A',
       wt ∈ worktrees ws -> wt_id wt = worktreeId ->
       NoDup (ids (wt_tabs wt)) ->
       result (deleteTab now ws worktreeId x g) = success () ->
       wt' ∈ worktrees (workspace' (deleteTab now ws worktreeId x g)) ->
       findParentTab (wt_tabs wt) x = Some P ->
       findParentTab (wt_tabs wt) (tab_id (data P)) = Some A ->
       findTab (wt_tabs wt') (tab_id (data A)) = Some A' ->
       data <$> kids A' = data <$> kids A).
Proof.
  intros H.
  pose (G1 := groupTab "g1" 2 [leafTab "l"]).
  pose (G0 := groupTab "g0" 2 [G1; leafTab "m"]).
  pose (ws := oneWorktree [G0]).
  pose (o := deleteTab "now" ws "wt" "l" (gatewayWith ws)).
  assert (Hin : exists wt', worktrees (workspace' o) = [wt']) by (eexists; reflexivity).
  destruct Hin as [wt' Hwt'].
  specialize (H "now"%string ws "wt"%string "l"%string (gatewayWith ws)
                {| wt_id := "wt"; wt_branch := "main"; wt_path := "/repo";
                   wt_tabs := [G0]; wt_createdAt := "2025-01-01T00:00:00.000Z" |}
                wt' G1 G0
                (groupTab "g0" 2 [placedAt 0 2 (groupTab "g1" 2 []); placedAt 1 2 (leafTab "m")])).
  fold o in H. rewrite Hwt' in H. injection Hwt' as <-.
  specialize (H ltac:(apply list_elem_of_here) eq_refl ltac:(compute_done) eq_refl
                ltac:(apply list_elem_of_here) eq_refl eq_refl eq_refl).
  discriminate H.
Qed.

(** ** Order contiguity *)

Lemma IndexOrdered_recalculate (l : list Tab) (ncols : Z) :
  IndexOrdered (recalculateTabPositions l ncols).
Proof.
  intros i t. rewrite lookup_recalculate.
  destruct (l !! i) as [u|]; simpl; [|done]. by intros [= <-].
Qed.

Lemma IndexOrdered_data (l l0 : list Tab) :
  data <$> l = data <$> l0 -> IndexOrdered l0 -> IndexOrdered l.
Proof.
  intros Hd H0 i t Hi.
  apply (f_equal (fun m => m !! i)) in Hd. rewrite !list_lookup_fmap, Hi in Hd.
  destruct (l0 !! i) as [u|] eqn:Hu; simpl in Hd; [|done].
  injection Hd as ->. by apply H0.
Qed.

Lemma IndexOrdered_contiguous (l : list Tab) : IndexOrdered l -> ContiguousOrders l.
Proof.
  intros H. unfold ContiguousOrders.
  assert (E : (order ∘ data) <$> l
              = (fun i : nat => Some (Int (Z.of_nat i))) <$> seq 0 (length l)).
  { apply list_eq; intros i. rewrite !list_lookup_fmap.
    destruct (l !! i) as [t|] eqn:Hi; simpl.
    - rewrite (lookup_seq_lt 0 (length l) i) by (by eapply lookup_lt_Some).
      simpl. f_equal. by apply H.
    - by rewrite lookup_seq_ge by (by apply lookup_ge_None). }
  by rewrite E.
Qed.

Lemma IndexOrdered_recalculateIfCols (c : option Z) (l : list Tab) :
  is_Some (truthyNum c) -> recalculateIfCols c l = l -> IndexOrdered l.
Proof.
  unfold recalculateIfCols. intros [n ->] <-. apply IndexOrdered_recalculate.
Qed.

Lemma reorderTabs_rebuilds (now : string) (ws : Workspace) (worktreeId : string)
    (parentTabId : option string) (tabIds : list string) (g : Gateway)
    (wi : nat) (wt : Worktree) :
  findWorktree (worktrees ws) worktreeId = Some wi ->
  worktrees ws !! wi = Some wt ->
  let o := reorderTabs now ws worktreeId parentTabId tabIds g in
  result o = success () ->
  exists siblings ncols forest',
    locate (wt_tabs wt) (container parentTabId) = Some (siblings, ncols)
    /\ worktrees (workspace' o) !! wi = Some (setTabs forest' wt)
    /\ locate forest' (container parentTabId)
       = Some (recalculateTabPositions (omap (findById siblings) tabIds) ncols, ncols).
Proof.
  intros Hwt Hwi. unfold reorderTabs. rewrite Hwt, Hwi. simpl.
  destruct (locate (wt_tabs wt) (container parentTabId)) as [[siblings ncols]|] eqn:Hl; [|done].
  destruct (decide _) as [|_]; [done|]. intros _.
  eexists siblings, ncols, _. split; [done|].
  split; [simpl; by rewrite list_lookup_alter_eq, Hwi|].
  destruct (container parentTabId) as [|p]; [by injection Hl as <- <-|].
  apply locate_InGroup in Hl as (P & HP & Hg & -> & ->).
  apply locate_InGroup. eexists. split.
  - apply (findTab_mutateTab _ p _ P HP). by apply findTab_id in HP.
  - by repeat split.
Qed.

(** C1, as amended.  The sibling lists that an operation rebuilds carry their
    index as [order], so their [order] values are [0] to [n-1], each once:
    the list that a successful [reorderTabs] reordered; in a worktree with
    distinct tab ids, the source and the target list of a successful
    [moveTab], and the children of every group with [cols] set and not [0]
    that enclosed a tab deleted by a successful [deleteTab]. *)
Theorem rebuilt_lists_have_contiguous_orders (now : string) (ws : Workspace)
    (worktreeId : string) (g : Gateway) (wi : nat) (wt : Worktree) :
  findWorktree (worktrees ws) worktreeId = Some wi ->
  worktrees ws !! wi = Some wt ->
  (forall parentTabId tabIds,
     let o := reorderTabs now ws worktreeId parentTabId tabIds g in
     result o = success () ->
     exists forest' siblings' ncols,
       worktrees (workspace' o) !! wi = Some (setTabs forest' wt)
       /\ locate forest' (container parentTabId) = Some (siblings', ncols)
       /\ IndexOrdered siblings' /\ ContiguousOrders siblings')
  /\ (forall x srcP tgtP idx,
        NoDup (ids (wt_tabs wt)) ->
        let o := moveTab now ws worktreeId x srcP tgtP idx g in
        result o = success () ->
        exists forest' src' tgt' sc tc,
          worktrees (workspace' o) !! wi = Some (setTabs forest' wt)
          /\ locate forest' (container srcP) = Some (src', sc)
          /\ locate forest' (container tgtP) = Some (tgt', tc)
          /\ IndexOrdered src' /\ ContiguousOrders src'
          /\ IndexOrdered tgt' /\ ContiguousOrders tgt')
  /\ (forall x,
        NoDup (ids (wt_tabs wt)) ->
        let o := deleteTab now ws worktreeId x g in
        result o = success () ->
        exists forest',
          worktrees (workspace' o) !! wi = Some (setTabs forest' wt)
          /\ forall y G, findTab (wt_tabs wt) y = Some G -> x ∈ ids (kids G) ->
               is_Some (truthyNum (cols (data G))) ->
               exists G', findTab forest' y = Some G'
                          /\ IndexOrdered (kids G') /\ ContiguousOrders (kids G')).
Proof.
  intros Hwt Hwi. split; [|split].
  - intros parentTabId tabIds o Hok.
    destruct (reorderTabs_rebuilds now ws worktreeId parentTabId tabIds g wi wt Hwt Hwi Hok)
      as (siblings & ncols & forest' & _ & Hw & Hl).
    eexists forest', _, ncols. split; [done|]. split; [done|].
    split; [|apply IndexOrdered_contiguous]; apply IndexOrdered_recalculate.
  - intros x srcP tgtP idx Hnd o Hok.
    destruct (moveTab_success now ws worktreeId x srcP tgtP idx g wi wt Hwt Hwi Hnd Hok)
      as (sourceTabs & targetTabs & sc & tc & k & X & w4 & Hs & Ht & Hk & HX & Hw & Hm).
    unfold MovedTo in Hm. destruct (decide (container srcP = container tgtP)) as [Heq|Hne].
    + assert (E : sc = tc) by (rewrite Heq in Hs; congruence).
      eexists w4, _, _, sc, tc. split; [done|]. rewrite Heq at 1. rewrite E at 1.
      split; [exact Hm|]. split; [exact Hm|].
      repeat split; try apply IndexOrdered_contiguous; apply IndexOrdered_recalculate.
    + destruct Hm as (src' & tgt' & Hs' & Ht' & Hds & Hdt & _).
      exists w4, src', tgt', sc, tc. repeat (split; [done|]).
      assert (Hios : IndexOrdered src').
      { apply (IndexOrdered_data _ _ Hds), IndexOrdered_recalculate. }
      assert (Hiot : IndexOrdered tgt').
      { apply (IndexOrdered_data _ _ Hdt), IndexOrdered_recalculate. }
      repeat split; try done; by apply IndexOrdered_contiguous.
  - intros x Hnd. unfold deleteTab. rewrite Hwt, Hwi. simpl.
    destruct (removeTabRecursive (wt_tabs wt) x) as [forest'|] eqn:Hrm; [|done].
    intros _. exists forest'. split; [simpl; by rewrite list_lookup_alter_eq, Hwi|].
    intros y G HG Hx Hc.
    destruct (removeTabRecursive_enclosing (wt_tabs wt) x forest' y G Hnd Hrm HG Hx)
      as (G' & HG' & _ & Hrec & _).
    exists G'. split; [done|].
    assert (Hio : IndexOrdered (kids G')) by by apply (IndexOrdered_recalculateIfCols _ _ Hc).
    split; [done|]. by apply IndexOrdered_contiguous.
Qed.

Lemma rebuilt_lists_have_contiguous_orders_witness :
  let G := groupTab "g" 2 [leafTab "A"; leafTab "B"; leafTab "C"] in
  let ws := oneWorktree [G] in
  let o := reorderTabs "now" ws "wt" (Some "g"%string) ["C"; "A"; "B"]%string (gatewayWith ws) in
  result o = success ()
  /\ exists forest' siblings' ncols,
       worktrees (workspace' o) !! 0%nat
       = Some (setTabs forest' {| wt_id := "wt"; wt_branch := "main"; wt_path := "/repo";
                                  wt_tabs := [G];
                                  wt_createdAt := "2025-01-01T00:00:00.000Z" |})
       /\ locate forest' (InGroup "g") = Some (siblings', ncols)
       /\ IndexOrdered siblings' /\ ContiguousOrders siblings'.
Proof.
  intros G ws o. split; [reflexivity|].
  destruct (rebuilt_lists_have_contiguous_orders "now" ws "wt" (gatewayWith ws) 0%nat
              {| wt_id := "wt"; wt_branch := "main"; wt_path := "/repo";
                 wt_tabs := [G]; wt_createdAt := "2025-01-01T00:00:00.000Z" |}
              eq_refl eq_refl) as (Hreorder & _ & _).
  exact (Hreorder (Some "g"%string) ["C"; "A"; "B"]%string eq_refl).
Defined.

(** At the top level of a worktree [removeTabRecursive] splices and does not
    recalculate: with the top-level list [[T1; T2]] at orders [0] and [1],
    [deleteTab] of [T1] leaves [T2] at order [1]. *)
Example deleteTab_top_level_keeps_positions :
  let ws := oneWorktree [placedAt 0 2 (leafTab "T1"); placedAt 1 2 (leafTab "T2")] in
  let o := deleteTab "now" ws "wt" "T1" (gatewayWith ws) in
  result o = success ()
  /\ forestOf (workspace' o) = [placedAt 1 2 (leafTab "T2")].
Proof. split; reflexivity. Qed.

(** C1 as stated fails: [createTab] with a [row] and a [col] takes
    [order = row * cols + col] and recalculates nothing.  A tab created at
    row 1, column 1 of the empty group [g] with two columns is its only child
    and has [order = 3]. *)
Lemma createTab_leaves_sparse_order :
  ~ (forall now ws op g wt' p G,
       result (runOperation now ws op g) = true ->
       wt' ∈ worktrees (workspace' (runOperation now ws op g)) ->
       findTab (wt_tabs wt') p = Some G ->
       tab_type (data G) = group ->
       ContiguousOrders (tabsOrEmpty G)).
Proof.
  intros H.
  pose (ws := oneWorktree [groupTab "g" 2 []]).
  pose (op := CreateTab "id1" "now" (placedInput "g" "t" 1 1)).
  pose (o := runOperation "now" ws op (gatewayWith ws)).
  assert (Hin : exists wt', worktrees (workspace' o) = [wt']) by (eexists; reflexivity).
  destruct Hin as [wt' Hwt'].
  specialize (H "now"%string ws op (gatewayWith ws) wt' "g"%string).
  fold o in H. rewrite Hwt' in H. injection Hwt' as <-.
  specialize (H _ eq_refl ltac:(apply list_elem_of_here) eq_refl eq_refl).
  unfold ContiguousOrders in H. simpl in H.
  apply Permutation_singleton_r in H. discriminate H.
Qed.

(** ** What the checks of moveTab and reorderTabs do ensure *)

(** X28.  A failure of [moveTab] is one of three.  A check failed, with one
    of the four messages of the checks: neither the workspace nor the gateway
    has changed.  Or the checks passed and the last assignment raised the
    [TypeError]: the forest was changed, the workspace not stamped, nothing
    written.  Or the checks passed and the gateway threw in the save block:
    the forest was changed and the workspace stamped, nothing written.  With
    a gateway that does not throw, a failure that is not the [TypeError] has
    changed nothing. *)
Lemma moveTab_validation_failure (now : string) (ws : Workspace) (worktreeId x : string)
    (srcP tgtP : option string) (idx : Z) (g : Gateway) (e : string) :
  let o := moveTab now ws worktreeId x srcP tgtP idx g in
  result o = failure e ->
  (Working g -> e <> nullTabsError -> workspace' o = ws /\ gateway' o = g)
  /\ ((workspace' o = ws /\ gateway' o = g
       /\ e ∈ ["Worktree not found"; "Source parent tab not found";
               "Target parent tab not found"; "Tab not found in source"]%string)
      \/ exists wi wtabs',
           findWorktree (worktrees ws) worktreeId = Some wi
           /\ gateway' o = g
           /\ ((e = nullTabsError /\ workspace' o = setWorktreeTabs wi wtabs' ws)
               \/ (save (workspace' o) g = throws e
                   /\ workspace' o = setUpdatedAt now (setWorktreeTabs wi wtabs' ws)))).
Proof.
  assert (Hcheck : forall m : string,
            m ∈ ["Worktree not found"; "Source parent tab not found";
                 "Target parent tab not found"; "Tab not found in source"]%string ->
            let o := mkOutcome (failure (A:=unit) m) ws g in
            result o = failure e ->
            (Working g -> e <> nullTabsError -> workspace' o = ws /\ gateway' o = g)
            /\ ((workspace' o = ws /\ gateway' o = g
                 /\ e ∈ ["Worktree not found"; "Source parent tab not found";
                         "Target parent tab not found"; "Tab not found in source"]%string)
                \/ exists wi wtabs',
                     findWorktree (worktrees ws) worktreeId = Some wi
                     /\ gateway' o = g
                     /\ ((e = nullTabsError /\ workspace' o = setWorktreeTabs wi wtabs' ws)
                         \/ (save (workspace' o) g = throws e
                             /\ workspace' o
                                = setUpdatedAt now (setWorktreeTabs wi wtabs' ws))))).
  { intros m Hm o [= <-]. split; [done|]. by left. }
  unfold moveTab.
  destruct (findWorktree (worktrees ws) worktreeId) as [wi|] eqn:Hwt.
  2: { apply Hcheck. compute_done. }
  destruct (locate _ _) as [[? ?]|]; [|apply Hcheck; compute_done].
  destruct (locate _ _) as [[? ?]|]; [|apply Hcheck; compute_done].
  destruct (findIndex _ _); [|apply Hcheck; compute_done].
  destruct (findById _ _); [|apply Hcheck; compute_done].
  destruct (moveInForest _ _ _ _ _ _ _ _) as [w|w].
  - unfold commit. simpl. destruct (save _ g) as [g'|e'] eqn:Hs; [done|].
    intros [= <-]. split.
    + intros Hg. by rewrite (save_Working _ _ Hg) in Hs.
    + right. exists wi, w. split; [done|]. split; [done|]. by right.
  - simpl. intros [= <-]. split; [done|].
    right. exists wi, w. split; [done|]. split; [done|]. by left.
Qed.

Lemma findById_id (l : list Tab) (x : string) (t : Tab) :
  findById l x = Some t -> tab_id (data t) = x /\ t ∈ l.
Proof.
  unfold findById. destruct (findIndex l x) as [i|] eqn:Hi; simpl; [|done].
  intros Ht. destruct (findIndex_Some _ _ _ Hi) as (u & Hu & Hid & _).
  rewrite Hu in Ht. injection Ht as <-. split; [done|]. by eapply list_elem_of_lookup_2.
Qed.

Lemma omap_findById_ids (l : list Tab) (tabIds : list string) :
  sublist ((tab_id ∘ data) <$> omap (findById l) tabIds) tabIds.
Proof.
  induction tabIds as [|x tabIds IH]; [constructor|]. simpl.
  destruct (findById l x) as [t|] eqn:Ht; simpl.
  - destruct (findById_id _ _ _ Ht) as [-> _]. by apply sublist_skip.
  - by apply sublist_cons.
Qed.

Lemma omap_findById_incl (l : list Tab) (tabIds : list string) (x : string) :
  x ∈ (tab_id ∘ data) <$> omap (findById l) tabIds -> x ∈ (tab_id ∘ data) <$> l.
Proof.
  intros (t & -> & Ht)%list_elem_of_fmap.
  apply list_elem_of_omap in Ht as (y & _ & Hy).
  apply findById_id in Hy as [_ Hin]. apply list_elem_of_fmap. eauto.
Qed.

(** X30.  When no id occurs twice in [tabIds] and no two siblings share an
    id, the count check admits only lists that name every sibling. *)
Lemma reorderTabs_count_check (siblings : list Tab) (tabIds : list string) :
  NoDup tabIds -> NoDup ((tab_id ∘ data) <$> siblings) ->
  length (omap (findById siblings) tabIds) = length siblings ->
  forall t, t ∈ siblings -> tab_id (data t) ∈ tabIds.
Proof.
  intros Hnd Hnds Hlen t Ht.
  pose proof (omap_findById_ids siblings tabIds) as Hsub.
  assert (Hndr : NoDup ((tab_id ∘ data) <$> omap (findById siblings) tabIds)).
  { by apply (sublist_NoDup _ tabIds). }
  assert (Hperm : (tab_id ∘ data) <$> omap (findById siblings) tabIds
                  ≡ₚ (tab_id ∘ data) <$> siblings).
  { apply submseteq_length_Permutation.
    - apply NoDup_submseteq; [done|]. apply omap_findById_incl.
    - rewrite !length_fmap. lia. }
  assert (Hin : tab_id (data t) ∈ (tab_id ∘ data) <$> omap (findById siblings) tabIds).
  { rewrite Hperm. apply list_elem_of_fmap. by exists t. }
  eapply elem_of_submseteq; [exact Hin|]. by apply sublist_submseteq.
Qed.

(** [createTab] under a parent that is not a group: the failure of the
    scenario of C2, which leaves workspace and gateway as they were. *)
Lemma createTab_invalid_parent (uuid createdNow now : string) (ws : Workspace)
    (input : CreateTabInput) (g : Gateway) (wi : nat) (wt : Worktree) (p : string) (P : Tab) :
  findWorktree (worktrees ws) (in_worktreeId input) = Some wi ->
  worktrees ws !! wi = Some wt ->
  truthyId (in_parentTabId input) = Some p ->
  findTab (wt_tabs wt) p = Some P -> tab_type (data P) <> group ->
  createTab uuid createdNow now ws input g
  = mkOutcome (failure "Parent tab not found or not a group") ws g.
Proof.
  intros Hwt Hwi Hp HP Hty. unfold createTab. rewrite Hwt, Hwi, Hp. simpl. rewrite HP.
  simpl. by rewrite bool_decide_eq_false_2.
Qed.

(** In a forest with distinct ids, a move into a group that lies in the moved
    tab ends in the [TypeError], after the tab and all below it have left the
    forest. *)
Lemma moveInForest_thrown (w0 : list Tab) (src : Container) (t : string)
    (sourceTabs : list Tab) (sc tc : Z) (x : string) (k : nat) (X : Tab) (idx : Z) :
  NoDup (ids w0) ->
  locate w0 src = Some (sourceTabs, sc) ->
  findIndex sourceTabs x = Some k -> sourceTabs !! k = Some X ->
  t ∈ idsIn X ->
  exists w, moveInForest w0 src (InGroup t) k X idx sc tc = thrown w
            /\ forall y, y ∈ idsIn X -> y ∉ ids w.
Proof.
  intros Hnd Hs Hk HX Hin. unfold moveInForest.
  set (f2 := fun p => match tabs p with
                      | Some l => withTabs (spliceIn l idx X) p
                      | None => p end).
  destruct src as [|s].
  - injection Hs as <- <-.
    pose proof (ids_delete w0 k X HX) as Hperm.
    rewrite Hperm in Hnd. apply NoDup_app in Hnd as (_ & Hdisj & _).
    set (w1 := delete k w0) in *.
    assert (H1 : findTab w1 t = None) by (apply findTab_None; auto).
    rewrite (mutateTab_absent w1 t f2 H1).
    assert (H3 : findTab (recalculateTabPositions w1 2) t = None).
    { apply findTab_None. rewrite ids_recalculate. auto. }
    rewrite (proj2 (updateTab_None _ t _) H3).
    eexists. split; [done|]. intros y Hy. rewrite ids_recalculate. auto.
  - apply locate_InGroup in Hs as (S & HS & HgS & -> & ->).
    pose proof (findTab_id _ _ _ HS) as HidS.
    destruct (source_not_in_moved w0 s S k X Hnd HS HgS HX) as [HsX _].
    destruct (source_group S x k HgS Hk) as [_ HgtS].
    set (f1 := fun p => withTabs (delete k (tabsOrEmpty p)) p).
    set (f3 := fun p => withTabs (recalculateTabPositions (tabsOrEmpty p) _) p).
    pose proof (mutateTab_found w0 s f1 S HS) as R1.
    pose proof (findTab_mutateTab w0 s f1 S HS HidS) as H1s.
    set (w1 := mutateTab w0 s f1) in *.
    pose proof (ids_spliced_out w0 w1 s S k X R1 HgtS HX) as Hperm1.
    rewrite Hperm1 in Hnd. apply NoDup_app in Hnd as (_ & Hdisj & _).
    assert (H1 : findTab w1 t = None) by (apply findTab_None; auto).
    rewrite (mutateTab_absent w1 t f2 H1).
    destruct (updateTab_found w1 s f3 _ H1s HidS) as (w3 & Hu3 & H3 & R3).
    rewrite Hu3.
    assert (Hids : ids w3 = ids w1).
    { destruct (Replaced_ids _ _ _ _ _ R3) as (pre & post & E1 & E3).
      rewrite E3. unfold f3, f1. rewrite (idsIn_withTabs _ _ _ (groupTabs_withTabs _ _ _ HgtS)).
      rewrite ids_recalculate, tabsOrEmpty_withTabs.
      rewrite <- (idsIn_withTabs _ _ _ HgtS). fold (f1 S). by rewrite <- E1. }
    assert (H3t : findTab w3 t = None).
    { apply findTab_None. rewrite Hids. auto. }
    destruct (decide (InGroup s = InGroup t)) as [[= ->]|_]; [done|].
    rewrite (proj2 (updateTab_None _ t _) H3t).
    eexists. split; [done|]. intros y Hy. rewrite Hids. auto.
Qed.

(** X29.  In a worktree whose tab ids are distinct, a [moveTab] whose
    target group is the moved tab or lies inside it passes the checks and
    then returns the failure of the [TypeError]: it has written nothing and
    has not stamped the workspace, and the moved tab is gone from the
    forest. *)
Lemma moveTab_into_moved_subtree (now : string) (ws : Workspace) (worktreeId x : string)
    (srcP : option string) (t : string) (idx : Z) (g : Gateway) (wi : nat) (wt : Worktree)
    (sourceTabs : list Tab) (sc : Z) (X T : Tab) :
  findWorktree (worktrees ws) worktreeId = Some wi ->
  worktrees ws !! wi = Some wt ->
  NoDup (ids (wt_tabs wt)) ->
  locate (wt_tabs wt) (container srcP) = Some (sourceTabs, sc) ->
  findById sourceTabs x = Some X ->
  t <> EmptyString -> findTab (wt_tabs wt) t = Some T -> tab_type (data T) = group ->
  t ∈ idsIn X ->
  let o := moveTab now ws worktreeId x srcP (Some t) idx g in
  result o = failure nullTabsError
  /\ gateway' o = g
  /\ updatedAt (workspace' o) = updatedAt ws
  /\ exists forest',
       worktrees (workspace' o) !! wi = Some (setTabs forest' wt)
       /\ findTab forest' x = None.
Proof.
  intros Hwt Hwi Hnd Hs HX Ht HT HgT Hin. unfold moveTab. rewrite Hwt, Hwi. simpl.
  rewrite Hs.
  assert (Hc : container (Some t) = InGroup t).
  { unfold container, truthyId. by destruct (decide (t = EmptyString)). }
  rewrite Hc.
  assert (Hlt : locate (wt_tabs wt) (InGroup t)
                = Some (tabsOrEmpty T, orElse (cols (data T)) 2)).
  { apply locate_InGroup. by exists T. }
  rewrite Hlt, HX.
  unfold findById in HX. destruct (findIndex sourceTabs x) as [k|] eqn:Hk; simpl in HX; [|done].
  destruct (moveInForest_thrown (wt_tabs wt) (container srcP) t sourceTabs sc
              (orElse (cols (data T)) 2) x k X idx Hnd Hs Hk HX Hin) as (w & -> & Hw).
  simpl. repeat split. exists w. split; [by rewrite list_lookup_alter_eq, Hwi|].
  apply findTab_None, Hw.
  destruct (findIndex_Some _ _ _ Hk) as (X' & HX' & Hid & _).
  assert (X' = X) as -> by congruence. rewrite <- Hid. apply idsIn_head.
Qed.

(** * Further properties of the helpers and the operations *)

(** ** The two searches *)

Lemma findParentTabIn_unfold (x : string) (t : Tab) :
  findParentTabIn x t =
  match groupTabs t with
  | Some sub => if someId sub x then Some t else findParentTab sub x
  | None => None
  end.
Proof.
  destruct t as [d [sub|]]; unfold groupTabs; simpl; by destruct (decide _).
Qed.

Lemma findParentTab_cons (x : string) (t : Tab) (rest : list Tab) :
  findParentTab (t :: rest) x =
  match findParentTabIn x t with Some r => Some r | None => findParentTab rest x end.
Proof. done. Qed.

Lemma someId_true (l : list Tab) (x : string) :
  someId l x = true <-> exists i, findIndex l x = Some i.
Proof. unfold someId. rewrite bool_decide_eq_true. reflexivity. Qed.

Lemma someId_false (l : list Tab) (x : string) :
  someId l x = false <-> findIndex l x = None.
Proof.
  unfold someId. rewrite bool_decide_eq_false, <- eq_None_not_Some. reflexivity.
Qed.

Lemma ids_nested (l : list Tab) : ids l ≡ₚ ((tab_id ∘ data) <$> l) ++ nestedIds l.
Proof.
  induction l as [|t rest IH]; [done|].
  rewrite ids_cons. simpl. rewrite IH.
  change (nestedIds (t :: rest)) with (ids (kids t) ++ nestedIds rest).
  apply Permutation_skip. solve_Permutation.
Qed.

Lemma findIndex_top (l : list Tab) (x : string) :
  is_Some (findIndex l x) <-> x ∈ (tab_id ∘ data) <$> l.
Proof.
  induction l as [|t rest IH]; simpl.
  - split; [by intros [? ?]|by intros ?%elem_of_nil].
  - destruct (decide (tab_id (data t) = x)) as [<-|Hne].
    + split; [intros _; apply list_elem_of_here|by eauto].
    + rewrite fmap_is_Some, IH, elem_of_cons. naive_solver.
Qed.

(** [findParentTab] finds a group exactly for the ids that lie below some tab
    of the list. *)
Lemma findParentTab_is_Some (l : list Tab) (x : string) :
  is_Some (findParentTab l x) <-> x ∈ nestedIds l.
Proof.
  induction l as [|t rest IHsub IHrest] using forest_ind.
  - split; [by intros [? ?]|by intros ?%elem_of_nil].
  - rewrite findParentTab_cons, findParentTabIn_unfold.
    change (nestedIds (t :: rest)) with (ids (kids t) ++ nestedIds rest).
    rewrite elem_of_app, <- IHrest.
    destruct (groupTabs t) as [sub|] eqn:Hg.
    + rewrite (kids_groupTabs _ _ Hg).
      specialize (IHsub sub (groupTabs_tabs _ _ Hg)).
      rewrite (ids_nested sub), elem_of_app, <- IHsub, <- findIndex_top.
      destruct (someId sub x) eqn:Hs.
      * apply someId_true in Hs. split; [intros _; left; left; exact Hs|by eauto].
      * apply someId_false in Hs. rewrite Hs.
        destruct (findParentTab sub x) eqn:Hp.
        -- split; [intros _; left; right; by eauto|by eauto].
        -- split; [by right|].
           intros [[[? ?]|[? ?]]|H]; done.
    + rewrite (kids_None _ Hg).
      split; [by right|]. intros [?%elem_of_nil|H]; done.
Qed.

Lemma findParentTab_None (l : list Tab) (x : string) :
  findParentTab l x = None <-> x ∉ nestedIds l.
Proof. rewrite <- findParentTab_is_Some, eq_None_not_Some. reflexivity. Qed.

Lemma findParentTab_child (l : list Tab) (x : string) (P : Tab) :
  findParentTab l x = Some P ->
  tab_type (data P) = group
  /\ tab_id (data P) ∈ ids l
  /\ exists sub i c,
       tabs P = Some sub /\ findIndex sub x = Some i
       /\ sub !! i = Some c /\ tab_id (data c) = x.
Proof.
  revert P. induction l as [|t rest IHsub IHrest] using forest_ind; intros P; [done|].
  rewrite findParentTab_cons, findParentTabIn_unfold, ids_cons.
  destruct (groupTabs t) as [sub|] eqn:Hg.
  - rewrite (kids_groupTabs _ _ Hg).
    destruct (someId sub x) eqn:Hs.
    + intros [= <-]. apply someId_true in Hs as [i Hi].
      split. { unfold groupTabs in Hg. by destruct (decide _). }
      split. { apply list_elem_of_here. }
      destruct (findIndex_Some _ _ _ Hi) as (c & Hc & Hid & _).
      exists sub, i, c. by rewrite (groupTabs_tabs _ _ Hg).
    + destruct (findParentTab sub x) as [P'|] eqn:Hp.
      * intros [= <-].
        destruct (IHsub sub (groupTabs_tabs _ _ Hg) P' Hp) as (Hty & Hin & Hch).
        split; [done|]. split; [|done].
        apply elem_of_cons. right. apply elem_of_app. left. exact Hin.
      * intros H. destruct (IHrest P H) as (Hty & Hin & Hch).
        split; [done|]. split; [|done].
        apply elem_of_cons. right. apply elem_of_app. right. exact Hin.
  - intros H. destruct (IHrest P H) as (Hty & Hin & Hch).
    split; [done|]. split; [|done].
    apply elem_of_cons. right. apply elem_of_app. right. exact Hin.
Qed.

(** X1.  What the two searches return carries what was searched for:
    [findTab] returns a tab with the given id, and returns [null] exactly
    when no tab it can reach has it; [findParentTab] returns a tab of type
    "group" that holds a tab with the given id directly in its [tabs], and
    returns [null] exactly when the id occurs in no group's list.  No
    assumption on the forest. *)
Theorem searches_return_what_was_asked (l : list Tab) (x : string) :
  (forall p, findTab l x = Some p -> tab_id (data p) = x)
  /\ (findTab l x = None <-> x ∉ ids l)
  /\ (forall P, findParentTab l x = Some P ->
        isValidParentTab (Some P) = true
        /\ exists sub c, tabs P = Some sub /\ findById sub x = Some c
                         /\ c ∈ sub /\ tab_id (data c) = x)
  /\ (findParentTab l x = None <-> x ∉ nestedIds l).
Proof.
  split; [intros p; apply findTab_id|].
  split; [apply findTab_None|].
  split; [|apply findParentTab_None].
  intros P HP. destruct (findParentTab_child _ _ _ HP) as (Hty & _ & sub & i & c & Hs & Hi & Hc & Hid).
  split; [by apply bool_decide_eq_true|].
  exists sub, c. split; [done|]. split; [by rewrite (findById_Some _ _ _ Hi)|].
  split; [by eapply list_elem_of_lookup_2|done].
Qed.

(** In a forest with distinct ids, a tab below the one that [findTab]
    returns for [y] is what [findTab] on the forest returns for its id. *)
Lemma findTab_below (l : list Tab) (y z : string) (G : Tab) :
  NoDup (ids l) -> findTab l y = Some G -> z ∈ ids (kids G) ->
  findTab l z = findTab (kids G) z.
Proof.
  intros Hnd HG Hz.
  destruct (findTab_updateTab l y (fun p => p) G HG) as (l' & _ & Hrep).
  assert (Hne : z <> y).
  { intros ->. pose proof (findTab_NoDup _ _ _ Hnd HG) as HndG.
    rewrite idsIn_unfold, (findTab_id _ _ _ HG) in HndG.
    by apply NoDup_cons in HndG as [? _]. }
  simpl in Hrep.
  exact (proj1 (Replaced_inside y z G G l l' Hrep Hnd (findTab_id _ _ _ HG) Hne
                  (kids_ids_incl _ _ Hz))).
Qed.

(** X2.  In a forest whose ids are distinct the two searches agree:
    [findParentTab] returns [null] exactly for the ids that [findTab] does
    not find and for those of the top-level tabs, and otherwise the group it
    returns is the one [findTab] finds under the group's own id, with the tab
    that [findTab] finds for the given id among its children. *)
Theorem findParentTab_agrees_with_findTab (l : list Tab) (x : string) :
  NoDup (ids l) ->
  (findParentTab l x = None <-> findTab l x = None \/ is_Some (findIndex l x))
  /\ (forall P, findParentTab l x = Some P ->
        findTab l (tab_id (data P)) = Some P
        /\ exists c, findTab l x = Some c /\ c ∈ tabsOrEmpty P).
Proof.
  intros Hnd. split.
  - rewrite findParentTab_None, findTab_None, findIndex_top.
    pose proof (ids_nested l) as Hperm. rewrite Hperm in Hnd.
    apply NoDup_app in Hnd as (_ & Hdisj & _).
    rewrite Hperm, elem_of_app. split.
    + intros Hn. destruct (decide (x ∈ (tab_id ∘ data) <$> l)); [by right|].
      left. by intros [?|?].
    + intros [Hn|Htop]; [by auto|]. by apply Hdisj.
  - revert Hnd. induction l as [|t rest IHsub IHrest] using forest_ind; intros Hnd P; [done|].
    rewrite findParentTab_cons, findParentTabIn_unfold, !findTab_cons, !findTabIn_kids.
    rewrite ids_cons in Hnd. simpl in Hnd.
    apply NoDup_cons in Hnd as [Hhead Hnd].
    apply NoDup_app in Hnd as (Hsub & Hdisj & Hrest).
    rewrite elem_of_app in Hhead.
    destruct (groupTabs t) as [sub|] eqn:Hg.
    + rewrite (kids_groupTabs _ _ Hg) in *.
      destruct (someId sub x) eqn:Hs.
      * intros [= <-]. rewrite decide_True by done. split; [done|].
        apply someId_true in Hs as [i Hi].
        destruct (findIndex_Some _ _ _ Hi) as (c & Hc & Hid & _).
        assert (Hx : x ∈ ids sub) by (by eapply findIndex_ids).
        rewrite decide_False by (intros E; rewrite E in Hhead; by auto).
        subst x. rewrite (lookup_findTab _ _ _ Hsub Hc).
        exists c. split; [done|].
        unfold tabsOrEmpty. rewrite (groupTabs_tabs _ _ Hg). simpl.
        by eapply list_elem_of_lookup_2.
      * destruct (findParentTab sub x) as [P'|] eqn:Hp.
        -- intros [= <-].
           destruct (IHsub sub (groupTabs_tabs _ _ Hg) Hsub P' Hp) as (HP & c & Hc & Hin).
           assert (HinP : tab_id (data P') ∈ ids sub).
           { apply findTab_is_Some. rewrite HP. by eauto. }
           assert (Hinx : x ∈ ids sub).
           { apply findTab_is_Some. rewrite Hc. by eauto. }
           rewrite !decide_False by (intros E; rewrite E in Hhead; by auto).
           rewrite HP, Hc. by eauto.
        -- intros H. destruct (IHrest Hrest P H) as (HP & c & Hc & Hin).
           assert (HinP : tab_id (data P) ∈ ids rest).
           { apply findTab_is_Some. rewrite HP. by eauto. }
           assert (Hinx : x ∈ ids rest).
           { apply findTab_is_Some. rewrite Hc. by eauto. }
           rewrite !decide_False by (intros E; rewrite E in Hhead; by auto).
           rewrite (proj2 (findTab_None sub (tab_id (data P)))) by (intros ?; by eapply Hdisj).
           rewrite (proj2 (findTab_None sub x)) by (intros ?; by eapply Hdisj).
           rewrite HP, Hc. by eauto.
    + rewrite (kids_None _ Hg) in *.
      intros H. destruct (IHrest Hrest P H) as (HP & c & Hc & Hin).
      assert (HinP : tab_id (data P) ∈ ids rest).
      { apply findTab_is_Some. rewrite HP. by eauto. }
      assert (Hinx : x ∈ ids rest).
      { apply findTab_is_Some. rewrite Hc. by eauto. }
      rewrite !decide_False by (intros E; rewrite E in Hhead; by auto).
      simpl. rewrite HP, Hc. by eauto.
Qed.

Lemma findParentTab_agrees_with_findTab_witness :
  let inner := groupTab "h" 2 [leafTab "c"] in
  let l := [leafTab "t"; groupTab "g" 2 [leafTab "a"; inner]] in
  NoDup (ids l)
  /\ findParentTab l "t" = None
  /\ findParentTab l "c" = Some inner
  /\ findTab l "h" = Some inner.
Proof.
  intros inner l.
  assert (Hnd : NoDup (ids l)) by compute_done.
  split; [exact Hnd|].
  destruct (findParentTab_agrees_with_findTab l "t" Hnd) as [Hnone _].
  destruct (findParentTab_agrees_with_findTab l "c" Hnd) as [_ Hsome].
  split; [apply Hnone; right; by eexists|].
  split; [reflexivity|].
  exact (proj1 (Hsome inner eq_refl)).
Defined.

(** ** deleteTab *)

Lemma findWorktree_alter (f : Worktree -> Worktree) (i : nat) (l : list Worktree) (x : string) :
  (forall wt, wt_id (f wt) = wt_id wt) ->
  findWorktree (alter f i l) x = findWorktree l x.
Proof.
  intros Hf. revert i. induction l as [|wt rest IH]; intros i; [done|].
  destruct i as [|i]; simpl.
  - by rewrite Hf.
  - change (list_alter f i rest) with (alter f i rest). by rewrite IH.
Qed.

Lemma findWorktree_setWorktreeTabs (ws : Workspace) (wi : nat) (l : list Tab) (x : string) :
  findWorktree (worktrees (setWorktreeTabs wi l ws)) x = findWorktree (worktrees ws) x.
Proof. simpl. by apply findWorktree_alter. Qed.

Lemma removeTabIn_None (x : string) (t : Tab) :
  removeTabIn x t = None <-> x ∉ ids (kids t).
Proof.
  rewrite removeTabIn_unfold. destruct (groupTabs t) as [sub|] eqn:Hg.
  - rewrite (kids_groupTabs _ _ Hg), <- removeTabRecursive_None.
    by destruct (removeTabRecursive sub x).
  - rewrite (kids_None _ Hg). split; [intros _ ?%elem_of_nil; done|done].
Qed.

(** The tabs that [findTab] finds after a removal were found before it, with
    the same properties but [order], [row] and [col]. *)
Lemma removeTabRecursive_survivors (l : list Tab) (x : string) :
  forall l' y q',
    NoDup (ids l) -> removeTabRecursive l x = Some l' ->
    findTab l' y = Some q' ->
    exists q, findTab l y = Some q /\ data (erasePosition q') = data (erasePosition q).
Proof.
  induction l as [|t rest IHsub IHrest] using forest_ind; intros l' y q' Hnd Hr Hy; [done|].
  rewrite removeTabRecursive_cons in Hr.
  rewrite ids_cons in Hnd. simpl in Hnd.
  apply NoDup_cons in Hnd as [Hhead Hnd].
  apply NoDup_app in Hnd as (Hsub & Hdisj & Hrest).
  rewrite elem_of_app in Hhead.
  rewrite findTab_cons, findTabIn_kids.
  destruct (decide (tab_id (data t) = x)) as [Hx|Hx].
  { injection Hr as <-.
    assert (Hin : y ∈ ids rest) by (apply findTab_is_Some; by eauto).
    rewrite decide_False by (intros E; rewrite E in Hhead; by auto).
    rewrite (proj2 (findTab_None (kids t) y)) by (intros ?; by eapply Hdisj).
    by eauto. }
  destruct (findIndex rest x) as [i|] eqn:Hi.
  { injection Hr as <-. rewrite findTab_cons, findTabIn_kids in Hy.
    destruct (decide (tab_id (data t) = y)); [by eauto|].
    destruct (findTab (kids t) y); [by eauto|].
    destruct (findIndex_Some _ _ _ Hi) as (X & HX & _ & _).
    rewrite (findTab_delete _ _ X) in Hy; [by eauto|done|].
    assert (Hin : y ∈ ids (delete i rest)) by (apply findTab_is_Some; by eauto).
    pose proof (ids_delete _ _ _ HX) as Hperm. rewrite Hperm in Hrest.
    apply NoDup_app in Hrest as (_ & Hd & _). intros ?. by eapply Hd. }
  destruct (removeTabIn x t) as [t'|] eqn:Ht.
  { injection Hr as <-. rewrite removeTabIn_unfold in Ht.
    destruct (groupTabs t) as [sub|] eqn:Hg; [|done].
    destruct (removeTabRecursive sub x) as [sub'|] eqn:Hs; [|done].
    injection Ht as <-. rewrite (kids_groupTabs _ _ Hg) in *.
    rewrite findTab_cons, findTabIn_kids, data_withTabs, (kids_withTabs _ _ _ Hg) in Hy.
    destruct (decide (tab_id (data t) = y)).
    { injection Hy as <-. by eauto. }
    pose proof (findTab_recalculateIfCols (cols (data t)) sub' y) as Hpay.
    destruct (findTab (recalculateIfCols (cols (data t)) sub') y) as [q1|] eqn:Hq1.
    - injection Hy as <-.
      destruct (findTab sub' y) as [q0|] eqn:Hq0; [|done]. simpl in Hpay.
      destruct (IHsub sub (groupTabs_tabs _ _ Hg) sub' y q0 Hsub Hs Hq0) as (q & Hq & Hd).
      rewrite Hq. exists q. split; [done|]. by rewrite Hpay.
    - assert (Hin : y ∈ ids rest) by (apply findTab_is_Some; by eauto).
      rewrite (proj2 (findTab_None sub y)) by (intros ?; by eapply Hdisj).
      by eauto. }
  destruct (removeTabRecursive rest x) as [rest'|] eqn:Hrr; [|done].
  injection Hr as <-. rewrite findTab_cons, findTabIn_kids in Hy.
  destruct (decide (tab_id (data t) = y)); [by eauto|].
  destruct (findTab (kids t) y); [by eauto|].
  by eapply IHrest.
Qed.

(** X3.  With a gateway that does not throw, [deleteTab] on an existing
    worktree succeeds exactly when [findTab] finds the id in the worktree's
    forest; with any gateway it succeeds only then, and when the id is not
    found it returns "Tab not found" and has changed nothing.  No assumption
    on the forest. *)
Theorem deleteTab_succeeds_iff_found (now : string) (ws : Workspace)
    (worktreeId x : string) (g : Gateway) (wi : nat) (wt : Worktree) :
  findWorktree (worktrees ws) worktreeId = Some wi ->
  worktrees ws !! wi = Some wt ->
  let o := deleteTab now ws worktreeId x g in
  (Working g -> (result o = success () <-> is_Some (findTab (wt_tabs wt) x)))
  /\ (result o = success () -> is_Some (findTab (wt_tabs wt) x))
  /\ (findTab (wt_tabs wt) x = None ->
        o = mkOutcome (failure "Tab not found") ws g).
Proof.
  intros Hwt Hwi. unfold deleteTab. rewrite Hwt, Hwi; simpl.
  destruct (removeTabRecursive (wt_tabs wt) x) as [l'|] eqn:Hr; simpl.
  - assert (Hin : x ∈ ids (wt_tabs wt)).
    { destruct (decide (x ∈ ids (wt_tabs wt))) as [|Hn]; [done|].
      apply removeTabRecursive_None in Hn. congruence. }
    apply findTab_is_Some in Hin. split; [|split; [done|]].
    + intros Hg. by rewrite (save_Working _ _ Hg).
    + intros Hnone. rewrite Hnone in Hin. by destruct Hin.
  - apply removeTabRecursive_None, findTab_None in Hr. rewrite Hr.
    split; [|done]. intros _. split; [done|]. by intros [? ?].
Qed.

Lemma deleteTab_succeeds_iff_found_witness :
  let ws := oneWorktree [groupTab "g" 2 [leafTab "a"]; leafTab "t"] in
  result (deleteTab "now" ws "wt" "a" (gatewayWith ws)) = success ()
  /\ deleteTab "now" ws "wt" "b" (gatewayWith ws)
     = mkOutcome (failure "Tab not found") ws (gatewayWith ws).
Proof.
  intros ws.
  destruct (deleteTab_succeeds_iff_found "now" ws "wt" "a" (gatewayWith ws) 0%nat
              {| wt_id := "wt"; wt_branch := "main"; wt_path := "/repo";
                 wt_tabs := [groupTab "g" 2 [leafTab "a"]; leafTab "t"];
                 wt_createdAt := "2025-01-01T00:00:00.000Z" |} eq_refl eq_refl)
    as [Hiff _].
  destruct (deleteTab_succeeds_iff_found "now" ws "wt" "b" (gatewayWith ws) 0%nat
              {| wt_id := "wt"; wt_branch := "main"; wt_path := "/repo";
                 wt_tabs := [groupTab "g" 2 [leafTab "a"]; leafTab "t"];
                 wt_createdAt := "2025-01-01T00:00:00.000Z" |} eq_refl eq_refl)
    as (_ & _ & Hnone).
  split; [apply (Hiff (Working_gatewayWith ws)); by eexists|]. apply Hnone. reflexivity.
Defined.

(** X4.  In a worktree whose tab ids are distinct, a successful [deleteTab]
    removes the tab and what lies below it, and nothing else: the ids left
    are distinct again, a tab is found afterwards exactly when it was found
    before and does not belong to the removed subtree, and what is found has
    the properties it had, apart from [order], [row] and [col]. *)
Theorem deleteTab_removes_exactly_the_subtree (now : string) (ws : Workspace)
    (worktreeId x : string) (g : Gateway) (wi : nat) (wt : Worktree) (X : Tab) :
  findWorktree (worktrees ws) worktreeId = Some wi ->
  worktrees ws !! wi = Some wt ->
  NoDup (ids (wt_tabs wt)) ->
  findTab (wt_tabs wt) x = Some X ->
  let o := deleteTab now ws worktreeId x g in
  exists forest',
    worktrees (workspace' o) !! wi = Some (setTabs forest' wt)
    /\ NoDup (ids forest')
    /\ ids (wt_tabs wt) ≡ₚ idsIn X ++ ids forest'
    /\ (forall y, is_Some (findTab forest' y)
                  <-> is_Some (findTab (wt_tabs wt) y) /\ y ∉ idsIn X)
    /\ (forall y q', findTab forest' y = Some q' ->
          exists q, findTab (wt_tabs wt) y = Some q
                    /\ data (erasePosition q') = data (erasePosition q)).
Proof.
  intros Hwt Hwi Hnd Hf. unfold deleteTab. rewrite Hwt, Hwi; simpl.
  destruct (removeTabRecursive (wt_tabs wt) x) as [l'|] eqn:Hr.
  2: { apply removeTabRecursive_None, findTab_None in Hr. congruence. }
  simpl. exists l'. split; [by rewrite list_lookup_alter_eq, Hwi|].
  pose proof (removeTabRecursive_ids _ _ _ _ Hnd Hf Hr) as Hperm.
  pose proof Hnd as Hnd'. rewrite Hperm in Hnd'.
  apply NoDup_app in Hnd' as (_ & Hdisj & Hnd').
  split; [done|]. split; [done|]. split.
  - intros y. rewrite !findTab_is_Some, Hperm, elem_of_app. split.
    + intros Hy. split; [by right|]. intros HX. by eapply Hdisj.
    + by intros [[?|?] ?].
  - intros y q' Hq'. by eapply removeTabRecursive_survivors.
Qed.

Lemma deleteTab_removes_exactly_the_subtree_witness :
  let inner := groupTab "h" 2 [leafTab "c"] in
  let G := groupTab "g" 2 [leafTab "a"; inner; leafTab "b"] in
  let ws := oneWorktree [leafTab "t"; G] in
  let o := deleteTab "now" ws "wt" "h" (gatewayWith ws) in
  exists forest',
    forestOf (workspace' o) = forest'
    /\ NoDup (ids forest')
    /\ is_Some (findTab forest' "b") /\ ~ is_Some (findTab forest' "c").
Proof.
  intros inner G ws o.
  assert (Hnd : NoDup (ids [leafTab "t"; G])) by compute_done.
  destruct (deleteTab_removes_exactly_the_subtree "now" ws "wt" "h" (gatewayWith ws) 0%nat
              {| wt_id := "wt"; wt_branch := "main"; wt_path := "/repo";
                 wt_tabs := [leafTab "t"; G];
                 wt_createdAt := "2025-01-01T00:00:00.000Z" |} inner
              eq_refl eq_refl Hnd eq_refl) as (forest' & Hw & Hnd' & _ & Hiff & _).
  exists forest'. split.
  { unfold forestOf, o. rewrite Hw. reflexivity. }
  split; [exact Hnd'|]. split.
  - apply Hiff. split; [by eexists|]. compute_done.
  - intros Hc. apply Hiff in Hc as [_ Hc]. apply Hc. compute_done.
Defined.

(** X5.  In a worktree whose tab ids are distinct, a [deleteTab] that went
    through cannot be repeated: the same call on the workspace and the gateway
    it left returns "Tab not found" and changes nothing. *)
Theorem deleteTab_twice_fails (now now2 : string) (ws : Workspace)
    (worktreeId x : string) (g : Gateway) (wi : nat) (wt : Worktree) :
  findWorktree (worktrees ws) worktreeId = Some wi ->
  worktrees ws !! wi = Some wt ->
  NoDup (ids (wt_tabs wt)) ->
  let o := deleteTab now ws worktreeId x g in
  result o = success () ->
  deleteTab now2 (workspace' o) worktreeId x (gateway' o)
  = mkOutcome (failure "Tab not found") (workspace' o) (gateway' o).
Proof.
  intros Hwt Hwi Hnd o.
  assert (Ho : o = match removeTabRecursive (wt_tabs wt) x with
                   | None => mkOutcome (failure "Tab not found") ws g
                   | Some l' => commit (success ()) now (setWorktreeTabs wi l' ws) g
                   end).
  { unfold o, deleteTab. by rewrite Hwt, Hwi. }
  clearbody o. subst o.
  destruct (removeTabRecursive (wt_tabs wt) x) as [l'|] eqn:Hr; [|done].
  intros _.
  destruct (findTab (wt_tabs wt) x) as [X|] eqn:Hf.
  2: { apply findTab_None, removeTabRecursive_None in Hf. congruence. }
  pose proof (removeTabRecursive_ids _ _ _ _ Hnd Hf Hr) as Hperm.
  rewrite Hperm in Hnd. apply NoDup_app in Hnd as (_ & Hdisj & _).
  assert (Hgone : removeTabRecursive l' x = None).
  { apply removeTabRecursive_None. apply Hdisj.
    rewrite <- (findTab_id _ _ _ Hf). apply idsIn_head. }
  unfold deleteTab. simpl.
  rewrite findWorktree_alter by done. rewrite Hwt.
  rewrite list_lookup_alter_eq, Hwi. simpl. by rewrite Hgone.
Qed.

Lemma deleteTab_twice_fails_witness :
  let ws := oneWorktree [groupTab "g" 2 [leafTab "a"; leafTab "b"]] in
  let o := deleteTab "now" ws "wt" "a" (gatewayWith ws) in
  result o = success ()
  /\ result (deleteTab "later" (workspace' o) "wt" "a" (gateway' o)) = failure "Tab not found".
Proof.
  intros ws o.
  assert (Hnd : NoDup (ids [groupTab "g" 2 [leafTab "a"; leafTab "b"]])) by compute_done.
  split; [reflexivity|]. unfold o.
  rewrite (deleteTab_twice_fails "now" "later" ws "wt" "a" (gatewayWith ws) 0%nat
             {| wt_id := "wt"; wt_branch := "main"; wt_path := "/repo";
                wt_tabs := [groupTab "g" 2 [leafTab "a"; leafTab "b"]];
                wt_createdAt := "2025-01-01T00:00:00.000Z" |} eq_refl eq_refl Hnd eq_refl).
  reflexivity.
Defined.

(** X6.  Deleting a top-level tab splices it out of the worktree's list and
    touches nothing else: the tabs that remain are the objects they were,
    [order], [row] and [col] included, since [removeTabRecursive]
    recalculates only inside groups; the call succeeds unless the gateway
    throws.  No assumption on the forest. *)
Theorem deleteTab_top_level_splices (now : string) (ws : Workspace)
    (worktreeId x : string) (g : Gateway) (wi i : nat) (wt : Worktree) :
  findWorktree (worktrees ws) worktreeId = Some wi ->
  worktrees ws !! wi = Some wt ->
  findIndex (wt_tabs wt) x = Some i ->
  let o := deleteTab now ws worktreeId x g in
  (Working g -> result o = success ())
  /\ worktrees (workspace' o) !! wi = Some (setTabs (delete i (wt_tabs wt)) wt)
  /\ (forall j, (j < i)%nat -> delete i (wt_tabs wt) !! j = wt_tabs wt !! j)
  /\ (forall j, (i <= j)%nat -> delete i (wt_tabs wt) !! j = wt_tabs wt !! S j).
Proof.
  intros Hwt Hwi Hi. unfold deleteTab, removeTabRecursive. rewrite Hwt, Hwi; simpl.
  rewrite Hi. simpl. split; [intros Hg; by rewrite (save_Working _ _ Hg)|].
  split; [by rewrite list_lookup_alter_eq, Hwi|].
  split; intros j Hj.
  - by apply list_lookup_delete_lt.
  - by apply list_lookup_delete_ge.
Qed.

Lemma deleteTab_top_level_splices_witness :
  let ws := oneWorktree [placedAt 0 2 (leafTab "T1"); placedAt 1 2 (leafTab "T2")] in
  let o := deleteTab "now" ws "wt" "T1" (gatewayWith ws) in
  result o = success ()
  /\ forestOf (workspace' o) = [placedAt 1 2 (leafTab "T2")].
Proof.
  intros ws o.
  destruct (deleteTab_top_level_splices "now" ws "wt" "T1" (gatewayWith ws) 0%nat 0%nat
              {| wt_id := "wt"; wt_branch := "main"; wt_path := "/repo";
                 wt_tabs := [placedAt 0 2 (leafTab "T1"); placedAt 1 2 (leafTab "T2")];
                 wt_createdAt := "2025-01-01T00:00:00.000Z" |} eq_refl eq_refl eq_refl)
    as (Hok & Hw & _).
  split; [exact (Hok (Working_gatewayWith ws))|]. unfold forestOf, o. rewrite Hw. reflexivity.
Defined.

(** ** recalculateTabPositions *)

(** X7.  Under a positive column count, recalculation lays the list out row
    by row on a grid of that many columns: every tab gets a row [>= 0] and a
    column in [0 .. cols-1] with [order = row * cols + col], and no two tabs
    of the list share a cell. *)
Theorem recalculateTabPositions_cells (l : list Tab) (ncols : Z) (i j : nat) (ti tj : Tab) :
  0 < ncols ->
  recalculateTabPositions l ncols !! i = Some ti ->
  recalculateTabPositions l ncols !! j = Some tj ->
  (exists r c,
     row (data ti) = Some (Int r) /\ col (data ti) = Some (Int c)
     /\ 0 <= r /\ 0 <= c < ncols
     /\ order (data ti) = Some (Int (r * ncols + c)))
  /\ (row (data tj) = row (data ti) -> col (data tj) = col (data ti) -> i = j).
Proof.
  intros Hn Hi Hj. rewrite lookup_recalculate in Hi, Hj.
  destruct (l !! i) as [t|]; [|done]. destruct (l !! j) as [u|]; [|done].
  injection Hi as <-. injection Hj as <-. simpl.
  rewrite !floorDiv_pos, !jsRem_pos by lia. split.
  - exists (Z.of_nat i `div` ncols), (Z.of_nat i `mod` ncols).
    split; [done|]. split; [done|].
    split; [apply Z.div_pos; lia|]. split; [apply Z.mod_pos_bound; lia|].
    do 2 f_equal. pose proof (Z.div_mod (Z.of_nat i) ncols). lia.
  - intros [= Hr] [= Hc].
    pose proof (Z.div_mod (Z.of_nat i) ncols).
    pose proof (Z.div_mod (Z.of_nat j) ncols).
    assert (Z.of_nat i = Z.of_nat j) by (rewrite H, H0, Hr, Hc by lia; done). lia.
Qed.

Lemma recalculateTabPositions_cells_witness :
  let l := recalculateTabPositions [leafTab "a"; leafTab "b"; leafTab "c"] 2 in
  exists t, l !! 2%nat = Some t
    /\ row (data t) = Some (Int 1) /\ col (data t) = Some (Int 0)
    /\ order (data t) = Some (Int 2).
Proof.
  intros l.
  destruct (recalculateTabPositions_cells [leafTab "a"; leafTab "b"; leafTab "c"] 2
              2%nat 2%nat (placedAt 2 2 (leafTab "c")) (placedAt 2 2 (leafTab "c"))
              ltac:(lia) eq_refl eq_refl) as [(r & c & Hr & Hc & _) _].
  exists (placedAt 2 2 (leafTab "c")). repeat split; reflexivity.
Defined.

(** X8.  The operations never recalculate with a column count of [0]: the
    count that [reorderTabs] and [moveTab] pass is [parentTab.cols || 2] or
    the literal [2], and [removeTabRecursive] recalculates under
    [if (tab.cols)] only.  So the rows and columns they write are integers,
    never [Infinity] or [NaN]. *)
Theorem operations_recalculate_with_nonzero_cols :
  (forall wtabs c siblings ncols i t,
     locate wtabs c = Some (siblings, ncols) ->
     recalculateTabPositions siblings ncols !! i = Some t ->
     ncols <> 0 /\ exists r k, row (data t) = Some (Int r) /\ col (data t) = Some (Int k))
  /\ (forall c l i t,
        recalculateIfCols c l !! i = Some t ->
        l !! i = Some t
        \/ exists r k, row (data t) = Some (Int r) /\ col (data t) = Some (Int k)).
Proof.
  assert (Hint : forall l n i t, n <> 0 -> recalculateTabPositions l n !! i = Some t ->
            exists r k, row (data t) = Some (Int r) /\ col (data t) = Some (Int k)).
  { intros l n i t Hn Ht. rewrite lookup_recalculate in Ht.
    destruct (l !! i); [|done]. injection Ht as <-. simpl.
    unfold floorDiv, jsRem. rewrite !decide_False by done. by eauto. }
  assert (Hor : forall o, orElse o 2 <> 0).
  { intros [z|]; unfold orElse, truthyNum; [|done].
    destruct (decide (z = 0)); simpl; [done|lia]. }
  split.
  - intros wtabs c siblings ncols i t Hloc Ht.
    assert (Hn : ncols <> 0).
    { destruct c as [|p]; simpl in Hloc.
      - by injection Hloc as _ <-.
      - destruct (isValidParentTab _); [|done].
        destruct (findTab wtabs p); [|done]. injection Hloc as _ <-. apply Hor. }
    split; [done|]. by eapply Hint.
  - intros c l i t Ht. unfold recalculateIfCols in Ht.
    destruct (truthyNum c) as [n|] eqn:Hc; [|by left]. right.
    eapply Hint; [|done]. destruct c as [z|]; [|done]. simpl in Hc.
    destruct (decide (z = 0)); [done|]. by injection Hc as <-.
Qed.

Lemma findTab_imap_shallow (f : nat -> Tab -> Tab) (l : list Tab) (y : string) :
  (forall i t, tab_id (data (f i t)) = tab_id (data t) /\ kids (f i t) = kids t) ->
  findIndex l y = None -> findTab (imap f l) y = findTab l y.
Proof.
  revert f. induction l as [|t rest IH]; intros f Hf Hy; [done|].
  simpl in Hy. destruct (decide (tab_id (data t) = y)) as [|Hne]; [done|].
  apply fmap_None in Hy.
  change (imap f (t :: rest)) with (f 0%nat t :: imap (f ∘ S) rest).
  rewrite !findTab_cons, !findTabIn_kids.
  destruct (Hf 0%nat t) as [-> ->]. rewrite !decide_False by done.
  rewrite IH; [done| |done]. intros i u. apply Hf.
Qed.

(** X9.  Recalculation is shallow.  It replaces the tabs of the list it is
    given and nothing below them: for an id that none of these tabs carries,
    [findTab] returns after the recalculation the very tab it returned
    before, position included; for any id it returns a tab that differs at
    most in [order], [row] and [col]; the ids of the forest stay the same. *)
Theorem recalculation_is_shallow (l : list Tab) (ncols : Z) (y : string) :
  (findIndex l y = None -> findTab (recalculateTabPositions l ncols) y = findTab l y)
  /\ SamePayloadO (findTab l y) (findTab (recalculateTabPositions l ncols) y)
  /\ ids (recalculateTabPositions l ncols) = ids l.
Proof.
  split; [|split].
  - apply findTab_imap_shallow. intros i t. split.
    + apply tab_id_setPosition.
    + unfold kids. by rewrite groupTabs_setPosition.
  - apply findTab_imap_payload. intros i t. apply erasePosition_placedAt.
  - apply ids_recalculate.
Qed.

(** ** createTab *)

Lemma idsIn_newTab (uuid createdNow : string) (input : CreateTabInput) :
  idsIn (newTab uuid createdNow input) = [uuid].
Proof.
  unfold newTab. simpl. by destruct (decide (default terminal (in_type input) = group)).
Qed.

Lemma idsIn_setData_same (d : TabData) (t : Tab) :
  tab_id d = tab_id (data t) -> tab_type d = tab_type (data t) ->
  idsIn (setData d t) = idsIn t.
Proof. destruct t as [d0 ts]. simpl. by intros -> ->. Qed.

Lemma idsIn_placeIn (input : CreateTabInput) (P t : Tab) :
  idsIn (placeIn input P t) = idsIn t.
Proof. unfold placeIn. by apply idsIn_setData_same. Qed.

Lemma idsIn_group_withTabs (l : list Tab) (P : Tab) :
  tab_type (data P) = group -> idsIn (withTabs l P) = tab_id (data P) :: ids l.
Proof.
  intros Hty. by rewrite idsIn_unfold, data_withTabs, (group_kids_withTabs _ _ Hty).
Qed.

(** After a replacement, an id that the forest did not hold is searched for
    below the new tab. *)
Lemma Replaced_fresh (x y : string) (p p' : Tab) (l l' : list Tab) :
  Replaced x p p' l l' -> y ∉ ids l -> tab_id (data p') = x ->
  findTab l' y = findTab (kids p') y.
Proof.
  intros Hrep. induction Hrep as [rest Hp|c l l' Hc Hrep IH|g sub sub' rest Hg Hsub Hrep IH];
    intros Hy Hp'; rewrite ids_cons in Hy; rewrite findTab_cons, findTabIn_kids.
  - rewrite decide_False.
    2: { intros E. apply Hy. rewrite <- E, Hp', <- Hp. apply list_elem_of_here. }
    destruct (findTab (kids p') y); [done|].
    apply findTab_None. intros ?. apply Hy. apply elem_of_app. by right.
  - rewrite decide_False.
    2: { intros E. apply Hy. rewrite <- E. apply list_elem_of_here. }
    rewrite (proj2 (findTab_None (kids c) y)).
    2: { intros ?. apply Hy. apply elem_of_cons. right. apply elem_of_app. by left. }
    apply IH; [|done]. intros ?. apply Hy. apply elem_of_app. by right.
  - rewrite data_withTabs, (kids_withTabs _ _ _ Hsub).
    rewrite decide_False.
    2: { intros E. apply Hy. rewrite <- E. apply list_elem_of_here. }
    rewrite (kids_groupTabs _ _ Hsub) in Hy.
    rewrite IH; [|intros ?; apply Hy; apply elem_of_cons; right; apply elem_of_app; by left|done].
    destruct (findTab (kids p') y); [done|].
    apply findTab_None. intros ?. apply Hy. apply elem_of_app. by right.
Qed.

Lemma data_placeIn_fields (input : CreateTabInput) (P t : Tab) :
  tab_id (data (placeIn input P t)) = tab_id (data t)
  /\ tab_name (data (placeIn input P t)) = tab_name (data t)
  /\ tab_type (data (placeIn input P t)) = tab_type (data t)
  /\ tab_createdAt (data (placeIn input P t)) = tab_createdAt (data t)
  /\ tabs (placeIn input P t) = tabs t.
Proof. by destruct t. Qed.

(** X10.  A successful [createTab] returns a tab with the generated id, the
    given name, the given type or "terminal", and the creation time, and has
    pushed it at the end of a list that it otherwise leaves as it was: the
    worktree's list when no parent is given, else the [tabs] of the group that
    [findTab] finds for [parentTabId], whose own properties and whose place
    in the forest do not change.  The siblings are not recalculated. *)
Theorem createTab_appends (uuid createdNow now : string) (ws : Workspace)
    (input : CreateTabInput) (g : Gateway) (wi : nat) (wt : Worktree) (t : Tab) :
  findWorktree (worktrees ws) (in_worktreeId input) = Some wi ->
  worktrees ws !! wi = Some wt ->
  let o := createTab uuid createdNow now ws input g in
  result o = success t ->
  tab_id (data t) = uuid /\ tab_name (data t) = in_name input
  /\ tab_type (data t) = default terminal (in_type input)
  /\ tab_createdAt (data t) = createdNow
  /\ exists forest',
       worktrees (workspace' o) !! wi = Some (setTabs forest' wt)
       /\ match truthyId (in_parentTabId input) with
          | None => forest' = wt_tabs wt ++ [t]
          | Some p =>
              exists P P',
                findTab (wt_tabs wt) p = Some P /\ tab_type (data P) = group
                /\ findTab forest' p = Some P'
                /\ data P' = data P
                /\ tabs P' = Some (tabsOrEmpty P ++ [t])
                /\ data <$> forest' = data <$> wt_tabs wt
          end.
Proof.
  intros Hwt Hwi. unfold createTab. rewrite Hwt, Hwi; simpl.
  destruct (truthyId (in_parentTabId input)) as [p|] eqn:Hp.
  - destruct (findTab (wt_tabs wt) p) as [P|] eqn:HP; [|done].
    simpl. destruct (bool_decide (tab_type (data P) = group)) eqn:Hty; [|done].
    apply bool_decide_eq_true in Hty. simpl.
    destruct (save _ g); [|done]. intros [= <-].
    destruct (data_placeIn_fields input P (newTab uuid createdNow input))
      as (-> & -> & -> & -> & _).
    repeat (split; [done|]).
    eexists. split; [by rewrite list_lookup_alter_eq, Hwi|].
    set (f := fun p => withTabs (tabsOrEmpty p ++ [placeIn input P (newTab uuid createdNow input)]) p).
    exists P, (f P). split; [done|]. split; [done|].
    split. { apply findTab_mutateTab; [done|]. by apply (findTab_id _ _ _ HP). }
    split; [done|]. split; [done|].
    eapply Replaced_map_data; [by apply (mutateTab_found _ _ f _ HP)|done].
  - simpl. destruct (save _ g); [|done]. intros [= <-]. repeat (split; [done|]).
    eexists. split; [by rewrite list_lookup_alter_eq, Hwi|done].
Qed.

Lemma createTab_appends_witness :
  let G := groupTab "g" 2 [placedAt 0 2 (leafTab "a")] in
  let ws := oneWorktree [G; leafTab "t"] in
  let o := createTab "new" "created" "now" ws (placedInput "g" "n" 1 1) (gatewayWith ws) in
  exists t forest' P',
    result o = success t
    /\ forestOf (workspace' o) = forest'
    /\ findTab forest' "g" = Some P'
    /\ tabs P' = Some [placedAt 0 2 (leafTab "a"); t]
    /\ order (data t) = Some (Int 3).
Proof.
  intros G ws o.
  destruct (createTab_appends "new" "created" "now" ws (placedInput "g" "n" 1 1)
              (gatewayWith ws) 0%nat
              {| wt_id := "wt"; wt_branch := "main"; wt_path := "/repo";
                 wt_tabs := [G; leafTab "t"];
                 wt_createdAt := "2025-01-01T00:00:00.000Z" |}
              (placeIn (placedInput "g" "n" 1 1) G
                 (newTab "new" "created" (placedInput "g" "n" 1 1)))
              eq_refl eq_refl eq_refl)
    as (_ & _ & _ & _ & forest' & Hw & P & P' & HP & _ & HP' & _ & Htabs & _).
  injection HP as <-.
  exists (placeIn (placedInput "g" "n" 1 1) G (newTab "new" "created" (placedInput "g" "n" 1 1))),
         forest', P'.
  split; [reflexivity|]. split.
  { unfold forestOf, o. rewrite Hw. reflexivity. }
  split; [exact HP'|]. split; [exact Htabs|reflexivity].
Defined.

(** X11.  When the generated id is not yet an id of the worktree's forest,
    whose ids are distinct, a successful [createTab] keeps them distinct: the
    ids afterwards are those before and the new one, [findTab] finds the
    returned tab under the new id, and finds for every other id a tab exactly
    when it did before. *)
Theorem createTab_keeps_ids_distinct (uuid createdNow now : string) (ws : Workspace)
    (input : CreateTabInput) (g : Gateway) (wi : nat) (wt : Worktree) (t : Tab) :
  findWorktree (worktrees ws) (in_worktreeId input) = Some wi ->
  worktrees ws !! wi = Some wt ->
  NoDup (ids (wt_tabs wt)) ->
  uuid ∉ ids (wt_tabs wt) ->
  let o := createTab uuid createdNow now ws input g in
  result o = success t ->
  exists forest',
    worktrees (workspace' o) !! wi = Some (setTabs forest' wt)
    /\ ids forest' ≡ₚ uuid :: ids (wt_tabs wt)
    /\ NoDup (ids forest')
    /\ findTab forest' uuid = Some t
    /\ (forall y, y <> uuid ->
          (is_Some (findTab forest' y) <-> is_Some (findTab (wt_tabs wt) y))).
Proof.
  intros Hwt Hwi Hnd Hfresh o Hres.
  assert (Hgoal : exists forest',
    worktrees (workspace' o) !! wi = Some (setTabs forest' wt)
    /\ ids forest' ≡ₚ uuid :: ids (wt_tabs wt)
    /\ findTab forest' uuid = Some t).
  { revert Hres. unfold o, createTab. rewrite Hwt, Hwi; simpl.
    destruct (truthyId (in_parentTabId input)) as [p|] eqn:Hp.
    - destruct (findTab (wt_tabs wt) p) as [P|] eqn:HP; [|done].
      simpl. destruct (bool_decide (tab_type (data P) = group)) eqn:Hty; [|done].
      apply bool_decide_eq_true in Hty. simpl. destruct (save _ g); [|done]. intros [= <-].
      set (t := placeIn input P (newTab uuid createdNow input)).
      assert (Ht : idsIn t = [uuid]).
      { unfold t. by rewrite idsIn_placeIn, idsIn_newTab. }
      assert (Hid : tab_id (data t) = uuid).
      { pose proof (idsIn_unfold t) as E. rewrite Ht in E. by injection E. }
      set (f := fun p => withTabs (tabsOrEmpty p ++ [t]) p).
      pose proof (mutateTab_found _ _ f _ HP) as Hrep.
      eexists. split; [by rewrite list_lookup_alter_eq, Hwi|].
      split.
      + destruct (Replaced_ids _ _ _ _ _ Hrep) as (pre & post & -> & ->).
        unfold f. rewrite (idsIn_group_withTabs _ _ Hty), ids_app.
        rewrite (idsIn_unfold P), (group_kids _ Hty).
        change (ids [t]) with (idsIn t ++ []). rewrite Ht. simpl.
        solve_Permutation.
      + rewrite (Replaced_fresh _ uuid _ _ _ _ Hrep Hfresh).
        2: { unfold f. rewrite data_withTabs. by apply (findTab_id _ _ _ HP). }
        unfold f. rewrite (group_kids_withTabs _ _ Hty), findTab_app.
        rewrite (proj2 (findTab_None (tabsOrEmpty P) uuid)).
        2: { intros Hin. apply Hfresh. eapply findTab_ids_incl; [exact HP|].
             apply kids_ids_incl. by rewrite (group_kids _ Hty). }
        rewrite findTab_cons, findTabIn_kids. by rewrite decide_True.
    - simpl. destruct (save _ g); [|done]. intros [= <-].
      eexists. split; [by rewrite list_lookup_alter_eq, Hwi|].
      split.
      + rewrite ids_app. change (ids [newTab uuid createdNow input])
          with (idsIn (newTab uuid createdNow input) ++ []).
        rewrite idsIn_newTab. simpl. solve_Permutation.
      + rewrite findTab_app, (proj2 (findTab_None _ _) Hfresh).
        rewrite findTab_cons, findTabIn_kids. by rewrite decide_True. }
  destruct Hgoal as (forest' & Hw & Hperm & Hfind).
  exists forest'. split; [done|]. split; [done|].
  split. { rewrite Hperm. by apply NoDup_cons. }
  split; [done|].
  intros y Hy. rewrite !findTab_is_Some, Hperm, elem_of_cons. naive_solver.
Qed.

Lemma createTab_keeps_ids_distinct_witness :
  let G := groupTab "g" 2 [leafTab "a"] in
  let ws := oneWorktree [G; leafTab "t"] in
  let o := createTab "new" "created" "now" ws (placedInput "g" "n" 1 1) (gatewayWith ws) in
  NoDup (ids (forestOf (workspace' o)))
  /\ is_Some (findTab (forestOf (workspace' o)) "new").
Proof.
  intros G ws o.
  assert (Hnd : NoDup (ids [G; leafTab "t"])) by compute_done.
  assert (Hfresh : "new"%string ∉ ids [G; leafTab "t"]) by compute_done.
  destruct (createTab_keeps_ids_distinct "new" "created" "now" ws (placedInput "g" "n" 1 1)
              (gatewayWith ws) 0%nat
              {| wt_id := "wt"; wt_branch := "main"; wt_path := "/repo";
                 wt_tabs := [G; leafTab "t"];
                 wt_createdAt := "2025-01-01T00:00:00.000Z" |}
              (placeIn (placedInput "g" "n" 1 1) G
                 (newTab "new" "created" (placedInput "g" "n" 1 1)))
              eq_refl eq_refl Hnd Hfresh eq_refl)
    as (forest' & Hw & _ & Hnd' & Hfind & _).
  unfold forestOf, o. rewrite Hw. simpl. split; [exact Hnd'|]. rewrite Hfind. by eexists.
Defined.

Lemma findIndex_app_fresh (l : list Tab) (t : Tab) (x : string) :
  findIndex l x = None -> tab_id (data t) = x ->
  findIndex (l ++ [t]) x = Some (length l).
Proof.
  intros Hl Ht. induction l as [|c rest IH]; simpl in *.
  - by rewrite decide_True.
  - destruct (decide (tab_id (data c) = x)); [done|].
    apply fmap_None in Hl. by rewrite (IH Hl).
Qed.

Lemma alter_setTabs_same (l : list Worktree) (wi : nat) (wt : Worktree) :
  l !! wi = Some wt -> alter (setTabs (wt_tabs wt)) wi l = l.
Proof.
  intros Hwi. rewrite <- (list_alter_id id l wi) at 2 by done.
  apply list_alter_ext; [|done]. intros wt' Hwt'.
  rewrite Hwi in Hwt'. injection Hwt' as <-. by destruct wt.
Qed.

Lemma setWorktreeTabs_twice (ws : Workspace) (wi : nat) (wt : Worktree)
    (l : list Tab) (now : string) :
  worktrees ws !! wi = Some wt ->
  setWorktreeTabs wi (wt_tabs wt) (setUpdatedAt now (setWorktreeTabs wi l ws))
  = setUpdatedAt now ws.
Proof.
  intros Hwi. unfold setWorktreeTabs, setUpdatedAt. simpl. f_equal.
  rewrite list_alter_alter_eq.
  rewrite <- (alter_setTabs_same _ _ _ Hwi) at 2.
  apply list_alter_ext; [|done]. by intros [].
Qed.

(** X12.  Creating a top-level tab and deleting it again gives the worktree
    back: when no top-level tab carries the generated id, after a top-level
    [createTab] and a [deleteTab] of that id on what it left, the workspace
    is the one before the two calls but for [updatedAt]; both calls succeed
    unless the gateway throws. *)
Theorem createTab_deleteTab_round_trip (uuid createdNow now now2 : string) (ws : Workspace)
    (input : CreateTabInput) (g : Gateway) (wi : nat) (wt : Worktree) :
  findWorktree (worktrees ws) (in_worktreeId input) = Some wi ->
  worktrees ws !! wi = Some wt ->
  truthyId (in_parentTabId input) = None ->
  findIndex (wt_tabs wt) uuid = None ->
  let o1 := createTab uuid createdNow now ws input g in
  let o2 := deleteTab now2 (workspace' o1) (in_worktreeId input) uuid (gateway' o1) in
  (Working g -> result o1 = success (newTab uuid createdNow input)
                /\ result o2 = success ())
  /\ workspace' o2 = setUpdatedAt now2 ws.
Proof.
  intros Hwt Hwi Hp Hfresh o1 o2.
  assert (Ho1 : o1 = commit (success (newTab uuid createdNow input)) now
                       (setWorktreeTabs wi (wt_tabs wt ++ [newTab uuid createdNow input]) ws) g).
  { unfold o1, createTab. by rewrite Hwt, Hwi, Hp. }
  assert (Ho2 : o2 = commit (success ()) now2
                       (setWorktreeTabs wi (wt_tabs wt) (workspace' o1)) (gateway' o1)).
  { unfold o2. rewrite Ho1. unfold deleteTab. simpl.
    rewrite findWorktree_alter by done. rewrite Hwt.
    rewrite list_lookup_alter_eq, Hwi. simpl.
    unfold removeTabRecursive.
    rewrite (findIndex_app_fresh _ _ uuid Hfresh) by done.
    by rewrite delete_middle, app_nil_r. }
  split.
  - intros Hg. split; [by rewrite Ho1, (commit_Working _ _ _ _ Hg)|].
    rewrite Ho2, commit_Working; [done|].
    rewrite Ho1. by apply gateway'_commit_Working.
  - rewrite Ho2, Ho1. simpl.
    pose proof (setWorktreeTabs_twice ws wi wt
                  (wt_tabs wt ++ [newTab uuid createdNow input]) now Hwi) as E.
    unfold setWorktreeTabs, setUpdatedAt in *. simpl in *.
    injection E as E. by rewrite E.
Qed.

Lemma createTab_deleteTab_round_trip_witness :
  let ws := oneWorktree [groupTab "g" 2 [leafTab "a"]; leafTab "t"] in
  let o1 := createTab "new" "created" "now" ws (plainInput "n") (gatewayWith ws) in
  let o2 := deleteTab "later" (workspace' o1) "wt" "new" (gateway' o1) in
  forestOf (workspace' o1) <> forestOf ws
  /\ forestOf (workspace' o2) = forestOf ws.
Proof.
  intros ws o1 o2.
  destruct (createTab_deleteTab_round_trip "new" "created" "now" "later" ws (plainInput "n")
              (gatewayWith ws) 0%nat
              {| wt_id := "wt"; wt_branch := "main"; wt_path := "/repo";
                 wt_tabs := [groupTab "g" 2 [leafTab "a"]; leafTab "t"];
                 wt_createdAt := "2025-01-01T00:00:00.000Z" |}
              eq_refl eq_refl eq_refl eq_refl) as (_ & E).
  split; [discriminate|].
  change (workspace' o2) with
    (workspace' (deleteTab "later"
       (workspace' (createTab "new" "created" "now" ws (plainInput "n") (gatewayWith ws)))
       (in_worktreeId (plainInput "n")) "new"
       (gateway' (createTab "new" "created" "now" ws (plainInput "n") (gatewayWith ws))))).
  rewrite E. reflexivity.
Defined.

Lemma toDouble_safe (z : Z) : safeInteger z -> toDouble z = Int z.
Proof. intros Hz. unfold toDouble. by rewrite decide_True. Qed.

Lemma timesPlus_safe (r n c : Z) :
  exactOrder r n c -> timesPlus r n c = Int (r * n + c).
Proof.
  intros (_ & _ & _ & Hp & Hs). unfold timesPlus.
  by rewrite (toDouble_safe _ Hp), (toDouble_safe _ Hs).
Qed.

(** Beyond the safe integers the sum is rounded: row [2^52] of a parent with
    two columns, column [1], gets order [2^53], not [2^53 + 1]. *)
Example timesPlus_rounds : timesPlus (2 ^ 52) 2 1 = Int (2 ^ 53).
Proof. by vm_compute. Qed.

Example createTab_rounds_order :
  let ws := oneWorktree [groupTab "g" 2 []] in
  let o := createTab "new" "created" "now" ws (placedInput "g" "n" (2 ^ 52) 1)
             (gatewayWith ws) in
  exists t, result o = success t
            /\ row (data t) = Some (Int (2 ^ 52)) /\ col (data t) = Some (Int 1)
            /\ order (data t) = Some (Int (2 ^ 53)).
Proof. eexists. split; [reflexivity|]. by vm_compute. Qed.

(** X13.  The position that [createTab] gives: a top-level tab gets none,
    whatever the input says; a tab created in a group gets the input's
    [rowSpan] and [colSpan], and gets [row], [col] and the order
    [row * cols + col] as doubles compute it only when the input has both
    [row] and [col] and the parent's [cols] is set and not [0].  When
    [row], [cols], [col], the product and the sum are safe integers the order
    is the exact [row * cols + col]; then, for a parent with [cols > 0], a
    [row >= 0] and an order that is not negative, the position is the one a
    recalculation would derive from the order exactly when [col] lies in
    [0 .. cols-1]. *)
Theorem createTab_explicit_placement (uuid createdNow now : string) (ws : Workspace)
    (input : CreateTabInput) (g : Gateway) (wi : nat) (wt : Worktree) (t : Tab) :
  findWorktree (worktrees ws) (in_worktreeId input) = Some wi ->
  worktrees ws !! wi = Some wt ->
  let o := createTab uuid createdNow now ws input g in
  result o = success t ->
  match truthyId (in_parentTabId input) with
  | None =>
      order (data t) = None /\ row (data t) = None /\ col (data t) = None
      /\ rowSpan (data t) = None /\ colSpan (data t) = None
  | Some p =>
      exists P, findTab (wt_tabs wt) p = Some P
      /\ rowSpan (data t) = in_rowSpan input /\ colSpan (data t) = in_colSpan input
      /\ match in_row input, in_col input, truthyNum (cols (data P)) with
         | Some r, Some c, Some n =>
             order (data t) = Some (timesPlus r n c)
             /\ row (data t) = Some (Int r) /\ col (data t) = Some (Int c)
             /\ (exactOrder r n c ->
                 order (data t) = Some (Int (r * n + c))
                 /\ (0 < n -> 0 <= r -> 0 <= r * n + c ->
                     (floorDiv (r * n + c) n = Int r /\ jsRem (r * n + c) n = Int c)
                     <-> 0 <= c < n))
         | _, _, _ => order (data t) = None /\ row (data t) = None /\ col (data t) = None
         end
  end.
Proof.
  intros Hwt Hwi. unfold createTab. rewrite Hwt, Hwi; simpl.
  destruct (truthyId (in_parentTabId input)) as [p|] eqn:Hp.
  2: { simpl. destruct (save _ g); [|done]. by intros [= <-]. }
  destruct (findTab (wt_tabs wt) p) as [P|] eqn:HP; [|done].
  simpl. destruct (bool_decide (tab_type (data P) = group)) eqn:Hty; [|done].
  simpl. destruct (save _ g); [|done]. intros [= <-]. exists P. split; [done|]. split; [done|]. split; [done|].
  unfold placeIn. simpl.
  destruct (in_row input) as [r|]; [|done].
  destruct (in_col input) as [c|]; [|done].
  destruct (truthyNum (cols (data P))) as [n|]; [|done].
  repeat (split; [done|]). intros Hexact.
  split; [by rewrite (timesPlus_safe _ _ _ Hexact)|]. intros Hn Hr Hnonneg.
  rewrite floorDiv_pos by done. unfold jsRem. rewrite decide_False by lia.
  rewrite (Z.add_comm (r * n) c), Z.div_add by lia.
  split.
  - intros [[= Hd] _].
    assert (Hc : c `div` n = 0) by lia.
    apply Z.div_small_iff in Hc; lia.
  - intros Hc. rewrite Z.div_small by done. split; [done|].
    rewrite Z.rem_mod_nonneg by nia.
    by rewrite Z.mod_add, Z.mod_small by lia.
Qed.

Lemma createTab_explicit_placement_witness :
  let G := groupTab "g" 2 [leafTab "a"] in
  let ws := oneWorktree [G] in
  let o := createTab "new" "created" "now" ws (placedInput "g" "n" 1 5) (gatewayWith ws) in
  exists t, result o = success t
    /\ order (data t) = Some (Int 7) /\ row (data t) = Some (Int 1)
    /\ col (data t) = Some (Int 5)
    /\ floorDiv 7 2 <> Int 1.
Proof.
  intros G ws o.
  pose proof (createTab_explicit_placement "new" "created" "now" ws (placedInput "g" "n" 1 5)
                (gatewayWith ws) 0%nat
                {| wt_id := "wt"; wt_branch := "main"; wt_path := "/repo";
                   wt_tabs := [G]; wt_createdAt := "2025-01-01T00:00:00.000Z" |}
                (placeIn (placedInput "g" "n" 1 5) G
                   (newTab "new" "created" (placedInput "g" "n" 1 5)))
                eq_refl eq_refl eq_refl) as H.
  change (truthyId (in_parentTabId (placedInput "g" "n" 1 5))) with (Some "g"%string) in H.
  change (in_row (placedInput "g" "n" 1 5)) with (Some 1) in H.
  change (in_col (placedInput "g" "n" 1 5)) with (Some 5) in H.
  destruct H as (P & HP & _ & _ & H).
  injection HP as <-.
  change (truthyNum (cols (data G))) with (Some 2) in H.
  destruct H as (_ & Hr & Hc & Hsafe).
  destruct (Hsafe ltac:(repeat split; by vm_compute)) as (Ho & Hiff).
  eexists. split; [reflexivity|]. split; [exact Ho|]. split; [exact Hr|].
  split; [exact Hc|]. intros E.
  assert (H : 0 <= 5 < 2); [|lia].
  apply (Hiff ltac:(lia) ltac:(lia) ltac:(lia)). split; [exact E|]. discriminate E.
Defined.

Lemma updateTab_app_fresh (l : list Tab) (G : Tab) (x : string) (f : Tab -> Tab) :
  findTab l x = None -> tab_id (data G) = x ->
  updateTab (l ++ [G]) x f = Some (l ++ [f G]).
Proof.
  intros Hl HG. induction l as [|c rest IH]; simpl.
  - rewrite updateTab_cons, updateTabIn_unfold. by rewrite decide_True.
  - rewrite findTab_cons in Hl.
    destruct (findTabIn x c) eqn:Hc; [done|].
    rewrite updateTab_cons, updateTabIn_unfold.
    rewrite findTabIn_unfold in Hc.
    destruct (decide (tab_id (data c) = x)); [done|].
    destruct (groupTabs c) as [sub|].
    + rewrite (proj2 (updateTab_None sub x f) Hc). simpl. by rewrite (IH Hl).
    + by rewrite (IH Hl).
Qed.

Lemma orElse_nonzero (o : option Z) (d : Z) : d <> 0 -> orElse o d <> 0.
Proof.
  intros Hd. destruct o as [z|]; unfold orElse, truthyNum; [|done].
  by destruct (decide (z = 0)).
Qed.

(** X14.  A group made by [createTab] can take children at once: it has an
    empty [tabs] array and [rows] and [cols] that are the input's or [2],
    never [0]; a second [createTab] that names the group's id as parent, in a
    forest that did not hold that id, makes its tab the group's only child
    and, when the input has [row] and [col], gives it the order
    [row * cols + col] under the group's [cols] as doubles compute it, which
    is the exact value when [row], [cols], [col], the product and the sum are
    safe integers.  Both calls succeed unless the gateway throws. *)
Theorem createTab_group_then_child (u1 c1 n1 u2 c2 n2 : string) (ws : Workspace)
    (input1 input2 : CreateTabInput) (g : Gateway) (wi : nat) (wt : Worktree) :
  findWorktree (worktrees ws) (in_worktreeId input1) = Some wi ->
  worktrees ws !! wi = Some wt ->
  truthyId (in_parentTabId input1) = None ->
  in_type input1 = Some group ->
  u1 <> EmptyString ->
  u1 ∉ ids (wt_tabs wt) ->
  in_worktreeId input2 = in_worktreeId input1 ->
  in_parentTabId input2 = Some u1 ->
  let o1 := createTab u1 c1 n1 ws input1 g in
  let o2 := createTab u2 c2 n2 (workspace' o1) input2 (gateway' o1) in
  let G := newTab u1 c1 input1 in
  let child := placeIn input2 G (newTab u2 c2 input2) in
  (Working g -> result o1 = success G /\ result o2 = success child)
  /\ isValidParentTab (Some G) = true /\ tabs G = Some []
  /\ rows (data G) = Some (orElse (in_rows input1) 2)
  /\ cols (data G) = Some (orElse (in_cols input1) 2)
  /\ orElse (in_rows input1) 2 <> 0 /\ orElse (in_cols input1) 2 <> 0
  /\ worktrees (workspace' o2) !! wi
     = Some (setTabs (wt_tabs wt ++ [withTabs [child] G]) wt)
  /\ (forall r c, in_row input2 = Some r -> in_col input2 = Some c ->
        let n := orElse (in_cols input1) 2 in
        order (data child) = Some (timesPlus r n c)
        /\ (exactOrder r n c -> order (data child) = Some (Int (r * n + c)))).
Proof.
  intros Hwt Hwi Hp Hty Hne Hfresh Hsame Hparent o1 o2 G child.
  assert (HG : tab_type (data G) = group) by (unfold G, newTab; simpl; by rewrite Hty).
  assert (Ho1 : o1 = commit (success G) n1 (setWorktreeTabs wi (wt_tabs wt ++ [G]) ws) g).
  { unfold o1, createTab. by rewrite Hwt, Hwi, Hp. }
  assert (Htabs : tabs G = Some []) by (unfold G, newTab; simpl; by rewrite Hty).
  assert (Hfind : findTab (wt_tabs wt ++ [G]) u1 = Some G).
  { rewrite findTab_app, (proj2 (findTab_None _ _) Hfresh).
    rewrite findTab_cons, findTabIn_kids. by rewrite decide_True. }
  assert (Ho2 : o2 = commit (success child) n2
                       (setWorktreeTabs wi (wt_tabs wt ++ [withTabs [child] G])
                          (workspace' o1)) (gateway' o1)).
  { unfold o2, createTab. rewrite Ho1. simpl.
    rewrite Hsame, findWorktree_alter by done. rewrite Hwt.
    rewrite list_lookup_alter_eq, Hwi, Hparent. simpl.
    rewrite decide_False by done. rewrite Hfind. simpl.
    rewrite (bool_decide_eq_true_2 _ HG). fold child.
    unfold mutateTab.
    rewrite (updateTab_app_fresh _ G u1 _ (proj2 (findTab_None _ _) Hfresh) eq_refl).
    simpl. unfold tabsOrEmpty. by rewrite Htabs. }
  split.
  { intros Hg. split; [by rewrite Ho1, (commit_Working _ _ _ _ Hg)|].
    rewrite Ho2, commit_Working; [done|].
    rewrite Ho1. by apply gateway'_commit_Working. }
  split; [by apply bool_decide_eq_true|]. split; [done|].
  split. { unfold G, newTab; simpl; by rewrite Hty. }
  split. { unfold G, newTab; simpl; by rewrite Hty. }
  split; [by apply orElse_nonzero|]. split; [by apply orElse_nonzero|].
  split.
  { rewrite Ho2, Ho1. simpl. rewrite list_alter_alter_eq, list_lookup_alter_eq, Hwi. done. }
  intros r c Hr Hc n.
  assert (Horder : order (data child) = Some (timesPlus r n c)).
  { unfold child, placeIn. simpl. rewrite Hr, Hc.
    unfold G, newTab; simpl. rewrite Hty. simpl.
    unfold truthyNum. rewrite decide_False by (by apply orElse_nonzero). done. }
  split; [done|]. intros Hexact.
  by rewrite Horder, (timesPlus_safe _ _ _ Hexact).
Qed.

Lemma createTab_group_then_child_witness :
  let ws := oneWorktree [leafTab "t"] in
  let input1 := {| in_workspaceId := "ws"; in_worktreeId := "wt"; in_parentTabId := None;
                   in_name := "grid"; in_type := Some group; in_command := None;
                   in_rows := None; in_cols := Some 0; in_row := None; in_col := None;
                   in_rowSpan := None; in_colSpan := None |} in
  let o1 := createTab "G" "c1" "n1" ws input1 (gatewayWith ws) in
  let o2 := createTab "k" "c2" "n2" (workspace' o1) (placedInput "G" "kid" 1 1) (gateway' o1) in
  exists G child,
    result o1 = success G /\ result o2 = success child
    /\ cols (data G) = Some 2
    /\ order (data child) = Some (Int 3)
    /\ forestOf (workspace' o2) = [leafTab "t"; withTabs [child] G].
Proof.
  intros ws input1 o1 o2.
  assert (Hfresh : "G"%string ∉ ids [leafTab "t"]) by compute_done.
  destruct (createTab_group_then_child "G" "c1" "n1" "k" "c2" "n2" ws input1
              (placedInput "G" "kid" 1 1) (gatewayWith ws) 0%nat
              {| wt_id := "wt"; wt_branch := "main"; wt_path := "/repo";
                 wt_tabs := [leafTab "t"]; wt_createdAt := "2025-01-01T00:00:00.000Z" |}
              eq_refl eq_refl eq_refl eq_refl ltac:(discriminate) Hfresh eq_refl eq_refl)
    as (Hok & _ & _ & _ & Hcols & _ & _ & Hw & Hord).
  destruct (Hok (Working_gatewayWith ws)) as [H1 H2].
  destruct (Hord 1 1 eq_refl eq_refl) as [_ Hsafe].
  eexists _, _. split; [exact H1|]. split; [exact H2|]. split; [exact Hcols|].
  split; [exact (Hsafe ltac:(repeat split; by vm_compute))|].
  unfold forestOf, o2, o1. rewrite Hw. reflexivity.
Defined.

(** ** updateTabGridSizes and updateTerminalCwd *)

(** Replacing a tab by one with the same id, type and children changes what
    [findTab] returns for no other id. *)
Lemma Replaced_same_children (x y : string) (p p' : Tab) (l l' : list Tab) :
  Replaced x p p' l l' -> tab_id (data p') = x -> kids p' = kids p -> y <> x ->
  SameDataO (findTab l y) (findTab l' y).
Proof.
  assert (Hrefl : forall o, SameDataO o o) by (by intros [?|]).
  intros Hrep Hid Hk Hy.
  induction Hrep as [rest Hp|c l l' Hc Hrep IH|g sub sub' rest Hg Hsub Hrep IH];
    rewrite !findTab_cons, !findTabIn_kids.
  - rewrite Hid, Hp, !decide_False, Hk by done. apply Hrefl.
  - destruct (decide (tab_id (data c) = y)); [done|].
    destruct (findTab (kids c) y); [done|]. exact IH.
  - rewrite data_withTabs, (kids_withTabs _ _ _ Hsub), (kids_groupTabs _ _ Hsub).
    destruct (decide (tab_id (data g) = y)); [done|].
    destruct (findTab sub y), (findTab sub' y); try done; apply Hrefl.
Qed.

Lemma Replaced_self (x : string) (p : Tab) (l l' : list Tab) :
  Replaced x p p l l' -> l' = l.
Proof.
  induction 1 as [rest Hp|c l l' Hc Hrep IH|g sub sub' rest Hg Hsub Hrep IH].
  - done.
  - by rewrite IH.
  - rewrite IH. f_equal. apply groupTabs_tabs in Hsub. destruct g as [d ts].
    simpl in *. by rewrite Hsub.
Qed.

Lemma Replaced_ids_same (x : string) (p p' : Tab) (l l' : list Tab) :
  Replaced x p p' l l' -> idsIn p' = idsIn p -> ids l' = ids l.
Proof.
  intros Hrep Hp. destruct (Replaced_ids _ _ _ _ _ Hrep) as (pre & post & -> & ->).
  by rewrite Hp.
Qed.

Lemma kids_setData_same (d : TabData) (t : Tab) :
  tab_type d = tab_type (data t) -> kids (setData d t) = kids t.
Proof. destruct t as [d0 ts]. unfold kids, groupTabs. simpl. by intros ->. Qed.

(** X15.  [updateTabGridSizes] fails, changing nothing, when the worktree or
    the tab is not found or the tab is not a group.  Otherwise it succeeds
    unless the gateway throws, and in either case the group keeps its place,
    its children and every property but the sizes, takes each size list that
    the input supplies and keeps the other, and is what [findTab] returns for
    its id afterwards; for every other id [findTab] returns a tab with the
    same properties as before. *)
Theorem updateTabGridSizes_spec (now : string) (ws : Workspace) (worktreeId x : string)
    (rs cs : option (list Q)) (g : Gateway) :
  let o := updateTabGridSizes now ws worktreeId x rs cs g in
  (findWorktree (worktrees ws) worktreeId = None ->
     o = mkOutcome (failure "Worktree not found") ws g)
  /\ (forall wi wt,
        findWorktree (worktrees ws) worktreeId = Some wi -> worktrees ws !! wi = Some wt ->
        match findTab (wt_tabs wt) x with
        | None => o = mkOutcome (failure "Tab not found") ws g
        | Some G =>
            if decide (tab_type (data G) = group) then
              (Working g -> result o = success ())
              /\ exists forest' G',
                   worktrees (workspace' o) !! wi = Some (setTabs forest' wt)
                   /\ findTab forest' x = Some G'
                   /\ rowSizes (data G') = match rs with Some _ => rs | None => rowSizes (data G) end
                   /\ colSizes (data G') = match cs with Some _ => cs | None => colSizes (data G) end
                   /\ setSizes (Some []) (Some []) G' = setSizes (Some []) (Some []) G
                   /\ length forest' = length (wt_tabs wt)
                   /\ ids forest' = ids (wt_tabs wt)
                   /\ (forall y, y <> x ->
                         SameDataO (findTab (wt_tabs wt) y) (findTab forest' y))
            else o = mkOutcome (failure "Tab is not a group") ws g
        end).
Proof.
  unfold updateTabGridSizes. split.
  { by intros ->. }
  intros wi wt Hwt Hwi. rewrite Hwt, Hwi. simpl.
  destruct (findTab (wt_tabs wt) x) as [G|] eqn:HG; [|done].
  destruct (decide (tab_type (data G) = group)) as [Hty|Hty].
  2: { by rewrite decide_True. }
  rewrite decide_False by (by intros ?). simpl.
  split; [by intros Hg; rewrite (save_Working _ _ Hg)|].
  pose proof (mutateTab_found _ _ (setSizes rs cs) _ HG) as Hrep.
  assert (Hid : tab_id (data (setSizes rs cs G)) = x).
  { simpl. by apply (findTab_id _ _ _ HG). }
  exists (mutateTab (wt_tabs wt) x (setSizes rs cs)), (setSizes rs cs G).
  split; [by rewrite list_lookup_alter_eq, Hwi|].
  split; [by apply findTab_mutateTab|].
  split; [done|]. split; [done|]. split; [by destruct G|].
  split; [by eapply Replaced_length|].
  split. { eapply Replaced_ids_same; [done|]. by apply idsIn_setData_same. }
  intros y Hy. eapply Replaced_same_children; [done|done| |done].
  by apply kids_setData_same.
Qed.

Lemma updateTabGridSizes_spec_witness :
  let G := groupTab "g" 2 [leafTab "a"] in
  let ws := oneWorktree [leafTab "t"; G] in
  let o := updateTabGridSizes "now" ws "wt" "g" (Some [1 # 4; 3 # 4]) None (gatewayWith ws) in
  result o = success ()
  /\ (exists G', findTab (forestOf (workspace' o)) "g" = Some G'
        /\ rowSizes (data G') = Some [1 # 4; 3 # 4] /\ colSizes (data G') = None)
  /\ updateTabGridSizes "now" ws "wt" "t" (Some [1 # 4; 3 # 4]) None (gatewayWith ws)
     = mkOutcome (failure "Tab is not a group") ws (gatewayWith ws).
Proof.
  intros G ws o.
  destruct (updateTabGridSizes_spec "now" ws "wt" "g" (Some [1 # 4; 3 # 4]) None
              (gatewayWith ws)) as [_ Hg].
  destruct (updateTabGridSizes_spec "now" ws "wt" "t" (Some [1 # 4; 3 # 4]) None
              (gatewayWith ws)) as [_ Ht].
  specialize (Hg 0%nat _ eq_refl eq_refl).
  specialize (Ht 0%nat _ eq_refl eq_refl).
  destruct Hg as (Hok & forest' & G' & Hw & Hfind & Hrs & Hcs & _).
  split; [exact (Hok (Working_gatewayWith ws))|]. split.
  - exists G'. unfold forestOf, o. rewrite Hw. simpl. by repeat split.
  - exact Ht.
Defined.

(** X16.  [updateTabGridSizes] with neither [rowSizes] nor [colSizes] is not
    rejected: on a group it leaves the worktree's forest as it was and still
    stamps and saves the workspace, and it succeeds unless the gateway
    throws. *)
Theorem updateTabGridSizes_without_sizes (now : string) (ws : Workspace)
    (worktreeId x : string) (g : Gateway) (wi : nat) (wt : Worktree) (G : Tab) :
  findWorktree (worktrees ws) worktreeId = Some wi ->
  worktrees ws !! wi = Some wt ->
  findTab (wt_tabs wt) x = Some G -> tab_type (data G) = group ->
  let o := updateTabGridSizes now ws worktreeId x None None g in
  o = commit (success ()) now ws g
  /\ (Working g ->
      o = mkOutcome (success ()) (setUpdatedAt now ws) (saved (setUpdatedAt now ws) g)).
Proof.
  intros Hwt Hwi HG Hty o.
  assert (Ho : o = commit (success ()) now ws g).
  { unfold o, updateTabGridSizes. rewrite Hwt, Hwi. simpl.
    rewrite HG. rewrite decide_False by (by intros ?).
    pose proof (mutateTab_found _ _ (setSizes None None) _ HG) as Hrep.
    assert (E : setSizes None None G = G) by (by destruct G as [[] ?]).
    rewrite E in Hrep. apply Replaced_self in Hrep. rewrite Hrep.
    assert (Hws : setWorktreeTabs wi (wt_tabs wt) ws = ws).
    { unfold setWorktreeTabs. rewrite (alter_setTabs_same _ _ _ Hwi). by destruct ws. }
    by rewrite Hws. }
  split; [done|]. intros Hg. by rewrite Ho, (commit_Working _ _ _ _ Hg).
Qed.

Lemma updateTabGridSizes_without_sizes_witness :
  let ws := oneWorktree [groupTab "g" 2 [leafTab "a"]] in
  let o := updateTabGridSizes "now" ws "wt" "g" None None (gatewayWith ws) in
  result o = success ()
  /\ forestOf (workspace' o) = forestOf ws
  /\ updatedAt (workspace' o) = "now"
  /\ length (writes (gateway' o)) = 1%nat.
Proof.
  intros ws o.
  destruct (updateTabGridSizes_without_sizes "now" ws "wt" "g" (gatewayWith ws) 0%nat
              {| wt_id := "wt"; wt_branch := "main"; wt_path := "/repo";
                 wt_tabs := [groupTab "g" 2 [leafTab "a"]];
                 wt_createdAt := "2025-01-01T00:00:00.000Z" |}
              (groupTab "g" 2 [leafTab "a"]) eq_refl eq_refl eq_refl eq_refl) as [_ E].
  unfold o. rewrite (E (Working_gatewayWith ws)).
  repeat split; reflexivity.
Defined.

(** X17.  After an [updateTerminalCwd] that returned [true], [findTab]
    returns for the id a terminal whose [cwd] is the given one and that is
    otherwise the tab it was; for every other id it returns a tab with the
    same properties as before; the ids of the forest are the same.  Calling
    it again with the same directory changes the forest no more, and returns
    [true] unless the gateway throws. *)
Theorem updateTerminalCwd_read_back (now now2 : string) (ws : Workspace)
    (worktreeId x c : string) (g : Gateway) (wi : nat) (wt : Worktree) :
  findWorktree (worktrees ws) worktreeId = Some wi ->
  worktrees ws !! wi = Some wt ->
  let o := updateTerminalCwd now ws worktreeId x c g in
  result o = true ->
  exists forest' T,
    worktrees (workspace' o) !! wi = Some (setTabs forest' wt)
    /\ findTab (wt_tabs wt) x = Some T
    /\ findTab forest' x = Some (setCwd c T)
    /\ cwd (data (setCwd c T)) = Some c
    /\ ids forest' = ids (wt_tabs wt)
    /\ (forall y, y <> x -> SameDataO (findTab (wt_tabs wt) y) (findTab forest' y))
    /\ let o2 := updateTerminalCwd now2 (workspace' o) worktreeId x c (gateway' o) in
       (Working (gateway' o) -> result o2 = true)
       /\ worktrees (workspace' o2) !! wi = Some (setTabs forest' wt).
Proof.
  intros Hwt Hwi o.
  assert (Ho : o = match findTab (wt_tabs wt) x with
                   | None => mkOutcome false ws g
                   | Some tab =>
                       if decide (tab_type (data tab) <> terminal) then mkOutcome false ws g
                       else commit true now
                              (setWorktreeTabs wi (mutateTab (wt_tabs wt) x (setCwd c)) ws) g
                   end).
  { unfold o, updateTerminalCwd. by rewrite Hwt, Hwi. }
  clearbody o. subst o.
  destruct (findTab (wt_tabs wt) x) as [T|] eqn:HT; [|done].
  destruct (decide (tab_type (data T) <> terminal)) as [Hty|Hty]; [done|].
  intros _. simpl.
  pose proof (mutateTab_found _ _ (setCwd c) _ HT) as Hrep.
  assert (Hid : tab_id (data (setCwd c T)) = x).
  { simpl. by apply (findTab_id _ _ _ HT). }
  pose proof (findTab_mutateTab _ _ (setCwd c) _ HT Hid) as Hfind.
  exists (mutateTab (wt_tabs wt) x (setCwd c)), T.
  split; [by rewrite list_lookup_alter_eq, Hwi|].
  split; [done|]. split; [done|]. split; [done|].
  split. { eapply Replaced_ids_same; [done|]. by apply idsIn_setData_same. }
  split.
  { intros y Hy. eapply Replaced_same_children; [done|done| |done].
    by apply kids_setData_same. }
  unfold updateTerminalCwd. simpl.
  rewrite findWorktree_alter by done. rewrite Hwt.
  rewrite list_lookup_alter_eq, Hwi. simpl. rewrite Hfind.
  rewrite decide_False by done. simpl.
  split; [by intros Hg; rewrite (save_Working _ _ Hg)|].
  rewrite list_alter_alter_eq, list_lookup_alter_eq, Hwi. simpl.
  f_equal. unfold setTabs. simpl. f_equal.
  pose proof (mutateTab_found _ _ (setCwd c) _ Hfind) as Hrep2.
  assert (E : setCwd c (setCwd c T) = setCwd c T) by (by destruct T).
  rewrite E in Hrep2. by apply Replaced_self in Hrep2.
Qed.

Lemma updateTerminalCwd_read_back_witness :
  let ws := oneWorktree [groupTab "g" 2 [leafTab "t"]; leafTab "u"] in
  let o := updateTerminalCwd "now" ws "wt" "t" "/tmp" (gatewayWith ws) in
  exists T', findTab (forestOf (workspace' o)) "t" = Some T'
    /\ cwd (data T') = Some "/tmp"%string.
Proof.
  intros ws o.
  destruct (updateTerminalCwd_read_back "now" "later" ws "wt" "t" "/tmp" (gatewayWith ws) 0%nat
              {| wt_id := "wt"; wt_branch := "main"; wt_path := "/repo";
                 wt_tabs := [groupTab "g" 2 [leafTab "t"]; leafTab "u"];
                 wt_createdAt := "2025-01-01T00:00:00.000Z" |} eq_refl eq_refl eq_refl)
    as (forest' & T & Hw & HT & Hfind & Hcwd & _).
  exists (setCwd "/tmp" T). unfold forestOf, o. rewrite Hw. simpl. by split.
Defined.

(** ** What no operation touches *)

Lemma SameWorktreeBut_refl (x : string) (wt : Worktree) : SameWorktreeBut x wt wt.
Proof. by repeat split. Qed.

Lemma SameWorkspaceBut_refl (x : string) (ws : Workspace) : SameWorkspaceBut x ws ws.
Proof.
  repeat (split; [done|]). apply Forall2_same_length_lookup_2; [done|].
  intros i wt wt' H1 H2. rewrite H1 in H2. injection H2 as <-. apply SameWorktreeBut_refl.
Qed.

Lemma SameWorkspaceBut_setWorktreeTabs (x : string) (ws : Workspace) (wi : nat) (l : list Tab) :
  findWorktree (worktrees ws) x = Some wi ->
  SameWorkspaceBut x ws (setWorktreeTabs wi l ws).
Proof.
  intros Hwt. repeat (split; [done|]). simpl.
  revert wi Hwt. induction (worktrees ws) as [|wt rest IH]; intros wi Hwt; [done|].
  simpl in Hwt. destruct (decide (wt_id wt = x)) as [Hid|Hid].
  - injection Hwt as <-. apply Forall2_cons. split.
    + by repeat split.
    + apply Forall2_same_length_lookup_2; [done|].
      intros i a b H1 H2. rewrite H1 in H2. injection H2 as <-. apply SameWorktreeBut_refl.
  - apply fmap_Some in Hwt as (wi' & Hwi' & ->).
    apply Forall2_cons. split; [apply SameWorktreeBut_refl|]. by apply IH.
Qed.

Lemma SameWorkspaceBut_setUpdatedAt (x now : string) (ws ws' : Workspace) :
  SameWorkspaceBut x ws ws' -> SameWorkspaceBut x ws (setUpdatedAt now ws').
Proof. intros (?&?&?&?&?&?&?&?). by repeat split. Qed.

(** What an operation leaves: nothing changed, or the forest of the first
    worktree with the given id replaced, with or without the stamp and the
    save. *)
Lemma runOperation_shape (now : string) (ws : Workspace) (op : Operation) (g : Gateway) :
  let o := runOperation now ws op g in
  o = mkOutcome false ws g
  \/ exists wi l,
       findWorktree (worktrees ws) (operationWorktree op) = Some wi
       /\ (o = mkOutcome false (setWorktreeTabs wi l ws) g
           \/ o = commit true now (setWorktreeTabs wi l ws) g).
Proof.
  assert (Hsaved : forall (A : Type) (a : A) wi l,
            findWorktree (worktrees ws) (operationWorktree op) = Some wi ->
            flagged (commit (success a) now (setWorktreeTabs wi l ws) g) = mkOutcome false ws g
            \/ exists wi0 l0,
                 findWorktree (worktrees ws) (operationWorktree op) = Some wi0
                 /\ (flagged (commit (success a) now (setWorktreeTabs wi l ws) g)
                     = mkOutcome false (setWorktreeTabs wi0 l0 ws) g
                     \/ flagged (commit (success a) now (setWorktreeTabs wi l ws) g)
                        = commit true now (setWorktreeTabs wi0 l0 ws) g)).
  { intros A a wi l Hwt. right. exists wi, l. split; [done|]. right. apply flagged_commit. }
  destruct op; simpl in *.
  - unfold createTab.
    destruct (findWorktree _ _) as [wi|]; [|by left].
    destruct (truthyId _); [|by apply Hsaved].
    destruct (findTab _ _); [|by left].
    destruct (isValidParentTab _); [by apply Hsaved|by left].
  - unfold deleteTab.
    destruct (findWorktree _ _) as [wi|]; [|by left].
    destruct (removeTabRecursive _ _); [by apply Hsaved|by left].
  - unfold reorderTabs.
    destruct (findWorktree _ _) as [wi|]; [|by left].
    destruct (locate _ _) as [[? ?]|]; [|by left].
    destruct (decide _); [by left|by apply Hsaved].
  - unfold moveTab.
    destruct (findWorktree _ _) as [wi|]; [|by left].
    destruct (locate _ _) as [[? ?]|]; [|by left].
    destruct (locate _ _) as [[? ?]|]; [|by left].
    destruct (findIndex _ _); [|by left].
    destruct (findById _ _); [|by left].
    destruct (moveInForest _ _ _ _ _ _ _ _); [by apply Hsaved|by right; eauto].
  - unfold updateTabGridSizes.
    destruct (findWorktree _ _) as [wi|]; [|by left].
    destruct (findTab _ _); [|by left].
    destruct (decide _); [by left|by apply Hsaved].
Qed.

Lemma updateTerminalCwd_shape (now : string) (ws : Workspace)
    (worktreeId x c : string) (g : Gateway) :
  let o := updateTerminalCwd now ws worktreeId x c g in
  o = mkOutcome false ws g
  \/ exists wi l,
       findWorktree (worktrees ws) worktreeId = Some wi
       /\ o = commit true now (setWorktreeTabs wi l ws) g.
Proof.
  simpl. unfold updateTerminalCwd.
  destruct (findWorktree _ _) as [wi|]; [|by left].
  destruct (findTab _ _); [|by left].
  destruct (decide _); [by left|by right; eauto].
Qed.

(** X18.  Whatever an operation returns, it changes of the workspace at most
    [updatedAt] and the tabs of the worktree its input names: the workspace's
    id, name, repository path, branch, active worktree, active tab and
    creation time, the number and order of the worktrees, each worktree's id,
    branch, path and creation time, and every worktree with another id stay
    as they are.  This holds for the late failure of [moveTab] too. *)
Theorem operations_touch_one_worktree (now : string) (ws : Workspace) (g : Gateway) :
  (forall op,
     SameWorkspaceBut (operationWorktree op) ws (workspace' (runOperation now ws op g)))
  /\ (forall worktreeId x c,
        SameWorkspaceBut worktreeId ws
          (workspace' (updateTerminalCwd now ws worktreeId x c g))).
Proof.
  split.
  - intros op.
    destruct (runOperation_shape now ws op g) as [->|(wi & l & Hwt & [->| ->])]; simpl.
    + apply SameWorkspaceBut_refl.
    + by apply SameWorkspaceBut_setWorktreeTabs.
    + by apply SameWorkspaceBut_setUpdatedAt, SameWorkspaceBut_setWorktreeTabs.
  - intros worktreeId x c.
    destruct (updateTerminalCwd_shape now ws worktreeId x c g) as [->|(wi & l & Hwt & ->)]; simpl.
    + apply SameWorkspaceBut_refl.
    + by apply SameWorkspaceBut_setUpdatedAt, SameWorkspaceBut_setWorktreeTabs.
Qed.

Lemma save_cases (ws' : Workspace) (g : Gateway) :
  saved ws' g = g \/ WroteEntry ws' g (saved ws' g).
Proof.
  unfold saved, save, gw_read, gw_write.
  destruct (readError g); [by left|].
  destruct (findWorkspaceIndex (workspaces (stored g)) (ws_id ws')) as [index|] eqn:Hi;
    [|by left].
  destruct (writeError g); [by left|].
  right. exists index. split; [done|]. simpl.
  destruct (findWorkspaceIndex_Some _ _ _ Hi) as (old & Hold & _).
  repeat (split; [done|]).
  split; [by rewrite length_insert|].
  split.
  - apply list_lookup_insert_eq. by eapply lookup_lt_Some.
  - intros j Hj. by apply list_lookup_insert_ne.
Qed.

(** X19.  An operation writes to the gateway at most once, and only when it
    succeeds: after a failure, the late one of [moveTab] included, the
    gateway is as it was.  The one write replaces the first stored workspace
    with this workspace's id by the workspace as the operation left it, and
    keeps every other stored workspace, [lastOpenedWorkspaceId] and
    [activeWorkspaceId]. *)
Theorem operations_write_at_most_once (now : string) (ws : Workspace) (g : Gateway) :
  (forall op,
     let o := runOperation now ws op g in
     (result o = false -> gateway' o = g)
     /\ (gateway' o = g \/ WroteEntry (workspace' o) g (gateway' o)))
  /\ (forall worktreeId x c,
        let o := updateTerminalCwd now ws worktreeId x c g in
        (result o = false -> gateway' o = g)
        /\ (gateway' o = g \/ WroteEntry (workspace' o) g (gateway' o))).
Proof.
  split.
  - intros op.
    destruct (runOperation_shape now ws op g) as [->|(wi & l & Hwt & [->| ->])]; simpl.
    + split; [done|by left].
    + split; [done|by left].
    + split; [by destruct (save _ g)|]. apply save_cases.
  - intros worktreeId x c.
    destruct (updateTerminalCwd_shape now ws worktreeId x c g) as [->|(wi & l & Hwt & ->)]; simpl.
    + split; [done|by left].
    + split; [by destruct (save _ g)|]. apply save_cases.
Qed.

(** ** reorderTabs *)

Lemma findIndex_NoDup (l : list Tab) (i : nat) (u : Tab) :
  NoDup ((tab_id ∘ data) <$> l) -> l !! i = Some u ->
  findIndex l (tab_id (data u)) = Some i.
Proof.
  revert i. induction l as [|t rest IH]; intros i Hnd Hi; [done|].
  rewrite fmap_cons in Hnd. apply NoDup_cons in Hnd as [Hhead Hnd].
  destruct i as [|i]; simpl in *.
  - injection Hi as ->. by rewrite decide_True.
  - rewrite decide_False.
    + by rewrite (IH i Hnd Hi).
    + intros E. apply Hhead. simpl. rewrite E. apply list_elem_of_fmap.
      exists u. split; [done|]. by eapply list_elem_of_lookup_2.
Qed.

Lemma omap_findById_all (l0 l : list Tab) :
  (forall u, u ∈ l -> findById l0 (tab_id (data u)) = Some u) ->
  omap (findById l0) ((tab_id ∘ data) <$> l) = l.
Proof.
  induction l as [|t rest IH]; intros H; [done|].
  rewrite fmap_cons. csimpl. rewrite (H t) by apply list_elem_of_here.
  rewrite IH; [done|]. intros u Hu. apply H. by apply list_elem_of_further.
Qed.

Lemma omap_findById_NoDup (l : list Tab) :
  NoDup ((tab_id ∘ data) <$> l) -> omap (findById l) ((tab_id ∘ data) <$> l) = l.
Proof.
  intros Hnd. apply omap_findById_all. intros u [i Hi]%list_elem_of_lookup_1.
  by rewrite (findById_Some _ _ _ (findIndex_NoDup _ _ _ Hnd Hi)).
Qed.

Lemma fmap_id_omap_findById (l : list Tab) (tabIds : list string) :
  (forall x, x ∈ tabIds -> x ∈ (tab_id ∘ data) <$> l) ->
  (tab_id ∘ data) <$> omap (findById l) tabIds = tabIds.
Proof.
  induction tabIds as [|x rest IH]; intros H; [done|]. csimpl.
  assert (Hx : is_Some (findIndex l x)).
  { apply findIndex_top, H, list_elem_of_here. }
  destruct Hx as [i Hi]. rewrite (findById_Some _ _ _ Hi).
  destruct (findIndex_Some _ _ _ Hi) as (t & Ht & Hid & _). rewrite Ht. csimpl.
  rewrite Hid, IH; [done|]. intros y Hy. apply H. by apply list_elem_of_further.
Qed.

Lemma fmap_id_recalculate (l : list Tab) (ncols : Z) :
  (tab_id ∘ data) <$> recalculateTabPositions l ncols = (tab_id ∘ data) <$> l.
Proof.
  apply list_eq. intros i. rewrite !list_lookup_fmap, lookup_recalculate.
  by destruct (l !! i).
Qed.

(** When the count check passes, [reorderTabs] stores the rebuilt list and
    reaches the save block. *)
Lemma reorderTabs_checked (now : string) (ws : Workspace) (worktreeId : string)
    (parentTabId : option string) (tabIds : list string) (g : Gateway)
    (wi : nat) (wt : Worktree) (siblings : list Tab) (ncols : Z) :
  findWorktree (worktrees ws) worktreeId = Some wi ->
  worktrees ws !! wi = Some wt ->
  locate (wt_tabs wt) (container parentTabId) = Some (siblings, ncols) ->
  length (omap (findById siblings) tabIds) = length siblings ->
  exists forest',
    reorderTabs now ws worktreeId parentTabId tabIds g
    = commit (success ()) now (setWorktreeTabs wi forest' ws) g
    /\ locate forest' (container parentTabId)
       = Some (recalculateTabPositions (omap (findById siblings) tabIds) ncols, ncols).
Proof.
  intros Hwt Hwi Hl Hlen. unfold reorderTabs. rewrite Hwt, Hwi. simpl. rewrite Hl.
  rewrite decide_False by (by intros ?).
  eexists. split; [reflexivity|].
  destruct (container parentTabId) as [|p]; [by injection Hl as <- <-|].
  apply locate_InGroup in Hl as (P & HP & Hg & -> & ->).
  apply locate_InGroup. eexists. split.
  - apply (findTab_mutateTab _ p _ P HP). by apply findTab_id in HP.
  - by repeat split.
Qed.

(** X20.  Given the ids of the siblings, distinct, in any order,
    [reorderTabs] puts the siblings in that order: the list afterwards
    carries the ids as passed and consists of the tabs there were, each once
    and differing at most in [order], [row] and [col], now with [order] equal
    to the index.  The call succeeds unless the gateway throws. *)
Theorem reorderTabs_permutes (now : string) (ws : Workspace) (worktreeId : string)
    (parentTabId : option string) (tabIds : list string) (g : Gateway)
    (wi : nat) (wt : Worktree) (siblings : list Tab) (ncols : Z) :
  findWorktree (worktrees ws) worktreeId = Some wi ->
  worktrees ws !! wi = Some wt ->
  locate (wt_tabs wt) (container parentTabId) = Some (siblings, ncols) ->
  NoDup ((tab_id ∘ data) <$> siblings) ->
  tabIds ≡ₚ (tab_id ∘ data) <$> siblings ->
  let o := reorderTabs now ws worktreeId parentTabId tabIds g in
  (Working g -> result o = success ())
  /\ exists forest' siblings',
       worktrees (workspace' o) !! wi = Some (setTabs forest' wt)
       /\ locate forest' (container parentTabId) = Some (siblings', ncols)
       /\ (tab_id ∘ data) <$> siblings' = tabIds
       /\ erasePosition <$> siblings' ≡ₚ erasePosition <$> siblings
       /\ IndexOrdered siblings'.
Proof.
  intros Hwt Hwi Hloc Hnd Hperm o.
  assert (Hre : omap (findById siblings) tabIds ≡ₚ siblings).
  { rewrite Hperm. by rewrite omap_findById_NoDup. }
  destruct (reorderTabs_checked now ws worktreeId parentTabId tabIds g wi wt siblings ncols
              Hwt Hwi Hloc ltac:(by rewrite Hre)) as (forest' & Ho & Hloc').
  fold o in Ho.
  split; [by intros Hg; rewrite Ho, (commit_Working _ _ _ _ Hg)|].
  exists forest', (recalculateTabPositions (omap (findById siblings) tabIds) ncols).
  split; [rewrite Ho; simpl; by rewrite list_lookup_alter_eq, Hwi|]. split; [done|]. split.
  - rewrite fmap_id_recalculate. apply fmap_id_omap_findById.
    intros x Hx. by rewrite <- Hperm.
  - split; [|apply IndexOrdered_recalculate].
    by rewrite erasePosition_recalculate, Hre.
Qed.

Lemma reorderTabs_permutes_witness :
  let G := groupTab "g" 2 [leafTab "A"; leafTab "B"; leafTab "C"] in
  let ws := oneWorktree [G] in
  let o := reorderTabs "now" ws "wt" (Some "g"%string) ["C"; "A"; "B"]%string (gatewayWith ws) in
  result o = success ()
  /\ exists forest' siblings',
       forestOf (workspace' o) = forest'
       /\ locate forest' (InGroup "g") = Some (siblings', 2)
       /\ (tab_id ∘ data) <$> siblings' = ["C"; "A"; "B"]%string.
Proof.
  intros G ws o.
  assert (Hnd : NoDup ((tab_id ∘ data) <$> [leafTab "A"; leafTab "B"; leafTab "C"]))
    by compute_done.
  assert (Hperm : ["C"; "A"; "B"]%string
                  ≡ₚ (tab_id ∘ data) <$> [leafTab "A"; leafTab "B"; leafTab "C"]).
  { simpl. apply (Permutation_cons_append ["A"; "B"]%string "C"%string). }
  destruct (reorderTabs_permutes "now" ws "wt" (Some "g"%string) ["C"; "A"; "B"]%string
              (gatewayWith ws) 0%nat
              {| wt_id := "wt"; wt_branch := "main"; wt_path := "/repo";
                 wt_tabs := [G]; wt_createdAt := "2025-01-01T00:00:00.000Z" |}
              [leafTab "A"; leafTab "B"; leafTab "C"] 2 eq_refl eq_refl eq_refl Hnd Hperm)
    as (Hok & forest' & siblings' & Hw & Hloc & Hids & _).
  split; [exact (Hok (Working_gatewayWith ws))|]. exists forest', siblings'.
  split; [unfold forestOf, o; rewrite Hw; reflexivity|]. by split.
Defined.

Lemma omap_findById_filter (l : list Tab) (tabIds : list string) :
  omap (findById l) (filter (fun x => x ∈ (tab_id ∘ data) <$> l) tabIds)
  = omap (findById l) tabIds.
Proof.
  induction tabIds as [|x rest IH]; [done|].
  rewrite filter_cons. destruct (decide (x ∈ (tab_id ∘ data) <$> l)) as [Hx|Hx]; csimpl.
  - by rewrite IH.
  - rewrite IH. destruct (findById l x) as [t|] eqn:Ht; [|done].
    exfalso. apply Hx. apply findById_id in Ht as [<- Hin].
    apply list_elem_of_fmap. by exists t.
Qed.

(** X21.  [reorderTabs] skips the ids of [tabIds] that name no sibling: the
    call behaves as the call with only the ids of siblings, in the same
    order.  So a list with unknown ids among those of all the siblings is
    accepted.  No assumption on the forest. *)
Theorem reorderTabs_skips_unknown_ids (now : string) (ws : Workspace) (worktreeId : string)
    (parentTabId : option string) (tabIds : list string) (g : Gateway)
    (wi : nat) (wt : Worktree) (siblings : list Tab) (ncols : Z) :
  findWorktree (worktrees ws) worktreeId = Some wi ->
  worktrees ws !! wi = Some wt ->
  locate (wt_tabs wt) (container parentTabId) = Some (siblings, ncols) ->
  reorderTabs now ws worktreeId parentTabId tabIds g
  = reorderTabs now ws worktreeId parentTabId
      (filter (fun x => x ∈ (tab_id ∘ data) <$> siblings) tabIds) g.
Proof.
  intros Hwt Hwi Hloc. unfold reorderTabs. rewrite Hwt, Hwi. simpl. rewrite Hloc.
  by rewrite omap_findById_filter.
Qed.

Lemma reorderTabs_skips_unknown_ids_witness :
  let ws := oneWorktree [leafTab "A"; leafTab "B"] in
  let o := reorderTabs "now" ws "wt" None ["zzz"; "B"; "A"]%string (gatewayWith ws) in
  result o = success ()
  /\ o = reorderTabs "now" ws "wt" None ["B"; "A"]%string (gatewayWith ws).
Proof.
  intros ws o. split; [reflexivity|]. unfold o.
  rewrite (reorderTabs_skips_unknown_ids "now" ws "wt" None ["zzz"; "B"; "A"]%string
             (gatewayWith ws) 0%nat
             {| wt_id := "wt"; wt_branch := "main"; wt_path := "/repo";
                wt_tabs := [leafTab "A"; leafTab "B"];
                wt_createdAt := "2025-01-01T00:00:00.000Z" |}
             [leafTab "A"; leafTab "B"] 2 eq_refl eq_refl eq_refl).
  reflexivity.
Defined.

(** ** moveTab: when it goes through, and what it keeps *)

Lemma idsIn_recalculated (p : Tab) (c : Z) :
  idsIn (withTabs (recalculateTabPositions (tabsOrEmpty p) c) p) = idsIn p.
Proof.
  rewrite !idsIn_unfold, data_withTabs. f_equal.
  unfold kids, groupTabs, withTabs, tabsOrEmpty. simpl.
  destruct (decide (tab_type (data p) = group)); [|done].
  destruct (tabs p) as [l|]; simpl; [apply ids_recalculate|done].
Qed.

(** The ids after the tab [X] was spliced into the group [T1]: the group gains
    them unless it has no [tabs] array, when the array made for it is not yet
    attached. *)
Lemma ids_spliced_in (w1 w2 : list Tab) (t : string) (T1 X : Tab) (idx : Z) :
  Replaced t T1 (match tabs T1 with
                 | Some l => withTabs (spliceIn l idx X) T1
                 | None => T1
                 end) w1 w2 ->
  tab_type (data T1) = group ->
  ids w2 ≡ₚ match tabs T1 with Some _ => idsIn X | None => [] end ++ ids w1.
Proof.
  intros R Hg. destruct (Replaced_ids _ _ _ _ _ R) as (pre & post & -> & ->).
  pose proof (group_groupTabs _ Hg) as Hgt.
  destruct (tabs T1) as [l1|] eqn:Ht; [|done].
  rewrite (idsIn_withTabs _ _ _ Hgt), (idsIn_unfold T1), (kids_groupTabs _ _ Hgt).
  rewrite ids_spliceIn. solve_Permutation.
Qed.

(** The ids after the recalculation of the target: the array made for a
    group without [tabs] is attached here. *)
Lemma ids_target_recalculated (w3 w4 : list Tab) (t : string) (T3 X : Tab) (c : Z) :
  Replaced t T3 (withTabs (recalculateTabPositions
                             (match tabs T3 with Some l => l | None => [X] end) c) T3) w3 w4 ->
  tab_type (data T3) = group ->
  ids w4 ≡ₚ match tabs T3 with Some _ => [] | None => idsIn X end ++ ids w3.
Proof.
  intros R Hg. destruct (Replaced_ids _ _ _ _ _ R) as (pre & post & -> & ->).
  rewrite (idsIn_group_withTabs _ _ Hg), ids_recalculate.
  rewrite (idsIn_unfold T3), (group_kids _ Hg). unfold tabsOrEmpty.
  destruct (tabs T3) as [l3|]; simpl; [done|].
  rewrite !app_nil_r. solve_Permutation.
Qed.

Lemma moveInForest_top_top_runs (w0 : list Tab) (k : nat) (X : Tab) (idx : Z) :
  w0 !! k = Some X ->
  exists w4, moveInForest w0 TopLevel TopLevel k X idx 2 2 = moved w4 /\ ids w4 ≡ₚ ids w0.
Proof.
  intros HX. unfold moveInForest. simpl. eexists. split; [done|].
  rewrite ids_recalculate, ids_spliceIn. symmetry. by apply ids_delete.
Qed.

Lemma moveInForest_same_group_runs (w0 : list Tab) (s x : string) (S : Tab)
    (k : nat) (X : Tab) (idx : Z) :
  findTab w0 s = Some S -> tab_type (data S) = group ->
  findIndex (tabsOrEmpty S) x = Some k -> tabsOrEmpty S !! k = Some X ->
  let c := orElse (cols (data S)) 2 in
  exists w4, moveInForest w0 (InGroup s) (InGroup s) k X idx c c = moved w4
             /\ ids w4 ≡ₚ ids w0.
Proof.
  intros HS Hg Hk HX c. unfold moveInForest.
  destruct (decide (InGroup s = InGroup s)) as [_|]; [|done].
  pose proof (findTab_id _ _ _ HS) as Hid.
  destruct (source_group S x k Hg Hk) as [Hts Hgt].
  set (f1 := fun p => withTabs (delete k (tabsOrEmpty p)) p).
  set (f2 := fun p => match tabs p with
                      | Some l => withTabs (spliceIn l idx X) p
                      | None => p end).
  set (f3 := fun p => withTabs (recalculateTabPositions (tabsOrEmpty p) c) p).
  pose proof (mutateTab_found w0 s f1 S HS) as R1.
  pose proof (findTab_mutateTab w0 s f1 S HS Hid) as H1.
  set (w1 := mutateTab w0 s f1) in *.
  pose proof (mutateTab_found w1 s f2 (f1 S) H1) as R2.
  pose proof (findTab_mutateTab w1 s f2 (f1 S) H1 Hid) as H2.
  set (w2 := mutateTab w1 s f2) in *.
  destruct (updateTab_found w2 s f3 _ H2 Hid) as (w3 & Hu3 & H3 & R3).
  rewrite Hu3, H2. simpl.
  set (f4 := fun p => withTabs _ p).
  destruct (updateTab_found w3 s f4 _ H3 Hid) as (w4 & Hu4 & H4 & R4).
  rewrite Hu4. exists w4. split; [done|].
  rewrite (Replaced_ids_same _ _ _ _ _ R4) by done.
  rewrite (Replaced_ids_same _ _ _ _ _ R3) by apply idsIn_recalculated.
  rewrite (ids_spliced_in w1 w2 s (f1 S) X idx R2 Hg). simpl.
  symmetry. by apply (ids_spliced_out w0 w1 s S k X).
Qed.

Lemma moveInForest_group_top_runs (w0 : list Tab) (s x : string) (S : Tab)
    (k : nat) (X : Tab) (idx : Z) :
  NoDup (ids w0) ->
  findTab w0 s = Some S -> tab_type (data S) = group ->
  findIndex (tabsOrEmpty S) x = Some k -> tabsOrEmpty S !! k = Some X ->
  let sc := orElse (cols (data S)) 2 in
  exists w4, moveInForest w0 (InGroup s) TopLevel k X idx sc 2 = moved w4
             /\ ids w4 ≡ₚ ids w0.
Proof.
  intros Hnd HS Hg Hk HX sc. unfold moveInForest.
  destruct (decide (InGroup s = TopLevel)) as [|_]; [done|].
  pose proof (findTab_id _ _ _ HS) as Hid.
  destruct (source_not_in_moved w0 s S k X Hnd HS Hg HX) as [HsX _].
  destruct (source_group S x k Hg Hk) as [_ Hgt].
  set (f1 := fun p => withTabs (delete k (tabsOrEmpty p)) p).
  set (f3 := fun p => withTabs (recalculateTabPositions (tabsOrEmpty p) sc) p).
  pose proof (mutateTab_found w0 s f1 S HS) as R1.
  pose proof (findTab_mutateTab w0 s f1 S HS Hid) as H1.
  set (w1 := mutateTab w0 s f1) in *.
  assert (H2 : findTab (spliceIn w1 idx X) s = Some (f1 S)) by by rewrite findTab_spliceIn.
  destruct (updateTab_found _ s f3 _ H2 Hid) as (w3 & Hu3 & H3 & R3).
  rewrite Hu3. eexists. split; [done|].
  rewrite ids_recalculate.
  rewrite (Replaced_ids_same _ _ _ _ _ R3) by apply idsIn_recalculated.
  rewrite ids_spliceIn. symmetry. by apply (ids_spliced_out w0 w1 s S k X).
Qed.

(** What a tab has become keeps having, or lacking, a [tabs] array. *)
Lemma Tracks_tabs_cases (x : string) (q q' : Tab) :
  Tracks x q q' ->
  match tabs q, tabs q' with
  | Some _, Some _ | None, None => True
  | _, _ => False
  end.
Proof.
  intros Htr. pose proof (Tracks_map_data _ _ _ Htr) as Hm.
  destruct (tabs q), (tabs q'); simpl in *; done.
Qed.

Lemma moveInForest_top_group_runs (w0 : list Tab) (t : string) (T : Tab)
    (k : nat) (X : Tab) (idx : Z) :
  NoDup (ids w0) ->
  w0 !! k = Some X ->
  findTab w0 t = Some T -> tab_type (data T) = group ->
  t ∉ idsIn X ->
  let tc := orElse (cols (data T)) 2 in
  exists w4, moveInForest w0 TopLevel (InGroup t) k X idx 2 tc = moved w4
             /\ ids w4 ≡ₚ ids w0.
Proof.
  intros Hnd HX HT Hg Hout tc. unfold moveInForest.
  destruct (decide (TopLevel = InGroup t)) as [|_]; [done|].
  pose proof (findTab_id _ _ _ HT) as Hid.
  pose proof (ids_delete w0 k X HX) as Hperm.
  set (w1 := delete k w0) in *.
  set (f2 := fun p => match tabs p with
                      | Some l => withTabs (spliceIn l idx X) p
                      | None => p end).
  assert (H1 : findTab w1 t = Some T).
  { unfold w1. by rewrite (findTab_delete w0 k X t HX Hout). }
  assert (Hid2 : tab_id (data (f2 T)) = t) by by (unfold f2; rewrite data_insert).
  pose proof (mutateTab_found w1 t f2 T H1) as R2.
  pose proof (findTab_mutateTab w1 t f2 T H1 Hid2) as H2.
  set (w2 := mutateTab w1 t f2) in *.
  pose proof (findTab_recalculate w2 2 t t) as Htr. rewrite H2 in Htr.
  destruct (findTab (recalculateTabPositions w2 2) t) as [T3|] eqn:H3; [|done].
  simpl in Htr.
  destruct (Tracks_fields _ _ _ Htr) as (Hid3 & Hty3 & Hc3).
  unfold f2 in Hid3, Hty3, Hc3. rewrite data_insert in Hid3, Hty3, Hc3.
  set (f4 := fun p => withTabs _ p).
  destruct (updateTab_found _ t f4 T3 H3) as (w4 & Hu4 & H4 & R4); [by rewrite <- Hid3 in Hid|].
  rewrite Hu4. exists w4. split; [done|].
  assert (Hg3 : tab_type (data T3) = group) by (by rewrite Hty3).
  rewrite (ids_target_recalculated _ _ t T3 X tc R4 Hg3), ids_recalculate.
  rewrite (ids_spliced_in w1 w2 t T X idx R2 Hg), Hperm.
  pose proof (Tracks_tabs_cases _ _ _ Htr) as Hcases. unfold f2 in Hcases.
  destruct (tabs T) as [l|] eqn:ET, (tabs T3) as [l3|] eqn:ET3; simpl in *;
    rewrite ?ET in Hcases; done.
Qed.

Lemma moveInForest_group_group_runs (w0 : list Tab) (s t x : string) (S T : Tab)
    (k : nat) (X : Tab) (idx : Z) :
  NoDup (ids w0) -> s <> t ->
  findTab w0 s = Some S -> tab_type (data S) = group ->
  findTab w0 t = Some T -> tab_type (data T) = group ->
  findIndex (tabsOrEmpty S) x = Some k -> tabsOrEmpty S !! k = Some X ->
  t ∉ idsIn X ->
  let sc := orElse (cols (data S)) 2 in
  let tc := orElse (cols (data T)) 2 in
  exists w4, moveInForest w0 (InGroup s) (InGroup t) k X idx sc tc = moved w4
             /\ ids w4 ≡ₚ ids w0.
Proof.
  intros Hnd Hst HS HgS HT HgT Hk HX Hout sc tc. unfold moveInForest.
  destruct (decide (InGroup s = InGroup t)) as [[= ?]|_]; [done|].
  pose proof (findTab_id _ _ _ HS) as HidS.
  pose proof (findTab_id _ _ _ HT) as HidT.
  destruct (source_not_in_moved w0 s S k X Hnd HS HgS HX) as [HsX _].
  destruct (source_group S x k HgS Hk) as [HtsS HgtS].
  set (f1 := fun p => withTabs (delete k (tabsOrEmpty p)) p).
  set (f2 := fun p => match tabs p with
                      | Some l => withTabs (spliceIn l idx X) p
                      | None => p end).
  set (f3 := fun p => withTabs (recalculateTabPositions (tabsOrEmpty p) sc) p).
  pose proof (mutateTab_found w0 s f1 S HS) as R1.
  pose proof (findTab_mutateTab w0 s f1 S HS HidS) as H1s.
  set (w1 := mutateTab w0 s f1) in *.
  pose proof (ids_spliced_out w0 w1 s S k X R1 HgtS HX) as Hperm1.
  pose proof Hnd as Hnd0. rewrite Hperm1 in Hnd.
  pose proof Hnd as HndX1. apply NoDup_app in Hnd as (_ & Hdisj & Hnd1).
  assert (Htr1 : TracksO s (findTab w0 t) (findTab w1 t)).
  { apply (Replaced_tracks s t S (f1 S)); auto.
    - intros _. rewrite (kids_groupTabs _ _ HgtS). unfold f1.
      rewrite (kids_withTabs _ _ _ HgtS), (findTab_delete _ k X t HX Hout).
      apply TracksO_refl.
    - intros Hn. unfold f1. rewrite (idsIn_withTabs _ _ _ HgtS).
      rewrite idsIn_unfold, (kids_groupTabs _ _ HgtS) in Hn.
      rewrite not_elem_of_cons in Hn |- *. destruct Hn as [Hn1 Hn2].
      split; [done|]. intros Hd. apply Hn2. by apply ids_delete_elem in Hd. }
  rewrite HT in Htr1. destruct (findTab w1 t) as [T1|] eqn:H1t; [|done]. simpl in Htr1.
  destruct (Tracks_fields _ _ _ Htr1) as (HidT1 & HtyT1 & HcT1).
  assert (HgT1 : tab_type (data T1) = group) by congruence.
  assert (Hid1 : tab_id (data T1) = t) by congruence.
  assert (Hid2 : tab_id (data (f2 T1)) = t) by by (unfold f2; rewrite data_insert).
  pose proof (mutateTab_found w1 t f2 T1 H1t) as R2.
  pose proof (findTab_mutateTab w1 t f2 T1 H1t Hid2) as H2t.
  set (w2 := mutateTab w1 t f2) in *.
  pose proof (NoDup_spliced_in w1 w2 t T1 X idx R2 HgT1 HndX1) as Hnd2.
  assert (Htr2 : TracksO t (findTab w1 s) (findTab w2 s)).
  { apply (Replaced_tracks t s T1 (f2 T1)); auto.
    - unfold f2. apply data_insert.
    - intros _. unfold f2. pose proof (group_groupTabs _ HgT1) as Hgt.
      destruct (tabs T1) as [l1|] eqn:Ht1; [|apply TracksO_refl].
      rewrite (kids_groupTabs _ _ Hgt), (kids_withTabs _ _ _ Hgt), findTab_spliceIn by done.
      apply TracksO_refl.
    - intros Hn. unfold f2. pose proof (group_groupTabs _ HgT1) as Hgt.
      destruct (tabs T1) as [l1|] eqn:Ht1; [|done].
      rewrite (idsIn_withTabs _ _ _ Hgt).
      rewrite idsIn_unfold, (kids_groupTabs _ _ Hgt) in Hn.
      rewrite not_elem_of_cons in Hn |- *. destruct Hn as [Hn1 Hn2].
      split; [done|]. rewrite ids_spliceIn, not_elem_of_app. auto. }
  rewrite H1s in Htr2. destruct (findTab w2 s) as [S2|] eqn:H2s; [|done]. simpl in Htr2.
  destruct (Tracks_fields _ _ _ Htr2) as (HidS2 & HtyS2 & HcS2).
  assert (HgS2 : tab_type (data S2) = group) by (rewrite HtyS2; exact HgS).
  assert (HidS2' : tab_id (data S2) = s) by (rewrite HidS2; exact HidS).
  destruct (updateTab_found w2 s f3 S2 H2s HidS2') as (w3 & Hu3 & H3s & R3).
  rewrite Hu3.
  assert (Hids3 : idsIn (f3 S2) = idsIn S2) by apply idsIn_recalculated.
  assert (Htr3 : TracksO s (findTab w2 t) (findTab w3 t)).
  { apply (Replaced_tracks s t S2 (f3 S2)); auto.
    - intros _. unfold f3.
      rewrite (group_kids_withTabs _ _ HgS2), (group_kids S2 HgS2).
      apply findTab_recalculate.
    - by rewrite Hids3. }
  rewrite H2t in Htr3. destruct (findTab w3 t) as [T3|] eqn:H3t; [|done]. simpl in Htr3.
  destruct (Tracks_fields _ _ _ Htr3) as (HidT3 & HtyT3 & HcT3).
  unfold f2 in HidT3, HtyT3, HcT3. rewrite data_insert in HidT3, HtyT3, HcT3.
  assert (HgT3 : tab_type (data T3) = group) by congruence.
  assert (HidT3' : tab_id (data T3) = t) by congruence.
  set (f4 := fun p => withTabs _ p).
  destruct (updateTab_found w3 t f4 T3 H3t HidT3') as (w4 & Hu4 & H4t & R4).
  rewrite Hu4. exists w4. split; [done|].
  rewrite (ids_target_recalculated _ _ t T3 X tc R4 HgT3).
  rewrite (Replaced_ids_same _ _ _ _ _ R3 Hids3).
  rewrite (ids_spliced_in w1 w2 t T1 X idx R2 HgT1), Hperm1.
  pose proof (Tracks_tabs_cases _ _ _ Htr3) as Hcases. unfold f2 in Hcases.
  destruct (tabs T1) as [l|] eqn:ET, (tabs T3) as [l3|] eqn:ET3; simpl in *;
    rewrite ?ET in Hcases; done.
Qed.

(** In a forest with distinct ids, a move whose target group does not lie in
    the moved tab runs to its end, and the forest it leaves has the ids it
    had. *)
Lemma moveInForest_runs (w0 : list Tab) (src tgt : Container)
    (sourceTabs targetTabs : list Tab) (sc tc : Z) (x : string)
    (k : nat) (X : Tab) (idx : Z) :
  NoDup (ids w0) ->
  locate w0 src = Some (sourceTabs, sc) ->
  locate w0 tgt = Some (targetTabs, tc) ->
  findIndex sourceTabs x = Some k -> sourceTabs !! k = Some X ->
  (forall t, tgt = InGroup t -> t ∉ idsIn X) ->
  exists w4, moveInForest w0 src tgt k X idx sc tc = moved w4 /\ ids w4 ≡ₚ ids w0.
Proof.
  intros Hnd Hs Ht Hk HX Hout. destruct src as [|s], tgt as [|t].
  - injection Hs as <- <-. injection Ht as <- <-. by apply moveInForest_top_top_runs.
  - injection Hs as <- <-.
    apply locate_InGroup in Ht as (T & HT & HgT & -> & ->).
    apply moveInForest_top_group_runs; auto.
  - injection Ht as <- <-.
    apply locate_InGroup in Hs as (S & HS & HgS & -> & ->).
    by apply (moveInForest_group_top_runs w0 s x).
  - apply locate_InGroup in Hs as (S & HS & HgS & -> & ->).
    apply locate_InGroup in Ht as (T & HT & HgT & -> & ->).
    destruct (decide (s = t)) as [<-|Hst].
    + assert (T = S) as -> by congruence. by apply (moveInForest_same_group_runs w0 s x).
    + apply (moveInForest_group_group_runs w0 s t x); auto.
Qed.

Lemma moveTab_unfold (now : string) (ws : Workspace) (worktreeId x : string)
    (srcP tgtP : option string) (idx : Z) (g : Gateway) (wi : nat) (wt : Worktree)
    (sourceTabs targetTabs : list Tab) (sc tc : Z) (k : nat) (X : Tab) :
  findWorktree (worktrees ws) worktreeId = Some wi ->
  worktrees ws !! wi = Some wt ->
  locate (wt_tabs wt) (container srcP) = Some (sourceTabs, sc) ->
  locate (wt_tabs wt) (container tgtP) = Some (targetTabs, tc) ->
  findIndex sourceTabs x = Some k -> sourceTabs !! k = Some X ->
  moveTab now ws worktreeId x srcP tgtP idx g
  = match moveInForest (wt_tabs wt) (container srcP) (container tgtP) k X idx sc tc with
    | moved wtabs' => commit (success ()) now (setWorktreeTabs wi wtabs' ws) g
    | thrown wtabs' => mkOutcome (failure nullTabsError) (setWorktreeTabs wi wtabs' ws) g
    end.
Proof.
  intros Hwt Hwi Hs Ht Hk HX. unfold moveTab. rewrite Hwt, Hwi. simpl.
  by rewrite Hs, Ht, Hk, (findById_Some _ _ _ Hk), HX.
Qed.

(** What [moveTab] does once the worktree is found, in a forest with
    distinct ids. *)
Lemma moveTab_cases (now : string) (ws : Workspace) (worktreeId x : string)
    (srcP tgtP : option string) (idx : Z) (g : Gateway) (wi : nat) (wt : Worktree) :
  findWorktree (worktrees ws) worktreeId = Some wi ->
  worktrees ws !! wi = Some wt ->
  NoDup (ids (wt_tabs wt)) ->
  let o := moveTab now ws worktreeId x srcP tgtP idx g in
  (isSuccess (result o) = false
   /\ ~ exists sourceTabs sc targetTabs tc X,
          locate (wt_tabs wt) (container srcP) = Some (sourceTabs, sc)
          /\ locate (wt_tabs wt) (container tgtP) = Some (targetTabs, tc)
          /\ findById sourceTabs x = Some X)
  \/ exists sourceTabs sc targetTabs tc k X,
       locate (wt_tabs wt) (container srcP) = Some (sourceTabs, sc)
       /\ locate (wt_tabs wt) (container tgtP) = Some (targetTabs, tc)
       /\ findIndex sourceTabs x = Some k /\ sourceTabs !! k = Some X
       /\ ((isSuccess (result o) = false
            /\ exists t, container tgtP = InGroup t /\ t ∈ idsIn X)
           \/ ((forall t, container tgtP = InGroup t -> t ∉ idsIn X)
               /\ exists w4,
                    o = commit (success ()) now (setWorktreeTabs wi w4 ws) g
                    /\ ids w4 ≡ₚ ids (wt_tabs wt)
                    /\ MovedTo w4 (container srcP) (container tgtP)
                         sourceTabs targetTabs sc tc k X idx)).
Proof.
  intros Hwt Hwi Hnd o.
  destruct (locate (wt_tabs wt) (container srcP)) as [[sourceTabs sc]|] eqn:Hs.
  2: { left. split.
       - unfold o, moveTab. by rewrite Hwt, Hwi; simpl; rewrite Hs.
       - by intros (? & ? & ? & ? & ? & ? & _). }
  destruct (locate (wt_tabs wt) (container tgtP)) as [[targetTabs tc]|] eqn:Ht.
  2: { left. split.
       - unfold o, moveTab. by rewrite Hwt, Hwi; simpl; rewrite Hs, Ht.
       - by intros (? & ? & ? & ? & ? & _ & ? & _). }
  destruct (findIndex sourceTabs x) as [k|] eqn:Hk.
  2: { left. split.
       - unfold o, moveTab. by rewrite Hwt, Hwi; simpl; rewrite Hs, Ht, Hk.
       - intros (? & ? & ? & ? & X & [= <- <-] & _ & HX).
         unfold findById in HX. by rewrite Hk in HX. }
  destruct (findIndex_Some _ _ _ Hk) as (X & HX & _ & _).
  right. exists sourceTabs, sc, targetTabs, tc, k, X. repeat (split; [done|]).
  pose proof (moveTab_unfold now ws worktreeId x srcP tgtP idx g wi wt
                sourceTabs targetTabs sc tc k X Hwt Hwi Hs Ht Hk HX) as Ho.
  fold o in Ho.
  assert (Hdec : (exists t, container tgtP = InGroup t /\ t ∈ idsIn X)
                 \/ (forall t, container tgtP = InGroup t -> t ∉ idsIn X)).
  { destruct (container tgtP) as [|t]; [by right|].
    destruct (decide (t ∈ idsIn X)); [left; by eauto|right]. by intros ? [= <-]. }
  destruct Hdec as [(t & Et & Hin)|Hout].
  - left. split; [|by eauto]. rewrite Et in Ho.
    destruct (moveInForest_thrown (wt_tabs wt) (container srcP) t sourceTabs sc tc x k X idx
                Hnd Hs Hk HX Hin) as (w & Hw & _).
    rewrite Hw in Ho. by rewrite Ho.
  - right. split; [done|].
    destruct (moveInForest_runs (wt_tabs wt) _ _ _ _ _ _ x k X idx Hnd Hs Ht Hk HX Hout)
      as (w4 & Hw4 & Hids).
    rewrite Hw4 in Ho. exists w4. split; [done|]. split; [done|].
    by apply (moveInForest_moved (wt_tabs wt) _ _ _ _ _ _ x).
Qed.

(** X22.  In a worktree whose tab ids are distinct, [moveTab] succeeds only
    when its checks pass (the source and the target list are found, and the
    source list holds the tab) and the target group is not the moved tab or a
    group inside it; unless the gateway throws, it succeeds exactly then. *)
Theorem moveTab_succeeds_iff (now : string) (ws : Workspace) (worktreeId x : string)
    (srcP tgtP : option string) (idx : Z) (g : Gateway) (wi : nat) (wt : Worktree) :
  findWorktree (worktrees ws) worktreeId = Some wi ->
  worktrees ws !! wi = Some wt ->
  NoDup (ids (wt_tabs wt)) ->
  let o := moveTab now ws worktreeId x srcP tgtP idx g in
  let passes :=
    exists sourceTabs sc targetTabs tc X,
      locate (wt_tabs wt) (container srcP) = Some (sourceTabs, sc)
      /\ locate (wt_tabs wt) (container tgtP) = Some (targetTabs, tc)
      /\ findById sourceTabs x = Some X
      /\ (forall t, container tgtP = InGroup t -> t ∉ idsIn X) in
  (result o = success () -> passes)
  /\ (Working g -> (result o = success () <-> passes)).
Proof.
  intros Hwt Hwi Hnd o passes.
  assert (Hiff : (result o = success () -> passes)
                 /\ (Working g -> passes -> result o = success ())); [|tauto].
  unfold passes.
  destruct (moveTab_cases now ws worktreeId x srcP tgtP idx g wi wt Hwt Hwi Hnd)
    as [[Hfail Hno]|(sourceTabs & sc & targetTabs & tc & k & X & Hs & Ht & Hk & HX & Hcase)];
    fold o in Hfail || fold o in Hcase.
  - split.
    + intros E. by rewrite E in Hfail.
    + intros _ (? & ? & ? & ? & ? & ? & ? & ? & _). exfalso. apply Hno. by eauto 10.
  - destruct Hcase as [[Hfail (t & Et & Hin)]|[Hout (w4 & Ho & _)]].
    + split.
      * intros E. by rewrite E in Hfail.
      * intros _ (? & ? & ? & ? & X' & Hs' & _ & HX' & Hout).
        rewrite Hs in Hs'. injection Hs' as <- <-.
        rewrite (findById_Some _ _ _ Hk), HX in HX'. injection HX' as <-.
        exfalso. by apply (Hout t).
    + split; [|by intros Hg _; rewrite Ho, (commit_Working _ _ _ _ Hg)]. intros _.
      exists sourceTabs, sc, targetTabs, tc, X. repeat (split; [done|]).
      split; [by rewrite (findById_Some _ _ _ Hk)|done].
Qed.

Lemma moveTab_succeeds_iff_witness :
  let inner := groupTab "h" 2 [leafTab "c"] in
  let ws := oneWorktree [groupTab "g" 2 [inner]; leafTab "t"] in
  result (moveTab "now" ws "wt" "t" None (Some "h"%string) 0 (gatewayWith ws)) = success ()
  /\ result (moveTab "now" ws "wt" "g" None (Some "h"%string) 0 (gatewayWith ws))
     <> success ().
Proof.
  intros inner ws.
  assert (Hnd : NoDup (ids [groupTab "g" 2 [inner]; leafTab "t"])) by compute_done.
  pose proof (moveTab_succeeds_iff "now" ws "wt" "t" None (Some "h"%string) 0 (gatewayWith ws)
                0%nat {| wt_id := "wt"; wt_branch := "main"; wt_path := "/repo";
                         wt_tabs := [groupTab "g" 2 [inner]; leafTab "t"];
                         wt_createdAt := "2025-01-01T00:00:00.000Z" |}
                eq_refl eq_refl Hnd) as [_ Ht].
  pose proof (moveTab_succeeds_iff "now" ws "wt" "g" None (Some "h"%string) 0 (gatewayWith ws)
                0%nat {| wt_id := "wt"; wt_branch := "main"; wt_path := "/repo";
                         wt_tabs := [groupTab "g" 2 [inner]; leafTab "t"];
                         wt_createdAt := "2025-01-01T00:00:00.000Z" |}
                eq_refl eq_refl Hnd) as [Hg _].
  split.
  - apply (Ht (Working_gatewayWith ws)). eexists _, _, _, _, (leafTab "t").
    split; [reflexivity|]. split; [reflexivity|]. split; [reflexivity|].
    intros t [= <-]. compute_done.
  - intros E. apply Hg in E as (? & ? & ? & ? & X & [= <- <-] & _ & [= <-] & Hout).
    apply (Hout "h"%string eq_refl). compute_done.
Defined.

(** X23.  In a worktree whose tab ids are distinct, a successful [moveTab]
    loses no tab and doubles none: the forest afterwards has the ids it had,
    so they are distinct again, and [findTab] finds a tab for exactly the ids
    for which it found one before. *)
Theorem moveTab_keeps_ids (now : string) (ws : Workspace) (worktreeId x : string)
    (srcP tgtP : option string) (idx : Z) (g : Gateway) (wi : nat) (wt : Worktree) :
  findWorktree (worktrees ws) worktreeId = Some wi ->
  worktrees ws !! wi = Some wt ->
  NoDup (ids (wt_tabs wt)) ->
  let o := moveTab now ws worktreeId x srcP tgtP idx g in
  result o = success () ->
  exists forest',
    worktrees (workspace' o) !! wi = Some (setTabs forest' wt)
    /\ ids forest' ≡ₚ ids (wt_tabs wt)
    /\ NoDup (ids forest')
    /\ (forall y, is_Some (findTab forest' y) <-> is_Some (findTab (wt_tabs wt) y)).
Proof.
  intros Hwt Hwi Hnd o Hok.
  destruct (moveTab_cases now ws worktreeId x srcP tgtP idx g wi wt Hwt Hwi Hnd)
    as [[Hfail _]|(sourceTabs & sc & targetTabs & tc & k & X & _ & _ & _ & _ & Hcase)];
    fold o in Hfail || fold o in Hcase.
  { by rewrite Hok in Hfail. }
  destruct Hcase as [[Hfail _]|[_ (w4 & Ho & Hids & _)]].
  { by rewrite Hok in Hfail. }
  exists w4. split; [rewrite Ho; simpl; by rewrite list_lookup_alter_eq, Hwi|].
  split; [done|]. split; [by rewrite Hids|].
  intros y. by rewrite !findTab_is_Some, Hids.
Qed.

Lemma moveTab_keeps_ids_witness :
  let inner := groupTab "X" 3 [leafTab "x1"; leafTab "x2"] in
  let A := groupTab "A" 2 [inner; leafTab "Y"] in
  let B := groupTab "B" 2 [leafTab "Z"] in
  let ws := oneWorktree [A; B] in
  let o := moveTab "now" ws "wt" "X" (Some "A"%string) (Some "B"%string) 0 (gatewayWith ws) in
  NoDup (ids (forestOf (workspace' o)))
  /\ is_Some (findTab (forestOf (workspace' o)) "x2").
Proof.
  intros inner A B ws o.
  assert (Hnd : NoDup (ids [A; B])) by compute_done.
  destruct (moveTab_keeps_ids "now" ws "wt" "X" (Some "A"%string) (Some "B"%string) 0
              (gatewayWith ws) 0%nat
              {| wt_id := "wt"; wt_branch := "main"; wt_path := "/repo";
                 wt_tabs := [A; B]; wt_createdAt := "2025-01-01T00:00:00.000Z" |}
              eq_refl eq_refl Hnd eq_refl) as (forest' & Hw & _ & Hnd' & Hfind).
  unfold forestOf, o. rewrite Hw. simpl. split; [exact Hnd'|].
  apply Hfind. by eexists.
Defined.

Lemma spliceIn_own_index (l : list Tab) (k : nat) (X : Tab) :
  l !! k = Some X -> spliceIn (delete k l) (Z.of_nat k) X = l.
Proof.
  intros HX. pose proof (lookup_lt_Some _ _ _ HX) as Hlt.
  unfold spliceIn, spliceStart. rewrite decide_False by lia.
  rewrite length_delete by (by eexists).
  replace (Z.to_nat (Z.min (Z.of_nat k) (Z.of_nat (length l - 1)))) with k by lia.
  rewrite delete_take_drop.
  rewrite take_app_length', drop_app_length' by (rewrite length_take; lia).
  by apply take_drop_middle.
Qed.

(** X24.  In a worktree whose tab ids are distinct, a move within one list
    (the same parent as source and target) always goes through when the list
    is found and holds the tab: the list becomes the recalculation of itself
    with the tab spliced out and in again, and the call succeeds unless the
    gateway throws.  With the tab's own index as target, the move only
    recalculates the list. *)
Theorem moveTab_within_one_list (now : string) (ws : Workspace) (worktreeId x : string)
    (parent : option string) (idx : Z) (g : Gateway) (wi : nat) (wt : Worktree)
    (siblings : list Tab) (ncols : Z) (k : nat) (X : Tab) :
  findWorktree (worktrees ws) worktreeId = Some wi ->
  worktrees ws !! wi = Some wt ->
  NoDup (ids (wt_tabs wt)) ->
  locate (wt_tabs wt) (container parent) = Some (siblings, ncols) ->
  findIndex siblings x = Some k -> siblings !! k = Some X ->
  let o := moveTab now ws worktreeId x parent parent idx g in
  (Working g -> result o = success ())
  /\ exists forest',
       worktrees (workspace' o) !! wi = Some (setTabs forest' wt)
       /\ locate forest' (container parent)
          = Some (recalculateTabPositions (spliceIn (delete k siblings) idx X) ncols, ncols)
       /\ (idx = Z.of_nat k ->
           locate forest' (container parent)
           = Some (recalculateTabPositions siblings ncols, ncols)).
Proof.
  intros Hwt Hwi Hnd Hloc Hk HX o.
  assert (Hout : forall t, container parent = InGroup t -> t ∉ idsIn X).
  { intros t Et. rewrite Et in Hloc.
    apply locate_InGroup in Hloc as (S & HS & HgS & -> & ->).
    by destruct (source_not_in_moved _ t S k X Hnd HS HgS HX). }
  destruct (moveInForest_runs (wt_tabs wt) _ _ _ _ _ _ x k X idx Hnd Hloc Hloc Hk HX Hout)
    as (w4 & Hw4 & _).
  pose proof (moveTab_unfold now ws worktreeId x parent parent idx g wi wt
                siblings siblings ncols ncols k X Hwt Hwi Hloc Hloc Hk HX) as Ho.
  fold o in Ho. rewrite Hw4 in Ho.
  pose proof (moveInForest_moved (wt_tabs wt) _ _ _ _ _ _ x k X idx w4
                Hnd Hloc Hloc Hk HX Hw4) as Hm.
  unfold MovedTo in Hm. rewrite decide_True in Hm by done.
  split; [by intros Hg; rewrite Ho, (commit_Working _ _ _ _ Hg)|]. exists w4.
  split; [rewrite Ho; simpl; by rewrite list_lookup_alter_eq, Hwi|].
  split; [done|]. intros ->. by rewrite Hm, spliceIn_own_index.
Qed.

Lemma moveTab_within_one_list_witness :
  let G := groupTab "g" 2 [leafTab "a"; leafTab "b"; leafTab "c"] in
  let ws := oneWorktree [G] in
  let o := moveTab "now" ws "wt" "b" (Some "g"%string) (Some "g"%string) 1 (gatewayWith ws) in
  result o = success ()
  /\ locate (forestOf (workspace' o)) (InGroup "g")
     = Some (recalculateTabPositions [leafTab "a"; leafTab "b"; leafTab "c"] 2, 2).
Proof.
  intros G ws o.
  assert (Hnd : NoDup (ids [G])) by compute_done.
  destruct (moveTab_within_one_list "now" ws "wt" "b" (Some "g"%string) 1 (gatewayWith ws)
              0%nat {| wt_id := "wt"; wt_branch := "main"; wt_path := "/repo";
                       wt_tabs := [G]; wt_createdAt := "2025-01-01T00:00:00.000Z" |}
              [leafTab "a"; leafTab "b"; leafTab "c"] 2 1%nat (leafTab "b")
              eq_refl eq_refl Hnd eq_refl eq_refl eq_refl)
    as (Hok & forest' & Hw & _ & Hown).
  split; [exact (Hok (Working_gatewayWith ws))|].
  unfold forestOf, o. rewrite Hw. exact (Hown eq_refl).
Defined.

(** ** ScreenLayout: the grid cells of what the operations leave *)

(** X25.  A group whose children were recalculated under its own column
    count, as [reorderTabs] and [moveTab] leave it, passes the safety check
    of [ScreenLayout], and the child at index [i] is drawn from grid line
    [i div cols + 1] down and [i mod cols + 1] across, with non-zero spans:
    no two children start in the same cell, every column line lies within
    [1 .. cols], and the row line lies within the group's rows exactly for
    the first [rows * cols] children. *)
Theorem screenLayout_of_recalculated_children (G : Tab) (children : list Tab) :
  let R := orElse (rows (data G)) 2 in
  let n := orElse (cols (data G)) 2 in
  tab_type (data G) = group -> 0 < n ->
  tabs G = Some (recalculateTabPositions children n) ->
  exists cells,
    screenLayout G = Some (R, n, cells)
    /\ length cells = length children
    /\ (forall i r c, cells !! i = Some (r, c) ->
          lineStart r = Int (Z.of_nat i `div` n + 1)
          /\ lineStart c = Int (Z.of_nat i `mod` n + 1)
          /\ 1 <= Z.of_nat i `mod` n + 1 <= n
          /\ (Z.of_nat i `div` n + 1 <= R <-> Z.of_nat i < R * n)
          /\ lineSpan r <> 0 /\ lineSpan c <> 0)
    /\ (forall i j r c r' c',
          cells !! i = Some (r, c) -> cells !! j = Some (r', c') ->
          lineStart r = lineStart r' -> lineStart c = lineStart c' -> i = j).
Proof.
  intros R n Hg Hn Htabs.
  assert (Hcell : forall i r c,
            ((fun tab => (gridRow tab, gridColumn tab))
               <$> recalculateTabPositions children n) !! i = Some (r, c) ->
            lineStart r = Int (Z.of_nat i `div` n + 1)
            /\ lineStart c = Int (Z.of_nat i `mod` n + 1)
            /\ lineSpan r <> 0 /\ lineSpan c <> 0).
  { intros i r c Hi. rewrite list_lookup_fmap, lookup_recalculate in Hi.
    destruct (children !! i) as [t|]; [|done]. injection Hi as <- <-.
    unfold gridRow, gridColumn. simpl.
    rewrite floorDiv_pos, jsRem_pos by lia. simpl.
    repeat split; by apply orElse_nonzero. }
  exists ((fun tab => (gridRow tab, gridColumn tab)) <$> recalculateTabPositions children n).
  split.
  { unfold screenLayout, groupTabs. by rewrite decide_True, Htabs. }
  split; [by rewrite length_fmap, length_recalculate|].
  split.
  - intros i r c Hi. destruct (Hcell i r c Hi) as (Hr & Hc & Hsr & Hsc).
    pose proof (Z.mod_pos_bound (Z.of_nat i) n Hn).
    pose proof (Z.div_mod (Z.of_nat i) n ltac:(lia)).
    repeat (split; [done || lia|]). split; [|done]. split; nia.
  - intros i j r c r' c' Hi Hj Er Ec.
    destruct (Hcell i r c Hi) as (Hr & Hc & _).
    destruct (Hcell j r' c' Hj) as (Hr' & Hc' & _).
    rewrite Hr, Hr' in Er. rewrite Hc, Hc' in Ec.
    injection Er as Er. injection Ec as Ec.
    pose proof (Z.div_mod (Z.of_nat i) n ltac:(lia)).
    pose proof (Z.div_mod (Z.of_nat j) n ltac:(lia)).
    assert (Z.of_nat i = Z.of_nat j) by nia. lia.
Qed.

Lemma screenLayout_of_recalculated_children_witness :
  let G := groupTab "g" 2 (recalculateTabPositions [leafTab "a"; leafTab "b"; leafTab "c"] 2) in
  exists cells,
    screenLayout G = Some (2, 2, cells)
    /\ cells !! 2%nat = Some (mkGridLine (Int 2) 1, mkGridLine (Int 1) 1).
Proof.
  intros G.
  destruct (screenLayout_of_recalculated_children G [leafTab "a"; leafTab "b"; leafTab "c"]
              eq_refl ltac:(reflexivity) eq_refl) as (cells & Hs & _).
  exists cells. split; [exact Hs|].
  injection Hs as <-. reflexivity.
Defined.

(** X26.  A tab that [createTab] makes without both [row] and [col] in its
    input has no position, and [ScreenLayout] draws such a tab from grid line
    1 down and 1 across: the children made this way in one group all start
    in the first cell, until an operation recalculates the group. *)
Theorem created_without_position_starts_first_cell (uuid createdNow now : string)
    (ws : Workspace) (input : CreateTabInput) (g : Gateway) (t : Tab) :
  in_row input = None \/ in_col input = None ->
  result (createTab uuid createdNow now ws input g) = success t ->
  order (data t) = None /\ row (data t) = None /\ col (data t) = None
  /\ lineStart (gridRow t) = Int 1 /\ lineStart (gridColumn t) = Int 1.
Proof.
  intros Hin. unfold createTab.
  destruct (findWorktree _ _) as [wi|]; [|done].
  destruct (truthyId _) as [p|].
  - destruct (findTab _ p) as [P|]; [|done].
    destruct (isValidParentTab _); [|done]. simpl. destruct (save _ g); [|done]. intros [= <-].
    unfold gridRow, gridColumn, placeIn. simpl.
    destruct Hin as [-> | ->]; [done|]. by destruct (in_row input).
  - simpl. destruct (save _ g); [|done]. by intros [= <-].
Qed.

Lemma created_without_position_starts_first_cell_witness :
  let ws := oneWorktree [groupTab "g" 2 [leafTab "a"]] in
  let input := {| in_workspaceId := "ws"; in_worktreeId := "wt";
                  in_parentTabId := Some "g"%string;
                  in_name := "n"; in_type := None; in_command := None;
                  in_rows := None; in_cols := None; in_row := None; in_col := None;
                  in_rowSpan := None; in_colSpan := None |} in
  exists t u,
    result (createTab "n1" "c" "now" ws input (gatewayWith ws)) = success t
    /\ result (createTab "n2" "c" "now" ws input (gatewayWith ws)) = success u
    /\ lineStart (gridRow t) = lineStart (gridRow u)
    /\ lineStart (gridColumn t) = lineStart (gridColumn u).
Proof.
  intros ws input.
  destruct (created_without_position_starts_first_cell "n1" "c" "now" ws input (gatewayWith ws)
              (placeIn input (groupTab "g" 2 [leafTab "a"]) (newTab "n1" "c" input))
              (or_introl eq_refl) eq_refl) as (_ & _ & _ & Hr1 & Hc1).
  destruct (created_without_position_starts_first_cell "n2" "c" "now" ws input (gatewayWith ws)
              (placeIn input (groupTab "g" 2 [leafTab "a"]) (newTab "n2" "c" input))
              (or_introl eq_refl) eq_refl) as (_ & _ & _ & Hr2 & Hc2).
  exists (placeIn input (groupTab "g" 2 [leafTab "a"]) (newTab "n1" "c" input)),
         (placeIn input (groupTab "g" 2 [leafTab "a"]) (newTab "n2" "c" input)).
  split; [reflexivity|]. split; [reflexivity|].
  by rewrite Hr1, Hr2, Hc1, Hc2.
Defined.

(** ** The failures at work on small forests *)

Lemma failure_without_mutation_witness :
  let ws := oneWorktree [leafTab "a"] in
  let o := runOperation "now" ws (ReorderTabs "wt" None ["b"]%string) (gatewayWith ws) in
  let thrown := runOperation "now" ws (DeleteTab "wt" "a") (readOnlyGateway ws "disk full") in
  (result o = false /\ workspace' o = ws /\ gateway' o = gatewayWith ws)
  /\ (result thrown = false /\ forestOf (workspace' thrown) = []
      /\ exists e, save (workspace' thrown) (readOnlyGateway ws "disk full") = throws e).
Proof.
  intros ws o thrown. split.
  - split; [reflexivity|].
    apply (failure_without_mutation "now" ws (ReorderTabs "wt" None ["b"]%string)
             (gatewayWith ws)); [discriminate|reflexivity|apply Working_gatewayWith].
  - split; [reflexivity|]. split; [reflexivity|].
    destruct (failure_without_mutation "now" ws (DeleteTab "wt" "a")
                (readOnlyGateway ws "disk full") ltac:(discriminate) eq_refl)
      as [_ [[Hws _]|(e & wi & l & _ & Hsave & _)]].
    + apply (f_equal forestOf) in Hws. discriminate Hws.
    + exists e. exact Hsave.
Defined.

Lemma moveTab_validation_failure_witness :
  let ws := oneWorktree [leafTab "a"; groupTab "g" 2 []] in
  let o := moveTab "now" ws "wt" "a" (Some "a"%string) (Some "g"%string) 0 (gatewayWith ws) in
  let thrown := moveTab "now" ws "wt" "a" None (Some "g"%string) 0
                  (readOnlyGateway ws "disk full") in
  (result o = failure "Source parent tab not found"
   /\ workspace' o = ws /\ gateway' o = gatewayWith ws)
  /\ (result thrown = failure "disk full"
      /\ forestOf (workspace' thrown)
         = [placedAt 0 2 (groupTab "g" 2 [placedAt 0 2 (leafTab "a")])]
      /\ save (workspace' thrown) (readOnlyGateway ws "disk full") = throws "disk full").
Proof.
  intros ws o thrown. split.
  - split; [reflexivity|].
    apply (moveTab_validation_failure "now" ws "wt" "a" (Some "a"%string) (Some "g"%string) 0
             (gatewayWith ws) "Source parent tab not found");
      [reflexivity|apply Working_gatewayWith|discriminate].
  - split; [reflexivity|]. split; [reflexivity|].
    destruct (moveTab_validation_failure "now" ws "wt" "a" None (Some "g"%string) 0
                (readOnlyGateway ws "disk full") "disk full" eq_refl)
      as [_ [(Hws & _)|(wi & w & _ & _ & [[He _]|[Hsave _]])]].
    + apply (f_equal forestOf) in Hws. discriminate Hws.
    + discriminate He.
    + exact Hsave.
Defined.

Lemma moveTab_into_moved_subtree_witness :
  let inner := groupTab "h" 2 [] in
  let G := groupTab "g" 2 [leafTab "a"; inner] in
  let ws := oneWorktree [G; leafTab "t"] in
  let o := moveTab "now" ws "wt" "g" None (Some "h"%string) 0 (gatewayWith ws) in
  result o = failure nullTabsError
  /\ gateway' o = gatewayWith ws
  /\ exists forest',
       forestOf (workspace' o) = forest' /\ findTab forest' "g" = None.
Proof.
  intros inner G ws o.
  assert (Hnd : NoDup (ids [G; leafTab "t"])) by compute_done.
  assert (Hin : "h"%string ∈ idsIn G) by compute_done.
  destruct (moveTab_into_moved_subtree "now" ws "wt" "g" None "h" 0 (gatewayWith ws) 0%nat
              {| wt_id := "wt"; wt_branch := "main"; wt_path := "/repo";
                 wt_tabs := [G; leafTab "t"];
                 wt_createdAt := "2025-01-01T00:00:00.000Z" |}
              [G; leafTab "t"] 2 G inner
              eq_refl eq_refl Hnd eq_refl eq_refl ltac:(discriminate) eq_refl eq_refl Hin)
    as (Hres & Hgw & _ & forest' & Hw & Hgone).
  split; [exact Hres|]. split; [exact Hgw|].
  exists forest'. split; [|exact Hgone]. unfold forestOf, o. by rewrite Hw.
Defined.

Lemma reorderTabs_count_check_witness :
  let siblings := [leafTab "A"; leafTab "B"] in
  length (omap (findById siblings) ["B"; "A"]%string) = length siblings
  /\ tab_id (data (leafTab "A")) ∈ ["B"; "A"]%string.
Proof.
  intros siblings. split; [reflexivity|].
  apply (reorderTabs_count_check siblings ["B"; "A"]%string).
  - compute_done.
  - compute_done.
  - reflexivity.
  - apply list_elem_of_here.
Defined.
